(** * Spotify MCP server: token lifecycle, tool dispatcher and OAuth callback

    A shallow embedding of [src/server/server.ts] (Node server with the
    in-memory [authSessions] / [pendingAuthStates] maps) and of the tool
    switch of [src/worker.ts] (Cloudflare worker, tokens in a KV namespace).

    Conventions of the model:
    - JavaScript strings are byte strings ([string]) holding the UTF-8 form
      of the text; a surrogate that has no partner, which a JavaScript
      string may hold, is written in the three bytes of the generalised
      form (ED, then A0..BF, then a continuation byte).
    - Numbers that the code uses as counts, limits, offsets and millisecond
      timestamps are [Z].  A template literal prints an integer in plain
      decimal when it is a safe integer ([isSafeInteger], magnitude below
      2^53); what the code prints for other numbers is outside the model,
      and the statements about printed arguments are made for safe
      integers.
    - The two [Map]s are [gmap string _]; the sweep of [handleAuthCallback]
      deletes by a per-entry test, so insertion order plays no role.
    - Everything the code obtains from outside (clock readings, random
      bytes, HTTP replies, the three configuration strings) comes from an
      [Env]; the [World] counts the readings taken and logs every outbound
      HTTP request in order.
    - [async] functions are a state-and-exception monad over [World].  A
      [throw] keeps the mutations made before it, as in JavaScript.
    - Upstream JSON is typed ([Json]): a 2xx reply of the token endpoint is
      taken to be a token document and a reply that is not one is a
      [TypeError]; elsewhere a missing member reads as [undefined] and a
      member read off [null] or [undefined] is a [TypeError], as in
      JavaScript. *)

From Stdlib Require Import ZArith String Ascii List.
From Stdlib Require Sorted.
From stdpp Require Import base option list gmap strings pretty fin_maps.

Local Open Scope Z_scope.
Local Open Scope string_scope.
Local Open Scope list_scope.

(** ** String primitives of the JavaScript runtime *)

Definition dquote : string := String (ascii_of_nat 34) EmptyString.

Definition lower_ascii (c : ascii) : ascii :=
  let n := nat_of_ascii c in
  if ((65 <=? n)%nat && (n <=? 90)%nat)%bool then ascii_of_nat (n + 32) else c.

Definition byte_is (c : ascii) (n : nat) : bool := Nat.eqb (nat_of_ascii c) n.

(** [String.prototype.toLowerCase], on every character whose lower case
    holds an ASCII letter: the letters A..Z, U+212A KELVIN SIGN (bytes
    E2 84 AA), whose lower case is [k], and U+0130 (bytes C4 B0), whose
    lower case is [i] followed by U+0307 (bytes CC 87).  The lower case of
    any other character has no ASCII letter in it; those characters are
    kept as they are, which leaves every search for an ASCII substring in
    the result unchanged. *)
Fixpoint toLowerCase (s : string) : string :=
  match s with
  | EmptyString => EmptyString
  | String c r =>
      match r with
      | String c2 r2 =>
          if (byte_is c 196 && byte_is c2 176)%bool
          then String "i" (String (ascii_of_nat 204) (String (ascii_of_nat 135)
                 (toLowerCase r2)))
          else
            match r2 with
            | String c3 r3 =>
                if (byte_is c 226 && byte_is c2 132 && byte_is c3 170)%bool
                then String "k" (toLowerCase r3)
                else String (lower_ascii c) (toLowerCase r)
            | EmptyString => String (lower_ascii c) (toLowerCase r)
            end
      | EmptyString => String (lower_ascii c) (toLowerCase r)
      end
  end.

(** [String.prototype.includes]. *)
Fixpoint includes (s sub : string) : bool :=
  if String.prefix sub s then true
  else match s with
       | EmptyString => false
       | String _ r => includes r sub
       end.

(** [Array.prototype.join]. *)
Definition join (sep : string) (l : list string) : string := String.concat sep l.

(** Template-literal rendering of an integral number, in plain decimal:
    what JavaScript prints for a safe integer. *)
Definition num_to_string (z : Z) : string := pretty z.

(** [Number.isSafeInteger]. *)
Definition isSafeInteger (z : Z) : bool :=
  (- (2 ^ 53 - 1) <=? z)%Z && (z <=? 2 ^ 53 - 1)%Z.

Definition safe_arg (a : option Z) : bool :=
  match a with
  | Some z => isSafeInteger z
  | None => true
  end.

Definition hex_digit (n : nat) : ascii :=
  if (n <? 10)%nat then ascii_of_nat (48 + n) else ascii_of_nat (55 + n).

Definition percent_byte (c : ascii) : string :=
  let n := nat_of_ascii c in
  String "%" (String (hex_digit (n / 16)) (String (hex_digit (n mod 16)) EmptyString)).

Definition is_alnum (c : ascii) : bool :=
  let n := nat_of_ascii c in
  (((48 <=? n) && (n <=? 57)) || ((65 <=? n) && (n <=? 90)) || ((97 <=? n) && (n <=? 122)))%nat%bool.

Definition mem_ascii (c : ascii) (s : string) : bool :=
  existsb (fun d => Ascii.eqb c d) (list_ascii_of_string s).

(** The first byte of a surrogate without partner, given the rest. *)
Definition lone_surrogate (c : ascii) (r : string) : bool :=
  match r with
  | String c2 _ => byte_is c 237 && (160 <=? nat_of_ascii c2)%nat
  | EmptyString => false
  end.

(** [encodeURIComponent]: letters, digits and [-_.!~*'()] stay, every other
    byte of the UTF-8 form is percent-escaped; a surrogate without partner
    has no UTF-8 form and the function throws a [URIError] ([None]). *)
Fixpoint encodeURIComponent (s : string) : option string :=
  match s with
  | EmptyString => Some EmptyString
  | String c r =>
      if lone_surrogate c r then None
      else
        match encodeURIComponent r with
        | Some e =>
            Some ((if (is_alnum c || mem_ascii c "-_.!~*'()")%bool
                   then String c EmptyString else percent_byte c) +:+ e)
        | None => None
        end
  end.

(** The [application/x-www-form-urlencoded] serializer behind
    [URLSearchParams.prototype.toString]. *)
Fixpoint form_encode (s : string) : string :=
  match s with
  | EmptyString => EmptyString
  | String c r =>
      (if (is_alnum c || mem_ascii c "*-._")%bool then String c EmptyString
       else if Ascii.eqb c " "%char then "+"
       else percent_byte c) +:+ form_encode r
  end.

Definition URLSearchParams_toString (ps : list (string * string)) : string :=
  join "&" (map (fun p => form_encode (fst p) +:+ "=" +:+ form_encode (snd p)) ps).

(** What [fetch] sends of a URL: the fragment, from the first [#] on, stays
    with the caller; the query is what follows the first [?]. *)
Fixpoint cut_at (c : ascii) (s : string) : string :=
  match s with
  | EmptyString => EmptyString
  | String d r => if Ascii.eqb c d then EmptyString else String d (cut_at c r)
  end.

Fixpoint after_first (c : ascii) (s : string) : string :=
  match s with
  | EmptyString => EmptyString
  | String d r => if Ascii.eqb c d then r else after_first c r
  end.

Definition request_target (url : string) : string := cut_at "#" url.

Definition url_query (url : string) : string :=
  after_first "?" (request_target url).

(** A path segment that stays one: it opens neither a query nor a
    fragment. *)
Definition plain_segment (s : string) : bool :=
  negb (mem_ascii "?" s) && negb (mem_ascii "#" s).

(** A value that stays inside its parameter: it starts neither another
    parameter nor a fragment. *)
Definition plain_value (s : string) : bool :=
  negb (mem_ascii "&" s) && negb (mem_ascii "#" s).

(** The characters that the handlers' own conversions produce: those of
    an encoded component, of a printed integer and of a joined list of
    type names. *)
Definition value_char (c : ascii) : bool :=
  is_alnum c || mem_ascii c "-_.!~*'()%,".

(** JavaScript's [a || d] on an optional number and an optional string:
    [undefined], [0] and the empty string are falsy. *)
Definition or_num (a : option Z) (d : Z) : Z :=
  match a with
  | Some z => if Z.eqb z 0 then d else z
  | None => d
  end.

Definition or_str (a : option string) (d : string) : string :=
  match a with
  | Some s => if String.eqb s "" then d else s
  | None => d
  end.

(** A [string | null] query parameter that passes an [if (x)] test: present
    and not empty. *)
Definition present (a : option string) : option string :=
  match a with
  | Some s => if String.eqb s "" then None else Some s
  | None => None
  end.

(** ** Data model *)

(** [authSessions] values and [pendingAuthStates] values. *)
Record Session := mkSession {
  accessToken : string;
  refreshToken : string;
  expiresAt : Z
}.

Record PendingAuth := mkPendingAuth {
  sessionId : string;
  createdAt : Z
}.

(** The enum shared by the six-valued [itemType] / [types] schemas. *)
Inductive ItemType := track | album | artist | playlist | show | episode.

Definition item_type_name (t : ItemType) : string :=
  match t with
  | track => "track" | album => "album" | artist => "artist"
  | playlist => "playlist" | show => "show" | episode => "episode"
  end.

(** Arguments of a tool call, typed as the advertised [inputSchema]s type
    them; [NoArgs] is the [arguments ?? {}] fallback.  The bounds that only
    the Zod parsers add ([max(50)], [max(100)]) are checked at run time. *)
Inductive ToolArgs :=
| NoArgs
| LibraryArgs (itemType : ItemType) (itemId : string)
| FetchTracksArgs (playlistId : string) (offset limit : option Z)
| SearchArgs (query : string) (types : option (list ItemType))
             (limit : option Z) (market : option string).

(** *** Outbound HTTP *)

Inductive Method := GET | POST | PUT | DELETE.

(** The [Authorization] header; [Basic id secret] stands for the base64 of
    [id:secret]. *)
Inductive Authorization :=
| Basic (client_id client_secret : string)
| Bearer (token : string).

Inductive RequestBody :=
| NoBody
| JsonIds (ids : list string)
| FormBody (fields : list (string * string)).

Record Request := mkRequest {
  req_url : string;
  req_method : Method;
  req_authorization : Authorization;
  req_content_type : string;
  req_body : RequestBody
}.

(** *** Upstream objects, with the fields the handlers read *)

Record Track := mkTrack {
  track_id : string;
  track_name : string;
  track_artists : list string;
  track_album_name : string;
  track_album_images : list string;
  track_duration_ms : Z;
  track_explicit : bool;
  track_uri : string;
  track_external_url : string
}.

Record Album := mkAlbum {
  album_id : string;
  album_name : string;
  album_artists : list string;
  album_release_date : string;
  album_total_tracks : Z;
  album_uri : string;
  album_external_url : string;
  album_images : list string
}.

Record Artist := mkArtist {
  artist_id : string;
  artist_name : string;
  artist_genres : list string;
  artist_followers_total : Z;
  artist_uri : string;
  artist_external_url : string;
  artist_images : list string
}.

Record Playlist := mkPlaylist {
  playlist_id : string;
  playlist_name : string;
  playlist_owner_display_name : string;
  playlist_tracks_total : Z;
  playlist_uri : string;
  playlist_external_url : string;
  playlist_images : list string
}.

Record SearchResults := mkSearchResults {
  sr_tracks : option (list Track);
  sr_albums : option (list Album);
  sr_artists : option (list Artist);
  sr_playlists : option (list Playlist)
}.

(** The JSON documents the upstream answers with.  A playlist item's
    [track] is [null] for an unavailable track. *)
Inductive Json :=
| JToken (access_token refresh_token : string) (expires_in : Z)
| JPage (items : list (option Track)) (total : Z)
| JSaved (flags : list bool)
| JSearch (r : SearchResults).

Record Response := mkResponse {
  status : Z;
  statusText : string;
  body_text : string;
  body_json : option Json
}.

Definition response_ok (r : Response) : bool :=
  ((200 <=? status r)%Z && (status r <=? 299)%Z)%bool.

(** *** Tool results *)

Record PlaylistTrackView := mkPlaylistTrackView {
  ptv_id : string;
  ptv_name : string;
  ptv_artists : string;
  ptv_album : string;
  ptv_duration_ms : Z;
  ptv_explicit : bool;
  is_saved : option bool;
  ptv_uri : string;
  ptv_external_url : string
}.

Record TrackHit := mkTrackHit {
  th_id : string; th_name : string; th_artists : string; th_album : string;
  th_duration_ms : Z; th_explicit : bool; th_uri : string;
  th_external_url : string; th_image : option string
}.

Record AlbumHit := mkAlbumHit {
  ah_id : string; ah_name : string; ah_artists : string;
  ah_release_date : string; ah_total_tracks : Z; ah_uri : string;
  ah_external_url : string; ah_image : option string
}.

Record ArtistHit := mkArtistHit {
  arh_id : string; arh_name : string; arh_genres : list string;
  arh_followers : Z; arh_uri : string; arh_external_url : string;
  arh_image : option string
}.

Record PlaylistHit := mkPlaylistHit {
  ph_id : string; ph_name : string; ph_owner : string; ph_tracks_total : Z;
  ph_uri : string; ph_external_url : string; ph_image : option string
}.

Record SearchView := mkSearchView {
  sv_tracks : option (list TrackHit);
  sv_albums : option (list AlbumHit);
  sv_artists : option (list ArtistHit);
  sv_playlists : option (list PlaylistHit)
}.

Inductive StructuredContent :=
| PlaylistTracks (playlistId : string) (tracks : list PlaylistTrackView) (total : Z)
| SearchOutcome (query : string) (results : SearchView).

Record ToolResult := mkToolResult {
  content_text : string;
  structuredContent : option StructuredContent;
  widget_meta : bool
}.

Definition text_result (t : string) : ToolResult := mkToolResult t None false.

(** The pages [handleAuthCallback] writes; the HTML templates are kept
    abstract, their interpolated text is the argument. *)
Inductive CallbackBody :=
| PlainText (t : string)
| AuthenticationFailedPage (error : string)
| ConnectedPage
| AuthenticationErrorPage (message : string).

Record HttpReply := mkHttpReply {
  reply_status : Z;
  reply_body : CallbackBody
}.

(** ** The world and the monad of [async] functions *)

Inductive Error :=
| Error_ (message : string)
| ZodError
| TypeError
| SyntaxError
| URIError.

Inductive Outcome (A : Type) :=
| Return (a : A)
| Throw (e : Error).

Arguments Return {A} a.
Arguments Throw {A} e.

Record World := mkWorld {
  authSessions : gmap string Session;
  pendingAuthStates : gmap string PendingAuth;
  clock_reads : nat;
  random_draws : nat;
  fetched : list Request
}.

Record Env := mkEnv {
  SPOTIFY_CLIENT_ID : string;
  SPOTIFY_CLIENT_SECRET : string;
  SPOTIFY_REDIRECT_URI : string;
  clock : nat -> Z;
  random_hex : nat -> string;
  upstream : nat -> Request -> Response
}.

Definition Async (A : Type) : Type := World -> Outcome A * World.

Definition ret {A} (a : A) : Async A := fun w => (Return a, w).

Definition throw {A} (e : Error) : Async A := fun w => (Throw e, w).

Definition bind {A B} (m : Async A) (k : A -> Async B) : Async B :=
  fun w => match m w with
           | (Return a, w') => k a w'
           | (Throw e, w') => (Throw e, w')
           end.

Definition try_catch {A} (m : Async A) (h : Error -> Async A) : Async A :=
  fun w => match m w with
           | (Return a, w') => (Return a, w')
           | (Throw e, w') => h e w'
           end.

Notation "x <- m ;; k" := (bind m (fun x => k))
  (at level 100, m at next level, right associativity).
Notation "m ;;; k" := (bind m (fun _ => k))
  (at level 100, right associativity).

Definition set_sessions (f : gmap string Session -> gmap string Session) : Async unit :=
  fun w => (Return tt,
            mkWorld (f (authSessions w)) (pendingAuthStates w)
                    (clock_reads w) (random_draws w) (fetched w)).

Definition set_pending (f : gmap string PendingAuth -> gmap string PendingAuth) : Async unit :=
  fun w => (Return tt,
            mkWorld (authSessions w) (f (pendingAuthStates w))
                    (clock_reads w) (random_draws w) (fetched w)).

Definition get_session (k : string) : Async (option Session) :=
  fun w => (Return (authSessions w !! k), w).

Definition get_pending (k : string) : Async (option PendingAuth) :=
  fun w => (Return (pendingAuthStates w !! k), w).

(** [error.message] *)
Definition error_message (e : Error) : string :=
  match e with
  | Error_ m => m
  | ZodError => "ZodError"
  | TypeError => "TypeError"
  | SyntaxError => "SyntaxError"
  | URIError => "URI malformed"
  end.

Definition lift {A} (o : Outcome A) : Async A := fun w => (o, w).

(** ** The program *)

Section Program.

Context (env : Env).

Definition SPOTIFY_API_BASE : string := "https://api.spotify.com/v1".

Definition TOKEN_ENDPOINT : string := "https://accounts.spotify.com/api/token".

(** [Date.now()]: the next reading of the clock. *)
Definition Date_now : Async Z :=
  fun w => (Return (clock env (clock_reads w)),
            mkWorld (authSessions w) (pendingAuthStates w)
                    (S (clock_reads w)) (random_draws w) (fetched w)).

(** [crypto.randomBytes(16).toString("hex")]. *)
Definition randomBytes16_hex : Async string :=
  fun w => (Return (random_hex env (random_draws w)),
            mkWorld (authSessions w) (pendingAuthStates w)
                    (clock_reads w) (S (random_draws w)) (fetched w)).

(** [fetch]: the request is logged and the upstream's reply returned. *)
Definition fetch (r : Request) : Async Response :=
  fun w => (Return (upstream env (length (fetched w)) r),
            mkWorld (authSessions w) (pendingAuthStates w)
                    (clock_reads w) (random_draws w) (fetched w ++ [r])).

(** [response.json()]. *)
Definition response_json (r : Response) : Async Json :=
  match body_json r with
  | Some j => ret j
  | None => throw SyntaxError
  end.

Definition scopes : list string :=
  [ "user-library-read"; "user-library-modify"; "user-follow-read";
    "user-follow-modify"; "playlist-read-private";
    "playlist-read-collaborative"; "playlist-modify-public";
    "playlist-modify-private"; "user-read-private"; "user-read-email";
    "user-top-read"; "user-read-recently-played" ].

Definition generateAuthUrl (state : string) : string :=
  "https://accounts.spotify.com/authorize?" +:+
  URLSearchParams_toString
    [ ("client_id", SPOTIFY_CLIENT_ID env);
      ("response_type", "code");
      ("redirect_uri", SPOTIFY_REDIRECT_URI env);
      ("state", state);
      ("scope", join " " scopes);
      ("show_dialog", "true") ].

Definition token_request (form : list (string * string)) : Request :=
  mkRequest TOKEN_ENDPOINT POST
    (Basic (SPOTIFY_CLIENT_ID env) (SPOTIFY_CLIENT_SECRET env))
    "application/x-www-form-urlencoded" (FormBody form).

Definition exchange_request (code : string) : Request :=
  token_request [ ("grant_type", "authorization_code");
                  ("code", code);
                  ("redirect_uri", SPOTIFY_REDIRECT_URI env) ].

(** A reply of another shape than the token document is a [TypeError]. *)
Definition exchangeCodeForToken (code : string) : Async (string * string * Z) :=
  response <- fetch (exchange_request code) ;;
  if negb (response_ok response)
  then throw (Error_ ("Failed to exchange code for token: " +:+ statusText response))
  else
    j <- response_json response ;;
    match j with
    | JToken a r e => ret (a, r, e)
    | _ => throw TypeError
    end.

Definition refresh_request (refreshToken : string) : Request :=
  token_request [ ("grant_type", "refresh_token"); ("refresh_token", refreshToken) ].

Definition refreshAccessToken (refreshToken : string) : Async (string * Z) :=
  response <- fetch (refresh_request refreshToken) ;;
  if negb (response_ok response)
  then throw (Error_ ("Failed to refresh token: " +:+ statusText response))
  else
    j <- response_json response ;;
    match j with
    | JToken a _ e => ret (a, e)
    | _ => throw TypeError
    end.

(** [getValidAccessToken] of server.ts; worker.ts has the same body with
    the refresh inlined and the KV namespace in place of the [Map]. *)
Definition getValidAccessToken (sessionId : string) : Async string :=
  session <- get_session sessionId ;;
  match session with
  | None => throw (Error_ "Not authenticated. Please authenticate with Spotify first.")
  | Some session =>
      now <- Date_now ;;
      if (now >=? expiresAt session)%Z then
        tokenData <- refreshAccessToken (refreshToken session) ;;
        now' <- Date_now ;;
        let session' :=
          mkSession (fst tokenData) (refreshToken session)
                    (now' + snd tokenData * 1000) in
        set_sessions (insert sessionId session') ;;;
        ret (accessToken session')
      else ret (accessToken session)
  end.

Definition api_request (accessToken endpoint : string) (method : Method)
    (body : RequestBody) : Request :=
  mkRequest (SPOTIFY_API_BASE +:+ endpoint) method (Bearer accessToken)
            "application/json" body.

(** [null] for a 204, the parsed JSON otherwise. *)
Definition spotifyApiRequest (sessionId endpoint : string) (method : Method)
    (body : RequestBody) : Async (option Json) :=
  accessToken <- getValidAccessToken sessionId ;;
  response <- fetch (api_request accessToken endpoint method body) ;;
  if negb (response_ok response)
  then throw (Error_ ("Spotify API error: " +:+ num_to_string (status response)
                      +:+ " " +:+ body_text response))
  else if (status response =? 204)%Z then ret None
  else j <- response_json response ;; ret (Some j).

(** *** Argument parsers (Zod) *)

Definition within (bound : Z) (a : option Z) : bool :=
  match a with
  | Some n => (n <=? bound)%Z
  | None => true
  end.

Definition addToLibraryParser (a : ToolArgs) : Outcome (ItemType * string) :=
  match a with
  | LibraryArgs t i => Return (t, i)
  | _ => Throw ZodError
  end.

Definition removeFromLibraryParser (a : ToolArgs) : Outcome (ItemType * string) :=
  match a with
  | LibraryArgs t i => Return (t, i)
  | _ => Throw ZodError
  end.

Definition fetchTracksParser (a : ToolArgs)
    : Outcome (string * option Z * option Z) :=
  match a with
  | FetchTracksArgs p o l =>
      if within 100 l then Return (p, o, l) else Throw ZodError
  | _ => Throw ZodError
  end.

Definition searchParser (a : ToolArgs)
    : Outcome (string * option (list ItemType) * option Z * option string) :=
  match a with
  | SearchArgs q ts l m =>
      if within 50 l then Return (q, ts, l, m) else Throw ZodError
  | _ => Throw ZodError
  end.

(** *** Library tools: the [switch (args.itemType)] *)

Definition library_endpoint (t : ItemType) : Outcome string :=
  match t with
  | track => Return "/me/tracks"
  | album => Return "/me/albums"
  | artist => Return "/me/following?type=artist"
  | show => Return "/me/shows"
  | episode => Return "/me/episodes"
  | playlist => Throw (Error_ ("Unsupported item type: " +:+ item_type_name t))
  end.

Definition add_to_library (sessionId : string) (arguments : ToolArgs)
    : Async ToolResult :=
  args <- lift (addToLibraryParser arguments) ;;
  let ids := [snd args] in
  endpoint <- lift (library_endpoint (fst args)) ;;
  spotifyApiRequest sessionId endpoint PUT (JsonIds ids) ;;;
  ret (text_result ("Successfully added " +:+ item_type_name (fst args)
                    +:+ " to your library.")).

Definition remove_from_library (sessionId : string) (arguments : ToolArgs)
    : Async ToolResult :=
  args <- lift (removeFromLibraryParser arguments) ;;
  let ids := [snd args] in
  endpoint <- lift (library_endpoint (fst args)) ;;
  spotifyApiRequest sessionId endpoint DELETE (JsonIds ids) ;;;
  ret (text_result ("Successfully removed " +:+ item_type_name (fst args)
                    +:+ " from your library.")).

(** *** fetch_tracks *)

(** [data.items.map(item => item.track.id)]; reading [.id] of a [null]
    track is a [TypeError]. *)
Fixpoint track_ids (items : list (option Track)) : Outcome (list string) :=
  match items with
  | [] => Return []
  | None :: _ => Throw TypeError
  | Some t :: rest =>
      match track_ids rest with
      | Return ids => Return (track_id t :: ids)
      | Throw e => Throw e
      end
  end.

(** [savedStatus[index]]: a [TypeError] on [null], the array element (or
    [undefined]) on an array, [undefined] on any other document. *)
Definition saved_at (savedStatus : option Json) (index : nat) : Outcome (option bool) :=
  match savedStatus with
  | None => Throw TypeError
  | Some (JSaved flags) => Return (flags !! index)
  | Some _ => Return None
  end.

Definition playlist_track_view (t : Track) (saved : option bool) : PlaylistTrackView :=
  mkPlaylistTrackView (track_id t) (track_name t) (join ", " (track_artists t))
    (track_album_name t) (track_duration_ms t) (track_explicit t) saved
    (track_uri t) (track_external_url t).

(** [data.items.map((item, index) => ({ ..., is_saved: savedStatus[index], ... }))],
    from position [index] on. *)
Fixpoint project_items (savedStatus : option Json) (index : nat)
    (items : list (option Track)) : Outcome (list PlaylistTrackView) :=
  match items with
  | [] => Return []
  | None :: _ => Throw TypeError
  | Some t :: rest =>
      match saved_at savedStatus index with
      | Throw e => Throw e
      | Return s =>
          match project_items savedStatus (S index) rest with
          | Return vs => Return (playlist_track_view t s :: vs)
          | Throw e => Throw e
          end
      end
  end.

Definition playlist_page_endpoint (playlistId : string) (offset limit : option Z) : string :=
  "/playlists/" +:+ playlistId +:+ "/tracks?offset=" +:+ num_to_string (or_num offset 0)
  +:+ "&limit=" +:+ num_to_string (or_num limit 100).

Definition saved_status_endpoint (trackIds : list string) : string :=
  "/me/tracks/contains?ids=" +:+ join "," trackIds.

Definition fetch_tracks (sessionId : string) (arguments : ToolArgs)
    : Async ToolResult :=
  args <- lift (fetchTracksParser arguments) ;;
  let '(playlistId, offset, limit) := args in
  data <- spotifyApiRequest sessionId
            (playlist_page_endpoint playlistId offset limit) GET NoBody ;;
  match data with
  | Some (JPage items total) =>
      trackIds <- lift (track_ids items) ;;
      savedStatus <- spotifyApiRequest sessionId
                       (saved_status_endpoint trackIds) GET NoBody ;;
      tracks <- lift (project_items savedStatus 0 items) ;;
      ret (mkToolResult
             ("Loaded " +:+ num_to_string (Z.of_nat (length tracks))
              +:+ " tracks from playlist.")
             (Some (PlaylistTracks playlistId tracks total)) false)
  | _ => throw TypeError
  end.

(** *** search *)

Definition refusal_text : string :=
  "You can't search audiobooks on Spotify yet. Try the Spotify app, or search for something else.".

Definition default_types : list ItemType := [track; album; artist; playlist].

Definition search_types (ts : option (list ItemType)) : list ItemType :=
  match ts with
  | Some l => l
  | None => default_types
  end.

Definition search_limit (l : option Z) : Z := or_num l 20.

Definition search_market (m : option string) : string := or_str m "US".

(** The template literal of the search request; [None] when
    [encodeURIComponent] throws. *)
Definition search_endpoint (query : string) (ts : option (list ItemType))
    (l : option Z) (m : option string) : option string :=
  match encodeURIComponent query with
  | Some q =>
      Some ("/search?q=" +:+ q
            +:+ "&type=" +:+ join "," (map item_type_name (search_types ts))
            +:+ "&limit=" +:+ num_to_string (search_limit l)
            +:+ "&market=" +:+ search_market m)
  | None => None
  end.

Definition track_hit (t : Track) : TrackHit :=
  mkTrackHit (track_id t) (track_name t) (join ", " (track_artists t))
    (track_album_name t) (track_duration_ms t) (track_explicit t)
    (track_uri t) (track_external_url t) (head (track_album_images t)).

Definition album_hit (a : Album) : AlbumHit :=
  mkAlbumHit (album_id a) (album_name a) (join ", " (album_artists a))
    (album_release_date a) (album_total_tracks a) (album_uri a)
    (album_external_url a) (head (album_images a)).

Definition artist_hit (a : Artist) : ArtistHit :=
  mkArtistHit (artist_id a) (artist_name a) (artist_genres a)
    (artist_followers_total a) (artist_uri a) (artist_external_url a)
    (head (artist_images a)).

Definition playlist_hit (p : Playlist) : PlaylistHit :=
  mkPlaylistHit (playlist_id p) (playlist_name p) (playlist_owner_display_name p)
    (playlist_tracks_total p) (playlist_uri p) (playlist_external_url p)
    (head (playlist_images p)).

Definition search_view (r : SearchResults) : SearchView :=
  mkSearchView (map track_hit <$> sr_tracks r) (map album_hit <$> sr_albums r)
    (map artist_hit <$> sr_artists r) (map playlist_hit <$> sr_playlists r).

(** The [tracks], [albums], [artists] and [playlists] members of a reply;
    a document of another kind has none of them. *)
Definition facets (j : Json) : SearchResults :=
  match j with
  | JSearch r => r
  | _ => mkSearchResults None None None None
  end.

Definition facet_size {A} (f : option (list A)) : nat :=
  match f with
  | Some l => length l
  | None => 0%nat
  end.

(** [Object.values(results).flat().length] *)
Definition result_count (v : SearchView) : nat :=
  (facet_size (sv_tracks v) + facet_size (sv_albums v)
   + facet_size (sv_artists v) + facet_size (sv_playlists v))%nat.

Definition search (sessionId : string) (arguments : ToolArgs) : Async ToolResult :=
  args <- lift (searchParser arguments) ;;
  let '(query, ts, l, m) := args in
  if includes (toLowerCase query) "audiobook"
  then ret (text_result refusal_text)
  else
    match search_endpoint query ts l m with
    | None => throw URIError
    | Some endpoint =>
        searchResults <- spotifyApiRequest sessionId endpoint GET NoBody ;;
        match searchResults with
        | Some j =>
            let results := search_view (facets j) in
            ret (mkToolResult
                   ("Found " +:+ num_to_string (Z.of_nat (result_count results))
                    +:+ " results for " +:+ dquote +:+ query +:+ dquote +:+ ".")
                   (Some (SearchOutcome query results)) true)
        | None => throw TypeError
        end
    end.

(** *** The tool switch

    [handleToolCall] of worker.ts; server.ts carries the same switch after
    its authentication gate. *)
Definition handleToolCall (userId toolName : string) (args : ToolArgs)
    : Async ToolResult :=
  if String.eqb toolName "add_to_library" then add_to_library userId args
  else if String.eqb toolName "remove_from_library" then remove_from_library userId args
  else if String.eqb toolName "fetch_tracks" then fetch_tracks userId args
  else if String.eqb toolName "search" then search userId args
  else throw (Error_ ("Unknown tool: " +:+ toolName)).

Definition auth_prompt (authUrl : string) : string :=
  "Please authenticate with Spotify to use this feature. Visit: " +:+ authUrl.

(** The [CallToolRequestSchema] handler that [createSpotifyServer(sessionId)]
    registers in server.ts. *)
Definition callToolHandler (sessionId toolName : string) (arguments : ToolArgs)
    : Async ToolResult :=
  session <- get_session sessionId ;;
  match session with
  | None =>
      state <- randomBytes16_hex ;;
      now <- Date_now ;;
      set_pending (insert state (mkPendingAuth sessionId now)) ;;;
      let authUrl := generateAuthUrl state in
      ret (text_result (auth_prompt authUrl))
  | Some _ => handleToolCall sessionId toolName arguments
  end.

(** *** OAuth callback *)

Definition TEN_MINUTES : Z := 10 * 60 * 1000.

Definition stale (now : Z) (p : PendingAuth) : bool :=
  (now - createdAt p >? TEN_MINUTES)%Z.

(** The [for ... of pendingAuthStates.entries()] loop with its [delete]. *)
Definition sweep (now : Z) (m : gmap string PendingAuth) : gmap string PendingAuth :=
  filter (fun kv => stale now (snd kv) = false) m.

Definition handleAuthCallback (code state error : option string) : Async HttpReply :=
  match present error with
  | Some error => ret (mkHttpReply 400 (AuthenticationFailedPage error))
  | None =>
      match present code, present state with
      | Some code, Some state =>
          pendingAuth <- get_pending state ;;
          match pendingAuth with
          | None => ret (mkHttpReply 400 (PlainText "Invalid or expired state parameter"))
          | Some pendingAuth =>
              now <- Date_now ;;
              set_pending (sweep now) ;;;
              try_catch
                (tokenData <- exchangeCodeForToken code ;;
                 let '(access_token, refresh_token, expires_in) := tokenData in
                 now' <- Date_now ;;
                 set_sessions
                   (insert (sessionId pendingAuth)
                      (mkSession access_token refresh_token (now' + expires_in * 1000))) ;;;
                 set_pending (delete state) ;;;
                 ret (mkHttpReply 200 ConnectedPage))
                (fun error =>
                   ret (mkHttpReply 500 (AuthenticationErrorPage (error_message error))))
          end
      | _, _ => ret (mkHttpReply 400 (PlainText "Missing code or state parameter"))
      end
  end.

End Program.

(** ** Worlds reached by the token refresher *)

Section Reached.

Context (env : Env).

(** The world after the single clock reading of an unexpired check. *)
Definition after_check (w : World) : World :=
  mkWorld (authSessions w) (pendingAuthStates w) (S (clock_reads w))
          (random_draws w) (fetched w).

(** The world after a refused refresh: one clock reading, one request. *)
Definition after_failed_refresh (w : World) (s : Session) : World :=
  mkWorld (authSessions w) (pendingAuthStates w) (S (clock_reads w))
          (random_draws w) (fetched w ++ [refresh_request env (refreshToken s)]).

(** The world after a granted refresh: two clock readings, one request, the
    session rewritten. *)
Definition after_refresh (w : World) (sid : string) (s : Session)
    (access : string) (expires_in : Z) : World :=
  mkWorld
    (<[sid := mkSession access (refreshToken s)
                (clock env (S (clock_reads w)) + expires_in * 1000)]> (authSessions w))
    (pendingAuthStates w) (S (S (clock_reads w))) (random_draws w)
    (fetched w ++ [refresh_request env (refreshToken s)]).

Definition refresh_reply (w : World) (s : Session) : Response :=
  upstream env (length (fetched w)) (refresh_request env (refreshToken s)).

(** The world after one more outbound request. *)
Definition after_fetch (w : World) (r : Request) : World :=
  mkWorld (authSessions w) (pendingAuthStates w) (clock_reads w)
          (random_draws w) (fetched w ++ [r]).

End Reached.

(** ** Fixtures: a scripted upstream and two worlds *)

Definition sample_track (id : string) : Track :=
  mkTrack id ("Song " +:+ id) ["Ann"; "Bob"] "LP" ["http://img/1"] 180000 false
          ("spotify:track:" +:+ id) ("https://open.spotify.com/track/" +:+ id).

(** Answers by endpoint: a token document (or [400 Bad Request] when
    [token_ok] is off), a two-item playlist page, a saved-status array, an
    empty search result, and [204] for the library mutations. *)
Definition scripted_upstream (token_ok : bool) (n : nat) (r : Request) : Response :=
  if String.eqb (req_url r) TOKEN_ENDPOINT then
    if token_ok then mkResponse 200 "OK" "" (Some (JToken "fresh-token" "refresh-2" 3600))
    else mkResponse 400 "Bad Request" "invalid_grant" None
  else if String.prefix (SPOTIFY_API_BASE +:+ "/playlists/") (req_url r) then
    mkResponse 200 "OK" "" (Some (JPage [Some (sample_track "a"); Some (sample_track "b")] 2))
  else if String.prefix (SPOTIFY_API_BASE +:+ "/me/tracks/contains") (req_url r) then
    mkResponse 200 "OK" "" (Some (JSaved [true; false]))
  else if String.prefix (SPOTIFY_API_BASE +:+ "/search") (req_url r) then
    mkResponse 200 "OK" "" (Some (JSearch (mkSearchResults (Some []) None None None)))
  else mkResponse 204 "No Content" "" None.

Definition demo_env (token_ok : bool) : Env :=
  mkEnv "client-id" "client-secret" "http://localhost:8000/auth/callback"
        (fun n => 1000000 + Z.of_nat n)
        (fun n => "00112233445566778899aabbccddeeff")
        (scripted_upstream token_ok).

(** Session "live" is valid until well after the demo clock, session "late"
    expired before it; one pending authorization dates from time 0, one
    from just before the demo clock. *)
Definition demo_world : World :=
  mkWorld
    (<["live" := mkSession "live-token" "live-refresh" 5000000]>
       (<["late" := mkSession "late-token" "late-refresh" 500]> ∅))
    (<["old-state" := mkPendingAuth "elsewhere" 0]>
       (<["new-state" := mkPendingAuth "visitor" 999000]> ∅))
    0 0 [].

(** ** What a run may do to the world *)

(** No session is removed. *)
Definition sessions_kept (w w' : World) : Prop :=
  forall k, is_Some (authSessions w !! k) -> is_Some (authSessions w' !! k).

(** A request to the token endpoint: POST, with the client credentials. *)
Definition is_token_request (env : Env) (r : Request) : bool :=
  String.eqb (req_url r) (TOKEN_ENDPOINT)
  && match req_method r with POST => true | _ => false end
  && match req_authorization r with
     | Basic i s => String.eqb i (SPOTIFY_CLIENT_ID env)
                    && String.eqb s (SPOTIFY_CLIENT_SECRET env)
     | Bearer _ => false
     end.

(** A request to the Web API: a path under the API base, with a bearer
    token. *)
Definition is_api_request (r : Request) : bool :=
  String.prefix (SPOTIFY_API_BASE +:+ "/") (req_url r)
  && match req_authorization r with Bearer _ => true | Basic _ _ => false end.

Definition is_api_get (r : Request) : bool :=
  is_api_request r && match req_method r with GET => true | _ => false end.

(** The requests the program is meant to send: to the token endpoint with
    the client credentials, or to the API with a bearer token. *)
Definition known_request (env : Env) (r : Request) : bool :=
  is_token_request env r || is_api_request r.

(** The same, the API requests being GETs. *)
Definition reading_request (env : Env) (r : Request) : bool :=
  is_token_request env r || is_api_get r.

(** The run from [w] to [w'] only appended requests that pass [P]. *)
Definition sends_only (P : Request -> bool) (w w' : World) : Prop :=
  exists rest, fetched w' = fetched w ++ rest /\ forallb P rest = true.

(** Sessions are kept and every request sent passes [P]. *)
Definition orderly (P : Request -> bool) (w w' : World) : Prop :=
  sessions_kept w w' /\ sends_only P w w'.

(** Nothing but the session of [sid] changed in the two stores. *)
Definition isolated (sid : string) (w w' : World) : Prop :=
  pendingAuthStates w' = pendingAuthStates w /\
  forall k, k <> sid -> authSessions w' !! k = authSessions w !! k.

(** What [spotifyApiRequest] makes of the upstream's reply. *)
Definition api_outcome (response : Response) : Outcome (option Json) :=
  if negb (response_ok response)
  then Throw (Error_ ("Spotify API error: " +:+ num_to_string (status response)
                      +:+ " " +:+ body_text response))
  else if (status response =? 204)%Z then Return None
  else match body_json response with
       | Some j => Return (Some j)
       | None => Throw SyntaxError
       end.

Definition not_authenticated : Error :=
  Error_ "Not authenticated. Please authenticate with Spotify first.".

(** The characters a form-encoded value is made of. *)
Definition url_safe (c : ascii) : bool := is_alnum c || mem_ascii c "*-._+%".

(** ** The declared tools

    The [tools] array, with the name and the hints of each entry. *)
Record ToolDecl := mkToolDecl {
  tool_name : string;
  widgetAccessible : bool;
  destructiveHint : bool;
  openWorldHint : bool;
  readOnlyHint : bool
}.

Definition tools : list ToolDecl :=
  [ mkToolDecl "add_to_library" true false false false;
    mkToolDecl "remove_from_library" true true false false;
    mkToolDecl "fetch_tracks" true false false true;
    mkToolDecl "search" true false false true ].

(** ** The worker's [fetch] entry point *)

Record RpcParams := mkRpcParams {
  p_name : option string;
  p_arguments : ToolArgs;
  p_uri : option string
}.

Record RpcBody := mkRpcBody {
  rpc_method : option string;
  rpc_userId : option string;
  rpc_params : option RpcParams
}.

(** What [request.json()] gives: a rejection, [null], or a document whose
    members are read ([undefined] where absent). *)
Inductive RequestJson :=
| BadJson
| JsonNull
| JsonObject (b : RpcBody).

(** [UI_COMPONENTS[key]] on the object literal: its own entry, a member
    inherited from [Object.prototype], or nothing. *)
Inductive Member :=
| OwnEntry (html : string)
| InheritedFunction
| InheritedObject
| NoMember.

Definition object_prototype_functions : list string :=
  [ "constructor"; "hasOwnProperty"; "isPrototypeOf"; "propertyIsEnumerable";
    "toLocaleString"; "toString"; "valueOf"; "__defineGetter__";
    "__defineSetter__"; "__lookupGetter__"; "__lookupSetter__" ].

Definition UI_COMPONENTS (html : string) (key : string) : Member :=
  if String.eqb key "spotify-search.html" then OwnEntry html
  else if existsb (String.eqb key) object_prototype_functions then InheritedFunction
  else if String.eqb key "__proto__" then InheritedObject
  else NoMember.

(** [s.replace(pat, "")]: the first occurrence of [pat] is removed. *)
Fixpoint remove_first (pat s : string) : string :=
  if String.prefix pat s
  then String.substring (String.length pat) (String.length s - String.length pat) s
  else match s with
       | EmptyString => EmptyString
       | String c r => String c (remove_first pat r)
       end.

(** The [text] member of a resource as [JSON.stringify] prints it. *)
Inductive ResourceText :=
| TextHtml (html : string)
| TextOmitted
| TextEmptyObject.

Inductive WorkerPayload :=
| NoContent
| ToolsList (ts : list ToolDecl)
| ResourcesList (uris : list string)
| ResourceContents (uri : string) (text : ResourceText)
| ToolOutcome (r : ToolResult)
| ErrorObject (message : string)
| ThrownError (e : Error)
| NotFoundText.

Record WorkerReply := mkWorkerReply {
  worker_status : Z;
  worker_payload : WorkerPayload
}.

Definition WIDGET_TEMPLATE_URI : string := "ui://widget/spotify-search.html".

Section Worker.

Context (env : Env).

(** [html] is the markup stored in [UI_COMPONENTS]. *)
Context (html : string).

Definition resources_read (uri : option string) : Async WorkerReply :=
  let htmlFile :=
    match uri with
    | Some u => remove_first "ui://widget/" u
    | None => "undefined"
    end in
  match UI_COMPONENTS html htmlFile, uri with
  | OwnEntry h, Some u =>
      if String.eqb h "" then ret (mkWorkerReply 404 (ErrorObject "Resource not found"))
      else ret (mkWorkerReply 200 (ResourceContents u (TextHtml h)))
  | InheritedFunction, Some u => ret (mkWorkerReply 200 (ResourceContents u TextOmitted))
  | InheritedObject, Some u => ret (mkWorkerReply 200 (ResourceContents u TextEmptyObject))
  | _, _ => ret (mkWorkerReply 404 (ErrorObject "Resource not found"))
  end.

(** The body of the [try] block for a POST to [/mcp]. *)
Definition rpc (body : RequestJson) : Async WorkerReply :=
  match body with
  | BadJson => throw SyntaxError
  | JsonNull => throw TypeError
  | JsonObject b =>
      let userId := or_str (rpc_userId b) "default" in
      let method := default "undefined" (rpc_method b) in
      if String.eqb method "tools/list"
      then ret (mkWorkerReply 200 (ToolsList tools))
      else if String.eqb method "resources/list"
      then ret (mkWorkerReply 200 (ResourcesList [WIDGET_TEMPLATE_URI]))
      else if String.eqb method "resources/read"
      then resources_read (rpc_params b ≫= p_uri)
      else if String.eqb method "tools/call"
      then
        let toolName := default "undefined" (rpc_params b ≫= p_name) in
        let args := default NoArgs (p_arguments <$> rpc_params b) in
        response <- handleToolCall env userId toolName args ;;
        ret (mkWorkerReply 200 (ToolOutcome response))
      else ret (mkWorkerReply 400 (ErrorObject "Unknown method"))
  end.

(** [fetch(request, env)] of the worker's default export. *)
Definition worker_fetch (http_method pathname : string) (body : RequestJson)
    : Async WorkerReply :=
  if String.eqb http_method "OPTIONS" then ret (mkWorkerReply 204 NoContent)
  else if (String.eqb pathname "/mcp" && String.eqb http_method "POST")%bool
  then try_catch (rpc body)
         (fun error => ret (mkWorkerReply 500 (ThrownError error)))
  else ret (mkWorkerReply 404 NotFoundText).

End Worker.

(** ** [readWidgetHtml] over a directory listing *)

(** The assets directory: whether it exists, its path, the files in it
    (name and contents) and the files of its [src/components]
    subdirectory. *)
Record Assets := mkAssets {
  assets_exist : bool;
  ASSETS_DIR : string;
  assets_files : list (string * string);
  assets_nested : list (string * string)
}.

Definition read_file (name : string) (files : list (string * string)) : option string :=
  snd <$> List.find (fun f => String.eqb (fst f) name) files.

(** [String.prototype.endsWith]. *)
Definition endsWith (s suffix : string) : bool :=
  (String.length suffix <=? String.length s)%nat
  && String.eqb (String.substring (String.length s - String.length suffix)
                                  (String.length suffix) s) suffix.

(** The UTF-16 code units of a string, decoded from its bytes: one unit
    for a character of one, two or three bytes, a pair of surrogates for a
    character of four bytes.  File names, as [readdirSync] returns them,
    are well-formed; a byte that starts no character stands for itself. *)
Definition continuation (c : ascii) : N := N.land (N_of_ascii c) 63.

Fixpoint code_units (s : string) : list N :=
  match s with
  | EmptyString => []
  | String c r =>
      let b := N_of_ascii c in
      if (b <? 192)%N then b :: code_units r
      else
        match r with
        | String c2 r2 =>
            if (b <? 224)%N
            then (N.shiftl (N.land b 31) 6 + continuation c2)%N :: code_units r2
            else
              match r2 with
              | String c3 r3 =>
                  if (b <? 240)%N
                  then (N.shiftl (N.land b 15) 12 + N.shiftl (continuation c2) 6
                        + continuation c3)%N :: code_units r3
                  else
                    match r3 with
                    | String c4 r4 =>
                        let v := (N.shiftl (N.land b 7) 18
                                  + N.shiftl (continuation c2) 12
                                  + N.shiftl (continuation c3) 6
                                  + continuation c4 - 65536)%N in
                        (55296 + N.shiftr v 10)%N :: (56320 + N.land v 1023)%N
                        :: code_units r4
                    | EmptyString => b :: code_units r
                    end
              | EmptyString => b :: code_units r
              end
        | EmptyString => b :: code_units r
        end
  end.

(** The order of [Array.prototype.sort()] without a comparator: the
    strings are compared unit by unit, a proper prefix first. *)
Fixpoint units_leb (a b : list N) : bool :=
  match a, b with
  | [], _ => true
  | _ :: _, [] => false
  | x :: a', y :: b' =>
      if (x <? y)%N then true
      else if (y <? x)%N then false
      else units_leb a' b'
  end.

Definition code_unit_leb (a b : string) : bool :=
  units_leb (code_units a) (code_units b).

(** [Array.prototype.sort()] on strings. *)
Fixpoint sort_insert (x : string) (l : list string) : list string :=
  match l with
  | [] => [x]
  | y :: r => if code_unit_leb x y then x :: l else y :: sort_insert x r
  end.

Fixpoint js_sort (l : list string) : list string :=
  match l with
  | [] => []
  | x :: r => sort_insert x (js_sort r)
  end.

Definition widget_candidates (componentName : string) (names : list string) : list string :=
  js_sort (List.filter
             (fun file => String.prefix (componentName +:+ "-") file
                          && endsWith file ".html")
             names).

Definition widget_not_found (fs : Assets) (componentName : string) : Error :=
  Error_ ("Widget HTML for " +:+ dquote +:+ componentName +:+ dquote
          +:+ " not found in " +:+ ASSETS_DIR fs +:+ ". Run " +:+ dquote
          +:+ "npm run build" +:+ dquote +:+ " to generate the assets.").

Definition assets_not_found (fs : Assets) : Error :=
  Error_ ("Widget assets not found. Expected directory " +:+ ASSETS_DIR fs
          +:+ ". Run " +:+ dquote +:+ "npm run build" +:+ dquote
          +:+ " before starting the server.").

Definition readWidgetHtml (fs : Assets) (componentName : string) : Outcome string :=
  if negb (assets_exist fs) then Throw (assets_not_found fs)
  else
    let htmlContents :=
      match read_file (componentName +:+ ".html") (assets_files fs) with
      | Some contents => Some contents
      | None =>
          match last (widget_candidates componentName (map fst (assets_files fs))) with
          | Some fallback => read_file fallback (assets_files fs)
          | None => read_file (componentName +:+ ".html") (assets_nested fs)
          end
      end in
    match htmlContents with
    | Some contents =>
        if String.eqb contents "" then Throw (widget_not_found fs componentName)
        else Return contents
    | None => Throw (widget_not_found fs componentName)
    end.

(** ** The script of the search widget *)

Record WidgetProps := mkWidgetProps {
  props_query : option string;
  props_results : option SearchView
}.

Record TrackRow := mkTrackRow {
  row_image : string;
  row_name : string;
  row_explicit_badge : bool;
  row_artists : string;
  row_duration : string
}.

(** A card of the artists, albums or playlists grid: image, name and the
    meta line. *)
Inductive CardMeta :=
| Followers (n : Z)
| ArtistsAndYear (artists year : string)
| ByOwner (owner : string).

Record Card := mkCard {
  card_image : string;
  card_name : string;
  card_meta : CardMeta
}.

Inductive Block :=
| HeaderBlock (query : string) (totalResults : nat)
| SongsSection (rows : list TrackRow)
| ArtistsSection (cards : list Card)
| AlbumsSection (cards : list Card)
| PlaylistsSection (cards : list Card)
| EmptyState.

(** [String(n).padStart(2, '0')]. *)
Definition padStart2 (s : string) : string :=
  match String.length s with
  | 0%nat => "00"
  | 1%nat => "0" +:+ s
  | _ => s
  end.

(** [Math.floor(ms / 60000)] [:] [Math.floor((ms % 60000) / 1000)], the
    seconds padded to two characters. *)
Definition format_duration (duration_ms : Z) : string :=
  num_to_string (duration_ms / 60000) +:+ ":"
  +:+ padStart2 (num_to_string (Z.rem duration_ms 60000 / 1000)).

(** [s.split('-')[0]]. *)
Fixpoint before_dash (s : string) : string :=
  match s with
  | EmptyString => EmptyString
  | String c r => if Ascii.eqb c "-"%char then EmptyString else String c (before_dash r)
  end.

Definition track_row (t : TrackHit) : TrackRow :=
  mkTrackRow (or_str (th_image t) "https://via.placeholder.com/40") (th_name t)
             (th_explicit t) (th_artists t) (format_duration (th_duration_ms t)).

Definition artist_card (a : ArtistHit) : Card :=
  mkCard (or_str (arh_image a) "https://via.placeholder.com/180") (arh_name a)
         (Followers (arh_followers a)).

Definition album_card (a : AlbumHit) : Card :=
  mkCard (or_str (ah_image a) "https://via.placeholder.com/180") (ah_name a)
         (ArtistsAndYear (ah_artists a) (before_dash (ah_release_date a))).

Definition playlist_card (p : PlaylistHit) : Card :=
  mkCard (or_str (ph_image p) "https://via.placeholder.com/180") (ph_name p)
         (ByOwner (ph_owner p)).

(** A section is appended when the facet is there and not empty. *)
Definition section {A} (facet : option (list A)) (build : list A -> Block) : list Block :=
  match facet with
  | Some (x :: r) => [build (x :: r)]
  | _ => []
  end.

Definition render (props : option WidgetProps) : list Block :=
  let query := default "" (props ≫= props_query) in
  let results := default (mkSearchView None None None None) (props ≫= props_results) in
  let totalResults := result_count results in
  [HeaderBlock query totalResults]
  ++ section (sv_tracks results) (fun ts => SongsSection (map track_row (take 10 ts)))
  ++ section (sv_artists results) (fun l => ArtistsSection (map artist_card l))
  ++ section (sv_albums results) (fun l => AlbumsSection (map album_card l))
  ++ section (sv_playlists results) (fun l => PlaylistsSection (map playlist_card l))
  ++ (if (totalResults =? 0)%nat then [EmptyState] else []).

(** ** Further fixtures *)

(** The scripted upstream with another playlist page. *)
Definition page_upstream (items : list (option Track)) (total : Z) (n : nat)
    (r : Request) : Response :=
  if String.prefix (SPOTIFY_API_BASE +:+ "/playlists/") (req_url r)
  then mkResponse 200 "OK" "" (Some (JPage items total))
  else scripted_upstream true n r.

Definition page_env (items : list (option Track)) (total : Z) : Env :=
  mkEnv "client-id" "client-secret" "http://localhost:8000/auth/callback"
        (fun n => 1000000 + Z.of_nat n)
        (fun n => "00112233445566778899aabbccddeeff")
        (page_upstream items total).

(** Characters outside ASCII, in their UTF-8 bytes: U+212A KELVIN SIGN,
    U+E000 (private use), U+1F600, and the surrogate D800 on its own. *)
Definition bytes (l : list nat) : string :=
  string_of_list_ascii (map ascii_of_nat l).

Definition kelvin_sign : string := bytes [226; 132; 170]%nat.

Definition private_use_E000 : string := bytes [238; 128; 128]%nat.

Definition emoji_1F600 : string := bytes [240; 159; 152; 128]%nat.

Definition lone_D800 : string := bytes [237; 160; 128]%nat.

(** ** Properties *)

Example toLowerCase_ex : toLowerCase "Find Me an AudioBook" = "find me an audiobook".
Proof. reflexivity. Qed.

Example toLowerCase_kelvin : toLowerCase ("AUDIOBOO" +:+ kelvin_sign) = "audiobook".
Proof. reflexivity. Qed.

Example toLowerCase_dotted_I :
  toLowerCase ("AUD" +:+ bytes [196; 176]%nat +:+ "OBOOK")
  = "audi" +:+ bytes [204; 135]%nat +:+ "obook".
Proof. reflexivity. Qed.

Example includes_ex : includes "find me an audiobook" "audiobook" = true.
Proof. reflexivity. Qed.

Example num_to_string_ex : num_to_string 600000 = "600000" /\ num_to_string (-5) = "-5".
Proof. split; vm_compute; reflexivity. Qed.

Example encodeURIComponent_ex : encodeURIComponent "a b&c" = Some "a%20b%26c".
Proof. reflexivity. Qed.

Example encodeURIComponent_utf8 :
  encodeURIComponent kelvin_sign = Some "%E2%84%AA" /\
  encodeURIComponent emoji_1F600 = Some "%F0%9F%98%80".
Proof. split; reflexivity. Qed.

Example encodeURIComponent_lone_surrogate :
  encodeURIComponent ("a" +:+ lone_D800) = None.
Proof. reflexivity. Qed.

Example code_units_ex :
  code_units ("k" +:+ kelvin_sign) = [107; 8490]%N /\
  code_units private_use_E000 = [57344]%N /\
  code_units emoji_1F600 = [55357; 56832]%N /\
  code_units lone_D800 = [55296]%N.
Proof. repeat split; vm_compute; reflexivity. Qed.

Example code_unit_order_ex :
  code_unit_leb emoji_1F600 private_use_E000 = true /\
  code_unit_leb private_use_E000 emoji_1F600 = false /\
  code_unit_leb "search-9.html" "search-a.html" = true /\
  code_unit_leb "search-" "search-a" = true.
Proof. repeat split; vm_compute; reflexivity. Qed.

Example url_query_ex :
  url_query "https://h/p/tracks?limit=0#/tracks?offset=0&limit=100" = "limit=0".
Proof. reflexivity. Qed.

Example form_encode_ex : form_encode "http://h/cb x" = "http%3A%2F%2Fh%2Fcb+x".
Proof. reflexivity. Qed.

(** *** Strings *)





Lemma prefix_append (s t : string) : String.prefix s (s +:+ t) = true.
Proof.
  induction s as [|c s IH]; simpl; [now destruct t|].
  destruct (ascii_dec c c); [exact IH | congruence].
Qed.


Lemma append_assoc (a b c : string) : (a +:+ b) +:+ c = a +:+ (b +:+ c).
Proof.
  induction a as [|x a IH]; [reflexivity|].
  change (String x ((a +:+ b) +:+ c) = String x (a +:+ (b +:+ c))). now rewrite IH.
Qed.


Lemma list_ascii_of_string_append (a b : string) :
  list_ascii_of_string (a +:+ b) = list_ascii_of_string a ++ list_ascii_of_string b.
Proof. induction a as [|c a IH]; simpl; [reflexivity | now rewrite IH]. Qed.

Lemma mem_ascii_append (c : ascii) (a b : string) :
  mem_ascii c (a +:+ b) = (mem_ascii c a || mem_ascii c b)%bool.
Proof. unfold mem_ascii. now rewrite list_ascii_of_string_append, existsb_app. Qed.

Lemma mem_ascii_excluded (P : ascii -> bool) (c : ascii) (s : string) :
  forallb P (list_ascii_of_string s) = true -> P c = false -> mem_ascii c s = false.
Proof.
  unfold mem_ascii. induction s as [|d s IH]; [reflexivity|].
  cbn [list_ascii_of_string forallb existsb]. intros H Hc.
  apply andb_true_iff in H as [Hd Hs]. rewrite (IH Hs Hc), orb_false_r.
  destruct (Ascii.eqb_spec c d) as [->|]; [congruence | reflexivity].
Qed.

Lemma cut_at_absent (c : ascii) (s : string) :
  mem_ascii c s = false -> cut_at c s = s.
Proof.
  unfold mem_ascii. induction s as [|d s IH]; [reflexivity|].
  cbn [list_ascii_of_string existsb cut_at]. intros H.
  apply orb_false_iff in H as [Hd Hs]. now rewrite Hd, (IH Hs).
Qed.

Lemma after_first_append (c : ascii) (a b : string) :
  mem_ascii c a = false -> after_first c (a +:+ String c b) = b.
Proof.
  unfold mem_ascii. induction a as [|d a IH].
  - intros _. change ("" +:+ String c b) with (String c b).
    cbn [after_first]. now rewrite Ascii.eqb_refl.
  - cbn [list_ascii_of_string existsb]. intros H.
    apply orb_false_iff in H as [Hd Ha].
    change (String d a +:+ String c b) with (String d (a +:+ String c b)).
    cbn [after_first]. now rewrite Hd, (IH Ha).
Qed.

(** The query of [path?query] when the path has no [?] and neither part
    has a [#]. *)
Lemma url_query_split (path query : string) :
  mem_ascii "?" path = false -> mem_ascii "#" path = false ->
  mem_ascii "#" query = false ->
  url_query (path +:+ "?" +:+ query) = query.
Proof.
  intros Hq Hp Hf. unfold url_query, request_target.
  rewrite cut_at_absent.
  - change ("?" +:+ query) with (String "?" query). now apply after_first_append.
  - rewrite mem_ascii_append, Hp. change ("?" +:+ query) with (String "?" query).
    unfold mem_ascii in *. cbn [list_ascii_of_string existsb]. now rewrite Hf.
Qed.

Lemma plain_segment_spec (s : string) :
  plain_segment s = true -> mem_ascii "?" s = false /\ mem_ascii "#" s = false.
Proof.
  unfold plain_segment. intros H. apply andb_true_iff in H as [H1 H2].
  now apply negb_true_iff in H1, H2.
Qed.

Lemma plain_value_spec (s : string) :
  plain_value s = true -> mem_ascii "&" s = false /\ mem_ascii "#" s = false.
Proof.
  unfold plain_value. intros H. apply andb_true_iff in H as [H1 H2].
  now apply negb_true_iff in H1, H2.
Qed.

Lemma value_char_percent_byte (c : ascii) :
  forallb value_char (list_ascii_of_string (percent_byte c)) = true.
Proof. destruct c as [[] [] [] [] [] [] [] []]; vm_compute; reflexivity. Qed.

Lemma value_char_unreserved (c : ascii) :
  (is_alnum c || mem_ascii c "-_.!~*'()")%bool = true -> value_char c = true.
Proof.
  destruct c as [[] [] [] [] [] [] [] []]; vm_compute; intros H;
    first [reflexivity | discriminate].
Qed.

Lemma encodeURIComponent_value (s : string) :
  forall e, encodeURIComponent s = Some e ->
            forallb value_char (list_ascii_of_string e) = true.
Proof.
  induction s as [|c s IH]; intros e He.
  - inversion He. reflexivity.
  - cbn [encodeURIComponent] in He.
    destruct (lone_surrogate c s); [discriminate|].
    destruct (encodeURIComponent s) as [r|]; [|discriminate].
    inversion He; subst e.
    rewrite list_ascii_of_string_append, forallb_app, (IH r eq_refl), andb_true_r.
    destruct (is_alnum c || mem_ascii c "-_.!~*'()")%bool eqn:Hkeep.
    + cbn. now rewrite (value_char_unreserved c Hkeep).
    + apply value_char_percent_byte.
Qed.

Lemma pretty_N_char_value (x : N) : value_char (pretty_N_char x) = true.
Proof.
  unfold pretty_N_char.
  repeat match goal with
         | |- context [match ?p with _ => _ end] => destruct p
         end; reflexivity.
Qed.

Lemma pretty_N_go_value (x : N) :
  forall s, forallb value_char (list_ascii_of_string s) = true ->
            forallb value_char (list_ascii_of_string (pretty_N_go x s)) = true.
Proof.
  induction (N.lt_wf_0 x) as [x _ IH]. intros s Hs.
  destruct (decide (x = 0%N)) as [->|Hx].
  - now rewrite pretty_N_go_0.
  - rewrite pretty_N_go_step by lia. apply IH.
    + apply N.div_lt; lia.
    + cbn [list_ascii_of_string forallb]. now rewrite pretty_N_char_value.
Qed.

Lemma num_to_string_value (z : Z) :
  forallb value_char (list_ascii_of_string (num_to_string z)) = true.
Proof.
  assert (HN : forall n : N, forallb value_char (list_ascii_of_string (pretty n)) = true).
  { intros n. unfold pretty, pretty_N. destruct (decide (n = 0%N)); [reflexivity|].
    now apply pretty_N_go_value. }
  destruct z as [|q|q].
  - reflexivity.
  - exact (HN (Npos q)).
  - change (num_to_string (Zneg q)) with ("-" +:+ pretty (Npos q)).
    rewrite list_ascii_of_string_append, forallb_app, (HN (Npos q)). reflexivity.
Qed.

Lemma type_names_value (ts : list ItemType) :
  forallb value_char (list_ascii_of_string (join "," (map item_type_name ts))) = true.
Proof.
  unfold join. induction ts as [|t ts IH]; [reflexivity|].
  destruct ts as [|u ts]; [now destruct t|].
  change (String.concat "," (map item_type_name (t :: u :: ts)))
    with (item_type_name t +:+ "," +:+ String.concat "," (map item_type_name (u :: ts))).
  rewrite !list_ascii_of_string_append, !forallb_app, IH.
  now destruct t.
Qed.

(** *** The token refresher *)

Section Refresher.

Context (env : Env).

Lemma getValidAccessToken_fresh w sid s :
  authSessions w !! sid = Some s ->
  clock env (clock_reads w) < expiresAt s ->
  getValidAccessToken env sid w = (Return (accessToken s), after_check w).
Proof.
  intros Hs Hlt. unfold getValidAccessToken, bind, get_session. rewrite Hs. simpl.
  destruct (Z.geb_spec (clock env (clock_reads w)) (expiresAt s)) as [Hge|_]; [lia|].
  reflexivity.
Qed.

Lemma getValidAccessToken_refreshed w sid s access rt expires_in :
  authSessions w !! sid = Some s ->
  expiresAt s <= clock env (clock_reads w) ->
  response_ok (refresh_reply env w s) = true ->
  body_json (refresh_reply env w s) = Some (JToken access rt expires_in) ->
  getValidAccessToken env sid w = (Return access, after_refresh env w sid s access expires_in).
Proof.
  intros Hs Hle Hok Hj. unfold getValidAccessToken, bind, get_session. rewrite Hs. simpl.
  destruct (Z.geb_spec (clock env (clock_reads w)) (expiresAt s)) as [_|Hlt]; [|lia].
  unfold refreshAccessToken, bind, fetch. simpl. fold (refresh_reply env w s).
  rewrite Hok. simpl. unfold response_json. rewrite Hj. reflexivity.
Qed.

Lemma getValidAccessToken_refused w sid s :
  authSessions w !! sid = Some s ->
  expiresAt s <= clock env (clock_reads w) ->
  response_ok (refresh_reply env w s) = false ->
  getValidAccessToken env sid w =
    (Throw (Error_ ("Failed to refresh token: " +:+ statusText (refresh_reply env w s))),
     after_failed_refresh env w s).
Proof.
  intros Hs Hle Hok. unfold getValidAccessToken, bind, get_session. rewrite Hs. simpl.
  destruct (Z.geb_spec (clock env (clock_reads w)) (expiresAt s)) as [_|Hlt]; [|lia].
  unfold refreshAccessToken, bind, fetch. simpl. fold (refresh_reply env w s).
  rewrite Hok. reflexivity.
Qed.

(** An expired check always sends the refresh request, and nothing else. *)
Lemma getValidAccessToken_expired_log w sid s :
  authSessions w !! sid = Some s ->
  expiresAt s <= clock env (clock_reads w) ->
  fetched (snd (getValidAccessToken env sid w)) =
    fetched w ++ [refresh_request env (refreshToken s)].
Proof.
  intros Hs Hle. unfold getValidAccessToken, bind, get_session. rewrite Hs. simpl.
  destruct (Z.geb_spec (clock env (clock_reads w)) (expiresAt s)) as [_|Hlt]; [|lia].
  unfold refreshAccessToken, bind, fetch. simpl.
  destruct (response_ok _); simpl; [|reflexivity].
  unfold response_json. destruct (body_json _) as [[]|]; reflexivity.
Qed.

End Refresher.

(** C1. For a session [s] stored under [sid]: when the clock reading is
    strictly before [expiresAt s], [getValidAccessToken] returns the stored
    access token and leaves the stores and the request log as they were (no
    refresh); when the reading is at or past [expiresAt s] it sends exactly
    one request, the refresh, and a granted refresh carrying [access] and
    [expires_in] overwrites the stored access token and sets the expiry to
    the next clock reading plus [expires_in] seconds (in milliseconds),
    while a refused refresh is thrown with the stores untouched. *)
Theorem getValidAccessToken_refreshes_lazily
    (env : Env) (w : World) (sid : string) (s : Session) :
  authSessions w !! sid = Some s ->
  let now := clock env (clock_reads w) in
  (now < expiresAt s ->
     getValidAccessToken env sid w = (Return (accessToken s), after_check w) /\
     fetched (after_check w) = fetched w /\
     authSessions (after_check w) = authSessions w) /\
  (expiresAt s <= now ->
     fetched (snd (getValidAccessToken env sid w)) =
       fetched w ++ [refresh_request env (refreshToken s)] /\
     (forall access rt expires_in,
         response_ok (refresh_reply env w s) = true ->
         body_json (refresh_reply env w s) = Some (JToken access rt expires_in) ->
         getValidAccessToken env sid w =
           (Return access, after_refresh env w sid s access expires_in) /\
         authSessions (after_refresh env w sid s access expires_in) !! sid =
           Some (mkSession access (refreshToken s)
                   (clock env (S (clock_reads w)) + expires_in * 1000))) /\
     (response_ok (refresh_reply env w s) = false ->
         getValidAccessToken env sid w =
           (Throw (Error_ ("Failed to refresh token: "
                           +:+ statusText (refresh_reply env w s))),
            after_failed_refresh env w s))).
Proof.
  intros Hs now. split.
  - intros Hlt. split; [|split; reflexivity].
    now apply getValidAccessToken_fresh.
  - intros Hle. split; [|split].
    + now apply getValidAccessToken_expired_log.
    + intros access rt expires_in Hok Hj. split.
      * now apply getValidAccessToken_refreshed with (rt := rt).
      * simpl. apply lookup_insert_eq.
    + intros Hno. now apply getValidAccessToken_refused.
Qed.

Lemma getValidAccessToken_refreshes_lazily_witness :
  getValidAccessToken (demo_env true) "live" demo_world
    = (Return "live-token", after_check demo_world) /\
  getValidAccessToken (demo_env true) "late" demo_world
    = (Return "fresh-token",
       after_refresh (demo_env true) demo_world "late"
         (mkSession "late-token" "late-refresh" 500) "fresh-token" 3600) /\
  getValidAccessToken (demo_env false) "late" demo_world
    = (Throw (Error_ "Failed to refresh token: Bad Request"),
       after_failed_refresh (demo_env false) demo_world
         (mkSession "late-token" "late-refresh" 500)).
Proof.
  split; [|split].
  - refine (proj1 (proj1 (getValidAccessToken_refreshes_lazily (demo_env true)
      demo_world "live" (mkSession "live-token" "live-refresh" 5000000) _) _)).
    + vm_compute; reflexivity.
    + vm_compute; reflexivity.
  - refine (proj1 (proj1 (proj2 (proj2 (getValidAccessToken_refreshes_lazily
      (demo_env true) demo_world "late" (mkSession "late-token" "late-refresh" 500) _)
      _)) "fresh-token" "refresh-2" 3600 _ _)).
    + vm_compute; reflexivity.
    + vm_compute; discriminate.
    + vm_compute; reflexivity.
    + vm_compute; reflexivity.
  - refine (proj2 (proj2 (proj2 (getValidAccessToken_refreshes_lazily
      (demo_env false) demo_world "late" (mkSession "late-token" "late-refresh" 500) _)
      _)) _).
    + vm_compute; reflexivity.
    + vm_compute; discriminate.
    + vm_compute; reflexivity.
Defined.



(** *** The tool switch *)

Section Dispatcher.

Context (env : Env).

Lemma handleToolCall_add u a :
  handleToolCall env u "add_to_library" a = add_to_library env u a.
Proof. reflexivity. Qed.

Lemma handleToolCall_remove u a :
  handleToolCall env u "remove_from_library" a = remove_from_library env u a.
Proof. reflexivity. Qed.

Lemma handleToolCall_fetch_tracks u a :
  handleToolCall env u "fetch_tracks" a = fetch_tracks env u a.
Proof. reflexivity. Qed.

Lemma handleToolCall_search u a :
  handleToolCall env u "search" a = search env u a.
Proof. reflexivity. Qed.

(** Past the gate, server.ts runs the switch. *)
Lemma callToolHandler_authenticated w sid toolName args :
  is_Some (authSessions w !! sid) ->
  callToolHandler env sid toolName args w = handleToolCall env sid toolName args w.
Proof.
  intros [s Hs]. unfold callToolHandler, bind, get_session. rewrite Hs. reflexivity.
Qed.

Lemma getValidAccessToken_needs_session w sid tok w1 :
  getValidAccessToken env sid w = (Return tok, w1) -> is_Some (authSessions w !! sid).
Proof.
  unfold getValidAccessToken, bind, get_session.
  destruct (authSessions w !! sid) as [s|]; [eauto | discriminate].
Qed.

(** Obtaining the token sends nothing, or the one refresh request. *)
Lemma getValidAccessToken_log w sid :
  fetched (snd (getValidAccessToken env sid w)) = fetched w \/
  exists s, authSessions w !! sid = Some s /\
            fetched (snd (getValidAccessToken env sid w)) =
              fetched w ++ [refresh_request env (refreshToken s)].
Proof.
  destruct (authSessions w !! sid) as [s|] eqn:Hs.
  - destruct (Z.lt_ge_cases (clock env (clock_reads w)) (expiresAt s)) as [Hlt|Hge].
    + left. now rewrite (getValidAccessToken_fresh env w sid s Hs Hlt).
    + right. exists s. split; [reflexivity|].
      now apply getValidAccessToken_expired_log.
  - left. unfold getValidAccessToken, bind, get_session. now rewrite Hs.
Qed.

(** With a token in hand, [spotifyApiRequest] sends exactly one request. *)
Lemma spotifyApiRequest_run w sid endpoint method body tok w1 :
  getValidAccessToken env sid w = (Return tok, w1) ->
  exists o, spotifyApiRequest env sid endpoint method body w =
              (o, after_fetch w1 (api_request tok endpoint method body)).
Proof.
  intros Htok. unfold spotifyApiRequest, bind. rewrite Htok. unfold fetch.
  fold (after_fetch w1 (api_request tok endpoint method body)).
  destruct (negb (response_ok _)); [eexists; reflexivity|].
  destruct (status _ =? 204)%Z; [eexists; reflexivity|].
  unfold response_json. destruct (body_json _); eexists; reflexivity.
Qed.

(** Without one, it sends none. *)
Lemma spotifyApiRequest_no_token w sid endpoint method body e w1 :
  getValidAccessToken env sid w = (Throw e, w1) ->
  spotifyApiRequest env sid endpoint method body w = (Throw e, w1).
Proof. intros Htok. unfold spotifyApiRequest, bind. now rewrite Htok. Qed.

Lemma spotifyApiRequest_log w sid endpoint method body :
  exists rest, fetched (snd (spotifyApiRequest env sid endpoint method body w)) =
                 fetched w ++ rest.
Proof.
  destruct (getValidAccessToken env sid w) as [[tok|e] w1] eqn:Htok.
  - destruct (spotifyApiRequest_run w sid endpoint method body tok w1 Htok) as [o Ho].
    rewrite Ho. cbn [snd after_fetch fetched].
    destruct (getValidAccessToken_log w sid) as [H|(s & _ & H)];
      rewrite Htok in H; cbn [snd] in H; rewrite H.
    + eexists; reflexivity.
    + rewrite <- app_assoc. eexists; reflexivity.
  - rewrite (spotifyApiRequest_no_token w sid endpoint method body e w1 Htok).
    destruct (getValidAccessToken_log w sid) as [H|(s & _ & H)];
      rewrite Htok in H; cbn [snd] in H |- *; rewrite H.
    + exists []. now rewrite app_nil_r.
    + eexists; reflexivity.
Qed.

Lemma add_to_library_run w sid t itemId endpoint tok w1 :
  library_endpoint t = Return endpoint ->
  getValidAccessToken env sid w = (Return tok, w1) ->
  exists o, add_to_library env sid (LibraryArgs t itemId) w =
              (o, after_fetch w1 (api_request tok endpoint PUT (JsonIds [itemId]))).
Proof.
  intros Hep Htok. unfold add_to_library, bind, lift. cbn [addToLibraryParser fst snd].
  rewrite Hep.
  destruct (spotifyApiRequest_run w sid endpoint PUT (JsonIds [itemId]) tok w1 Htok)
    as [o Ho].
  rewrite Ho. destruct o; eexists; reflexivity.
Qed.

Lemma remove_from_library_run w sid t itemId endpoint tok w1 :
  library_endpoint t = Return endpoint ->
  getValidAccessToken env sid w = (Return tok, w1) ->
  exists o, remove_from_library env sid (LibraryArgs t itemId) w =
              (o, after_fetch w1 (api_request tok endpoint DELETE (JsonIds [itemId]))).
Proof.
  intros Hep Htok. unfold remove_from_library, bind, lift.
  cbn [removeFromLibraryParser fst snd]. rewrite Hep.
  destruct (spotifyApiRequest_run w sid endpoint DELETE (JsonIds [itemId]) tok w1 Htok)
    as [o Ho].
  rewrite Ho. destruct o; eexists; reflexivity.
Qed.

Lemma add_to_library_no_token w sid t itemId endpoint e w1 :
  library_endpoint t = Return endpoint ->
  getValidAccessToken env sid w = (Throw e, w1) ->
  add_to_library env sid (LibraryArgs t itemId) w = (Throw e, w1).
Proof.
  intros Hep Htok. unfold add_to_library, bind, lift. cbn [addToLibraryParser fst snd].
  rewrite Hep.
  now rewrite (spotifyApiRequest_no_token w sid endpoint PUT (JsonIds [itemId]) e w1 Htok).
Qed.

Lemma remove_from_library_no_token w sid t itemId endpoint e w1 :
  library_endpoint t = Return endpoint ->
  getValidAccessToken env sid w = (Throw e, w1) ->
  remove_from_library env sid (LibraryArgs t itemId) w = (Throw e, w1).
Proof.
  intros Hep Htok. unfold remove_from_library, bind, lift.
  cbn [removeFromLibraryParser fst snd]. rewrite Hep.
  now rewrite (spotifyApiRequest_no_token w sid endpoint DELETE (JsonIds [itemId]) e w1 Htok).
Qed.

End Dispatcher.

(** C3, as stated, fails: an audiobook query with [limit = 51] is rejected
    by [searchParser] before the audiobook test, on the server and on the
    worker alike, and on the server a caller without a session receives the
    authorization prompt; neither result is the refusal text. *)
Lemma audiobook_query_not_always_refused :
  fst (callToolHandler (demo_env true) "live" "search"
         (SearchArgs "find me an audiobook" None (Some 51) None) demo_world)
    = Throw ZodError /\
  fst (handleToolCall (demo_env true) "live" "search"
         (SearchArgs "find me an audiobook" None (Some 51) None) demo_world)
    = Throw ZodError /\
  fst (callToolHandler (demo_env true) "nobody" "search"
         (SearchArgs "find me an audiobook" None None None) demo_world)
    <> Return (text_result refusal_text).
Proof.
  split; [vm_compute; reflexivity|]. split; [vm_compute; reflexivity|].
  vm_compute. intros H. inversion H.
Qed.

(** C3, amended.  No search whose lowercased query contains "audiobook"
    sends anything upstream.  When its [limit] passes [searchParser] (at
    most 50, or absent) the worker's switch returns the fixed refusal text
    whatever [types], [limit] and [market] are, and so does the server's
    handler for a caller that has a session; the world is left untouched. *)
Theorem audiobook_query_refused
    (env : Env) (w : World) (sid query : string)
    (ts : option (list ItemType)) (l : option Z) (m : option string) :
  includes (toLowerCase query) "audiobook" = true ->
  fetched (snd (handleToolCall env sid "search" (SearchArgs query ts l m) w)) = fetched w /\
  fetched (snd (callToolHandler env sid "search" (SearchArgs query ts l m) w)) = fetched w /\
  (within 50 l = true ->
     handleToolCall env sid "search" (SearchArgs query ts l m) w
       = (Return (text_result refusal_text), w) /\
     (is_Some (authSessions w !! sid) ->
        callToolHandler env sid "search" (SearchArgs query ts l m) w
          = (Return (text_result refusal_text), w))).
Proof.
  intros Hq.
  assert (Hsw : forall b, within 50 l = b ->
            handleToolCall env sid "search" (SearchArgs query ts l m) w =
            (if b then Return (text_result refusal_text) else Throw ZodError, w)).
  { intros b Hb. rewrite handleToolCall_search. unfold search, bind, lift.
    cbn [searchParser]. rewrite Hb. destruct b; [|reflexivity]. now rewrite Hq. }
  split; [|split].
  - now rewrite (Hsw _ eq_refl).
  - destruct (authSessions w !! sid) as [s|] eqn:Hs.
    + rewrite callToolHandler_authenticated by (rewrite Hs; eauto).
      now rewrite (Hsw _ eq_refl).
    + unfold callToolHandler, bind, get_session. now rewrite Hs.
  - intros Hl. split; [exact (Hsw true Hl)|].
    intros Hs. rewrite callToolHandler_authenticated by exact Hs. exact (Hsw true Hl).
Qed.

Lemma audiobook_query_refused_witness :
  handleToolCall (demo_env true) "anyone" "search"
    (SearchArgs "Find me an AUDIOBOOK" (Some [show]) (Some 50) (Some "DE")) demo_world
    = (Return (text_result refusal_text), demo_world) /\
  callToolHandler (demo_env true) "live" "search"
    (SearchArgs "Find me an AUDIOBOOK" (Some [show]) (Some 50) (Some "DE")) demo_world
    = (Return (text_result refusal_text), demo_world).
Proof.
  split.
  - refine (proj1 (proj2 (proj2 (audiobook_query_refused (demo_env true) demo_world
      "anyone" "Find me an AUDIOBOOK" (Some [show]) (Some 50) (Some "DE") _)) _)).
    + vm_compute; reflexivity.
    + vm_compute; reflexivity.
  - refine (proj2 (proj2 (proj2 (audiobook_query_refused (demo_env true) demo_world
      "live" "Find me an AUDIOBOOK" (Some [show]) (Some 50) (Some "DE") _)) _) _).
    + vm_compute; reflexivity.
    + vm_compute; reflexivity.
    + vm_compute; eauto.
Defined.

(** C8, as stated, fails for a session whose token has expired: when the
    refresh is refused the only request is the POST to the token endpoint
    and no PUT is sent; when it is granted two requests go out, the refresh
    and then the PUT. *)
Lemma artist_follow_not_one_request :
  callToolHandler (demo_env false) "late" "add_to_library"
      (LibraryArgs artist "X") demo_world
    = (Throw (Error_ "Failed to refresh token: Bad Request"),
       after_fetch (after_check demo_world)
         (refresh_request (demo_env false) "late-refresh")) /\
  fetched (snd (callToolHandler (demo_env true) "late" "add_to_library"
                  (LibraryArgs artist "X") demo_world))
    = [ refresh_request (demo_env true) "late-refresh";
        api_request "fresh-token" "/me/following?type=artist" PUT (JsonIds ["X"]) ].
Proof. split; vm_compute; reflexivity. Qed.

(** C8, amended.  Once [getValidAccessToken] has produced a token [tok]
    (the stored one, or a refreshed one after the single refresh request),
    [add_to_library] with [itemType = artist] and [itemId] sends exactly one
    further request, a PUT to [/me/following?type=artist] with body
    [ids = [itemId]], and [remove_from_library] a DELETE to the same URL
    with the same body.  When [getValidAccessToken] throws for a caller that
    has a session, both tools throw the same error in the world the token
    attempt left, with no request of their own. *)
Theorem artist_follow_request
    (env : Env) (w : World) (sid itemId : string) :
  (forall tok w1,
     getValidAccessToken env sid w = (Return tok, w1) ->
     fetched (snd (callToolHandler env sid "add_to_library" (LibraryArgs artist itemId) w))
       = fetched w1 ++
         [mkRequest "https://api.spotify.com/v1/me/following?type=artist" PUT
                    (Bearer tok) "application/json" (JsonIds [itemId])] /\
     fetched (snd (callToolHandler env sid "remove_from_library"
                     (LibraryArgs artist itemId) w))
       = fetched w1 ++
         [mkRequest "https://api.spotify.com/v1/me/following?type=artist" DELETE
                    (Bearer tok) "application/json" (JsonIds [itemId])] /\
     (fetched w1 = fetched w \/
      exists s, authSessions w !! sid = Some s /\
                fetched w1 = fetched w ++ [refresh_request env (refreshToken s)])) /\
  (forall e w1,
     is_Some (authSessions w !! sid) ->
     getValidAccessToken env sid w = (Throw e, w1) ->
     callToolHandler env sid "add_to_library" (LibraryArgs artist itemId) w
       = (Throw e, w1) /\
     callToolHandler env sid "remove_from_library" (LibraryArgs artist itemId) w
       = (Throw e, w1) /\
     (fetched w1 = fetched w \/
      exists s, authSessions w !! sid = Some s /\
                fetched w1 = fetched w ++ [refresh_request env (refreshToken s)])).
Proof.
  split.
  - intros tok w1 Htok.
    pose proof (getValidAccessToken_needs_session env w sid tok w1 Htok) as Hs.
    split; [|split].
    + rewrite (callToolHandler_authenticated env w sid _ _ Hs), handleToolCall_add.
      destruct (add_to_library_run env w sid artist itemId _ tok w1 eq_refl Htok)
        as [o Ho].
      rewrite Ho. reflexivity.
    + rewrite (callToolHandler_authenticated env w sid _ _ Hs), handleToolCall_remove.
      destruct (remove_from_library_run env w sid artist itemId _ tok w1 eq_refl Htok)
        as [o Ho].
      rewrite Ho. reflexivity.
    + pose proof (getValidAccessToken_log env w sid) as Hlog.
      rewrite Htok in Hlog. exact Hlog.
  - intros e w1 Hs Htok. split; [|split].
    + rewrite (callToolHandler_authenticated env w sid _ _ Hs), handleToolCall_add.
      now apply add_to_library_no_token with (endpoint := "/me/following?type=artist").
    + rewrite (callToolHandler_authenticated env w sid _ _ Hs), handleToolCall_remove.
      now apply remove_from_library_no_token with (endpoint := "/me/following?type=artist").
    + pose proof (getValidAccessToken_log env w sid) as Hlog.
      rewrite Htok in Hlog. exact Hlog.
Qed.

Lemma artist_follow_request_witness :
  fetched (snd (callToolHandler (demo_env true) "live" "add_to_library"
                  (LibraryArgs artist "X") demo_world))
    = [mkRequest "https://api.spotify.com/v1/me/following?type=artist" PUT
                 (Bearer "live-token") "application/json" (JsonIds ["X"])] /\
  callToolHandler (demo_env false) "late" "remove_from_library"
      (LibraryArgs artist "X") demo_world
    = (Throw (Error_ "Failed to refresh token: Bad Request"),
       after_failed_refresh (demo_env false) demo_world
         (mkSession "late-token" "late-refresh" 500)).
Proof.
  split.
  - refine (proj1 (proj1 (artist_follow_request (demo_env true) demo_world "live" "X")
      "live-token" (after_check demo_world) _)).
    vm_compute; reflexivity.
  - refine (proj1 (proj2 (proj2 (artist_follow_request (demo_env false) demo_world
      "late" "X") (Error_ "Failed to refresh token: Bad Request") _ _ _))).
    + vm_compute; eauto.
    + vm_compute; reflexivity.
Defined.

(** C10.  For a caller that has a session, [add_to_library] and
    [remove_from_library] with [itemType = playlist] throw
    "Unsupported item type: playlist" and leave the world, request log
    included, exactly as it was; the worker's switch does the same for any
    caller. *)
Theorem playlist_item_type_unsupported
    (env : Env) (w : World) (sid itemId : string) :
  is_Some (authSessions w !! sid) ->
  callToolHandler env sid "add_to_library" (LibraryArgs playlist itemId) w
    = (Throw (Error_ "Unsupported item type: playlist"), w) /\
  callToolHandler env sid "remove_from_library" (LibraryArgs playlist itemId) w
    = (Throw (Error_ "Unsupported item type: playlist"), w) /\
  handleToolCall env sid "add_to_library" (LibraryArgs playlist itemId) w
    = (Throw (Error_ "Unsupported item type: playlist"), w) /\
  handleToolCall env sid "remove_from_library" (LibraryArgs playlist itemId) w
    = (Throw (Error_ "Unsupported item type: playlist"), w).
Proof.
  intros Hs. rewrite !(callToolHandler_authenticated env w sid _ _ Hs).
  repeat split; reflexivity.
Qed.

Lemma playlist_item_type_unsupported_witness :
  callToolHandler (demo_env true) "live" "add_to_library"
      (LibraryArgs playlist "37i9dQZF1DXcBWIGoYBM5M") demo_world
    = (Throw (Error_ "Unsupported item type: playlist"), demo_world).
Proof.
  refine (proj1 (playlist_item_type_unsupported (demo_env true) demo_world
    "live" "37i9dQZF1DXcBWIGoYBM5M" _)).
  vm_compute; eauto.
Defined.

(** *** search and fetch_tracks *)

Section Paging.

Context (env : Env).

Lemma num_to_string_inj (a b : Z) : num_to_string a = num_to_string b -> a = b.
Proof. unfold num_to_string. apply (inj pretty). Qed.

Lemma or_num_nonzero (a : option Z) (d : Z) : d <> 0 -> or_num a d <> 0.
Proof.
  intros Hd. destruct a as [z|]; simpl; [|exact Hd].
  destruct (Z.eqb_spec z 0); assumption.
Qed.

Lemma search_limit_capped (l : option Z) : within 50 l = true -> search_limit l <= 50.
Proof.
  destruct l as [z|]; unfold search_limit; simpl; [|lia].
  intros H. apply Z.leb_le in H. destruct (Z.eqb_spec z 0); lia.
Qed.

Lemma search_endpoint_encoded query encoded ts l m :
  encodeURIComponent query = Some encoded ->
  search_endpoint query ts l m
    = Some ("/search?q=" +:+ encoded
            +:+ "&type=" +:+ join "," (map item_type_name (search_types ts))
            +:+ "&limit=" +:+ num_to_string (search_limit l)
            +:+ "&market=" +:+ search_market m).
Proof. intros He. unfold search_endpoint. now rewrite He. Qed.

(** A validated non-audiobook search sends exactly the search request. *)
Lemma search_run w sid query ts l m endpoint tok w1 :
  includes (toLowerCase query) "audiobook" = false ->
  within 50 l = true ->
  search_endpoint query ts l m = Some endpoint ->
  getValidAccessToken env sid w = (Return tok, w1) ->
  exists o, search env sid (SearchArgs query ts l m) w =
              (o, after_fetch w1 (api_request tok endpoint GET NoBody)).
Proof.
  intros Hq Hl He Htok. unfold search, bind, lift. cbn [searchParser].
  rewrite Hl, Hq, He.
  destruct (spotifyApiRequest_run env w sid endpoint GET NoBody tok w1 Htok) as [o Ho].
  rewrite Ho. destruct o as [[j|]|]; eexists; reflexivity.
Qed.

(** A search whose query cannot be encoded throws before anything is
    sent. *)
Lemma search_unencodable w sid query ts l m :
  includes (toLowerCase query) "audiobook" = false ->
  within 50 l = true ->
  encodeURIComponent query = None ->
  search env sid (SearchArgs query ts l m) w = (Throw URIError, w).
Proof.
  intros Hq Hl He. unfold search, bind, lift, search_endpoint. cbn [searchParser].
  now rewrite Hl, Hq, He.
Qed.

(** The query of the search URL, for a market that is a plain value. *)
Lemma search_url_query encoded types limit market :
  forallb value_char (list_ascii_of_string encoded) = true ->
  plain_value market = true ->
  url_query (SPOTIFY_API_BASE +:+ "/search?q=" +:+ encoded
             +:+ "&type=" +:+ join "," (map item_type_name types)
             +:+ "&limit=" +:+ num_to_string limit +:+ "&market=" +:+ market)
    = "q=" +:+ encoded +:+ "&type=" +:+ join "," (map item_type_name types)
      +:+ "&limit=" +:+ num_to_string limit +:+ "&market=" +:+ market.
Proof.
  intros He Hm. apply plain_value_spec in Hm as [_ Hm].
  change (SPOTIFY_API_BASE +:+ "/search?q=" +:+ ?x)
    with ((SPOTIFY_API_BASE +:+ "/search") +:+ "?" +:+ ("q=" +:+ x)).
  apply url_query_split; [reflexivity | reflexivity |].
  rewrite !mem_ascii_append, Hm.
  rewrite (mem_ascii_excluded value_char "#" encoded He eq_refl).
  rewrite (mem_ascii_excluded value_char "#" _ (type_names_value types) eq_refl).
  rewrite (mem_ascii_excluded value_char "#" _ (num_to_string_value limit) eq_refl).
  reflexivity.
Qed.

(** The query of the playlist-page URL, for a playlist id that is one path
    segment. *)
Lemma playlist_page_query p o l :
  plain_segment p = true ->
  url_query (SPOTIFY_API_BASE +:+ playlist_page_endpoint p o l)
    = "offset=" +:+ num_to_string (or_num o 0)
      +:+ "&limit=" +:+ num_to_string (or_num l 100).
Proof.
  intros Hp. apply plain_segment_spec in Hp as [Hq Hf]. unfold playlist_page_endpoint.
  replace (SPOTIFY_API_BASE +:+ "/playlists/" +:+ p +:+ "/tracks?offset="
           +:+ num_to_string (or_num o 0) +:+ "&limit=" +:+ num_to_string (or_num l 100))
    with (((SPOTIFY_API_BASE +:+ "/playlists/") +:+ p +:+ "/tracks") +:+ "?"
          +:+ ("offset=" +:+ num_to_string (or_num o 0)
               +:+ "&limit=" +:+ num_to_string (or_num l 100)))
    by (rewrite !append_assoc; reflexivity).
  apply url_query_split.
  - rewrite !mem_ascii_append, Hq. reflexivity.
  - rewrite !mem_ascii_append, Hf. reflexivity.
  - rewrite !mem_ascii_append.
    rewrite !(mem_ascii_excluded value_char "#" _ (num_to_string_value _) eq_refl).
    reflexivity.
Qed.

(** A validated fetch_tracks sends the playlist-page request first. *)
Lemma fetch_tracks_run w sid p o l tok w1 :
  within 100 l = true ->
  getValidAccessToken env sid w = (Return tok, w1) ->
  exists rest,
    fetched (snd (fetch_tracks env sid (FetchTracksArgs p o l) w)) =
      fetched w1 ++ api_request tok (playlist_page_endpoint p o l) GET NoBody :: rest.
Proof.
  intros Hl Htok. unfold fetch_tracks, bind, lift. cbn [fetchTracksParser].
  rewrite Hl.
  destruct (spotifyApiRequest_run env w sid (playlist_page_endpoint p o l) GET NoBody
              tok w1 Htok) as [d Hd].
  rewrite Hd.
  destruct d as [[[a r e|items total|flags|r]|]|e];
    try (exists []; reflexivity).
  destruct (track_ids items) as [ids|e]; [|exists []; reflexivity].
  destruct (spotifyApiRequest_log env
              (after_fetch w1 (api_request tok (playlist_page_endpoint p o l) GET NoBody))
              sid (saved_status_endpoint ids) GET NoBody) as [rest Hrest].
  destruct (spotifyApiRequest env sid (saved_status_endpoint ids) GET NoBody _)
    as [[saved|e] w2]; cbn [snd] in Hrest.
  - exists rest.
    destruct (project_items saved 0 items); unfold ret, throw; cbn [snd];
      rewrite Hrest; cbn [after_fetch fetched]; now rewrite <- app_assoc.
  - exists rest. cbn [snd]. rewrite Hrest. cbn [after_fetch fetched].
    now rewrite <- app_assoc.
Qed.

Lemma project_items_spec saved items :
  forall index views,
    project_items saved index items = Return views ->
    length views = length items /\
    forall i v, views !! i = Some v ->
      exists t, items !! i = Some (Some t) /\
                v = playlist_track_view t (is_saved v) /\
                saved_at saved (index + i) = Return (is_saved v).
Proof.
  induction items as [|[t|] rest IH]; intros index views H; simpl in H.
  - inversion H; subst. split; [reflexivity|]. intros i v Hv. now destruct i.
  - destruct (saved_at saved index) as [s|e] eqn:Hs; [|discriminate].
    destruct (project_items saved (S index) rest) as [vs|e] eqn:Hrest; [|discriminate].
    inversion H; subst. destruct (IH _ _ Hrest) as [Hlen Hall].
    split; [simpl; now rewrite Hlen|].
    intros [|i] v Hv; simpl in Hv.
    + inversion Hv; subst. exists t. rewrite Nat.add_0_r. now repeat split.
    + destruct (Hall i v Hv) as (t' & Ht' & Hv' & Hsaved).
      exists t'. rewrite Nat.add_succ_r. now repeat split.
  - discriminate.
Qed.

End Paging.

(** C5, as stated, fails: a [limit] above 50 is not capped at 50.  With
    [limit = 51] [searchParser] throws before anything else, on the server
    and on the worker alike; no search request is built, with limit 50 or
    any other.  Nor is one built for a query that [encodeURIComponent]
    rejects, which throws the [URIError], or for a caller whose expired
    token cannot be refreshed, where the only request is the refresh. *)
Lemma search_request_not_always_built :
  callToolHandler (demo_env true) "live" "search"
      (SearchArgs "daft punk" None (Some 51) None) demo_world
    = (Throw ZodError, demo_world) /\
  handleToolCall (demo_env true) "live" "search"
      (SearchArgs "daft punk" None (Some 51) None) demo_world
    = (Throw ZodError, demo_world) /\
  fetched (snd (callToolHandler (demo_env true) "live" "search"
                  (SearchArgs "daft punk" None (Some 51) None) demo_world)) = [] /\
  callToolHandler (demo_env true) "live" "search"
      (SearchArgs ("daft punk " +:+ lone_D800) None None None) demo_world
    = (Throw URIError, demo_world) /\
  callToolHandler (demo_env false) "late" "search"
      (SearchArgs "daft punk" None None None) demo_world
    = (Throw (Error_ "Failed to refresh token: Bad Request"),
       after_fetch (after_check demo_world)
         (refresh_request (demo_env false) "late-refresh")).
Proof. repeat split; vm_compute; reflexivity. Qed.

(** C5, amended.  Take a search with a query that is not an audiobook
    query, by a caller whose token [tok] was obtained.  When [limit] passes
    [searchParser] (absent, or at most 50), is a safe integer, and
    [encodeURIComponent] accepts the query, the one request sent is the GET
    printed below: its [type] list is track,album,artist,playlist when
    [types] is absent and the given list otherwise; its [limit] is 20 when
    [limit] is absent or 0 and the given number otherwise, never above 50;
    its [market] is US when [market] is absent or empty and the given text
    otherwise, written as it is: when it holds neither [&] nor [#] the
    query of the request is exactly [q=..&type=..&limit=..&market=..].  A
    [limit] above 50 is refused by the parser, not capped, and
    nothing is sent; nor is anything sent for an accepted call whose query
    [encodeURIComponent] rejects, which throws the [URIError]. *)
Theorem search_request_defaults
    (env : Env) (w w1 : World) (sid tok query : string)
    (ts : option (list ItemType)) (l : option Z) (m : option string) :
  includes (toLowerCase query) "audiobook" = false ->
  getValidAccessToken env sid w = (Return tok, w1) ->
  (within 50 l = true -> safe_arg l = true ->
   forall encoded, encodeURIComponent query = Some encoded ->
     fetched (snd (callToolHandler env sid "search" (SearchArgs query ts l m) w))
       = fetched w1 ++
         [mkRequest
            ("https://api.spotify.com/v1" +:+ "/search?q=" +:+ encoded
             +:+ "&type=" +:+ join "," (map item_type_name (search_types ts))
             +:+ "&limit=" +:+ num_to_string (search_limit l)
             +:+ "&market=" +:+ search_market m)
            GET (Bearer tok) "application/json" NoBody] /\
     search_limit l <= 50 /\
     mem_ascii "&" encoded = false /\
     (plain_value (search_market m) = true ->
        url_query
          ("https://api.spotify.com/v1" +:+ "/search?q=" +:+ encoded
           +:+ "&type=" +:+ join "," (map item_type_name (search_types ts))
           +:+ "&limit=" +:+ num_to_string (search_limit l)
           +:+ "&market=" +:+ search_market m)
        = "q=" +:+ encoded
          +:+ "&type=" +:+ join "," (map item_type_name (search_types ts))
          +:+ "&limit=" +:+ num_to_string (search_limit l)
          +:+ "&market=" +:+ search_market m)) /\
  (within 50 l = false ->
     callToolHandler env sid "search" (SearchArgs query ts l m) w = (Throw ZodError, w)) /\
  (within 50 l = true -> encodeURIComponent query = None ->
     callToolHandler env sid "search" (SearchArgs query ts l m) w = (Throw URIError, w)) /\
  (ts = None -> join "," (map item_type_name (search_types ts))
                = "track,album,artist,playlist") /\
  (forall types, ts = Some types -> search_types ts = types) /\
  (l = None \/ l = Some 0 -> num_to_string (search_limit l) = "20") /\
  (forall n, l = Some n -> n <> 0 -> search_limit l = n) /\
  (m = None \/ m = Some "" -> search_market m = "US") /\
  (forall market, m = Some market -> market <> "" -> search_market m = market).
Proof.
  intros Hq Htok.
  pose proof (getValidAccessToken_needs_session env w sid tok w1 Htok) as Hs.
  rewrite (callToolHandler_authenticated env w sid _ _ Hs), handleToolCall_search.
  split; [|split; [|split; [|split; [|split; [|split; [|split; [|split]]]]]]].
  - intros Hl _ encoded He.
    pose proof (encodeURIComponent_value query encoded He) as Hv.
    split; [|split; [now apply search_limit_capped|split]].
    + destruct (search_run env w sid query ts l m _ tok w1 Hq Hl
                  (search_endpoint_encoded query encoded ts l m He) Htok) as [o Ho].
      rewrite Ho. reflexivity.
    + exact (mem_ascii_excluded value_char "&" encoded Hv eq_refl).
    + intros Hm. now apply search_url_query.
  - intros Hl. unfold search, bind, lift. cbn [searchParser]. now rewrite Hl.
  - intros Hl He. now apply search_unencodable.
  - intros ->. reflexivity.
  - intros types ->. reflexivity.
  - intros [-> | ->]; vm_compute; reflexivity.
  - intros n -> Hn. unfold search_limit, or_num.
    destruct (Z.eqb_spec n 0); [contradiction | reflexivity].
  - intros [-> | ->]; reflexivity.
  - intros market -> Hm. unfold search_market, or_str.
    destruct (String.eqb_spec market ""); [contradiction | reflexivity].
Qed.

Lemma search_request_defaults_witness :
  fetched (snd (callToolHandler (demo_env true) "live" "search"
                  (SearchArgs "daft punk" None None None) demo_world))
    = [mkRequest
         "https://api.spotify.com/v1/search?q=daft%20punk&type=track,album,artist,playlist&limit=20&market=US"
         GET (Bearer "live-token") "application/json" NoBody] /\
  fetched (snd (callToolHandler (demo_env true) "live" "search"
                  (SearchArgs ("boo" +:+ kelvin_sign) (Some [album; show]) (Some 7)
                     (Some "SE")) demo_world))
    = [mkRequest
         "https://api.spotify.com/v1/search?q=boo%E2%84%AA&type=album,show&limit=7&market=SE"
         GET (Bearer "live-token") "application/json" NoBody] /\
  callToolHandler (demo_env true) "live" "search"
      (SearchArgs "daft punk" None (Some 51) None) demo_world
    = (Throw ZodError, demo_world).
Proof.
  split; [|split].
  - refine (proj1 (proj1 (search_request_defaults (demo_env true) demo_world
      (after_check demo_world) "live" "live-token" "daft punk" None None None _ _)
      _ _ "daft%20punk" _)).
    all: vm_compute; reflexivity.
  - refine (proj1 (proj1 (search_request_defaults (demo_env true) demo_world
      (after_check demo_world) "live" "live-token" ("boo" +:+ kelvin_sign)
      (Some [album; show]) (Some 7) (Some "SE") _ _)
      _ _ "boo%E2%84%AA" _)).
    all: vm_compute; reflexivity.
  - refine (proj1 (proj2 (search_request_defaults (demo_env true) demo_world
      (after_check demo_world) "live" "live-token" "daft punk" None (Some 51) None _ _)) _).
    all: vm_compute; reflexivity.
Defined.

Lemma num_to_string_nonzero (n : Z) : n <> 0 -> num_to_string n <> "0".
Proof.
  intros Hn H. apply Hn. apply num_to_string_inj. rewrite H. vm_compute. reflexivity.
Qed.

Lemma num_to_string_20 : num_to_string 20 = "20".
Proof. vm_compute. reflexivity. Qed.

Lemma num_to_string_100 : num_to_string 100 = "100".
Proof. vm_compute. reflexivity. Qed.

(** C9, as stated, fails for fetch_tracks: [playlistId] is written into
    the path as it is.  With the playlist id [p/tracks?limit=0#] the text
    that the handler appends, [limit=100] included, lands behind the [#],
    in the fragment that is not sent; the request that goes out has the
    query [limit=0].  The server's handler and the worker's switch behave
    alike.  And a search with [limit = 0] sends no request with [limit=20]
    when its query is an audiobook query, which is refused with nothing
    sent. *)
Lemma page_of_size_zero_requested :
  (req_url <$> head (fetched (snd (callToolHandler (demo_env true) "live" "fetch_tracks"
                       (FetchTracksArgs "p/tracks?limit=0#" None (Some 0)) demo_world))))
    = Some "https://api.spotify.com/v1/playlists/p/tracks?limit=0#/tracks?offset=0&limit=100" /\
  (request_target <$> (req_url <$>
     head (fetched (snd (callToolHandler (demo_env true) "live" "fetch_tracks"
             (FetchTracksArgs "p/tracks?limit=0#" None (Some 0)) demo_world)))))
    = Some "https://api.spotify.com/v1/playlists/p/tracks?limit=0" /\
  (url_query <$> (req_url <$>
     head (fetched (snd (callToolHandler (demo_env true) "live" "fetch_tracks"
             (FetchTracksArgs "p/tracks?limit=0#" None (Some 0)) demo_world)))))
    = Some "limit=0" /\
  (url_query <$> (req_url <$>
     head (fetched (snd (handleToolCall (demo_env true) "live" "fetch_tracks"
             (FetchTracksArgs "p/tracks?limit=0#" None (Some 0)) demo_world)))))
    = Some "limit=0" /\
  callToolHandler (demo_env true) "live" "search"
      (SearchArgs "an audiobook" None (Some 0) None) demo_world
    = (Return (text_result refusal_text), demo_world).
Proof. repeat split; vm_compute; reflexivity. Qed.

(** C9, amended.  Let the caller's token [tok] be obtained.  A search with
    [limit = 0] whose query is not an audiobook query and can be encoded
    sends its request with [limit=20] in the place of the limit, and when
    the market holds neither [&] nor [#] the query of that request is
    [q=..&type=..&limit=20&market=..].  A fetch_tracks with [limit = 0] and
    a safe-integer [offset] sends its playlist-page request with the text
    [&limit=100] after the offset, and when the playlist id holds neither
    [?] nor [#] the query of that request is [offset=..&limit=100].  For
    every accepted safe-integer [limit] the number printed after [limit=]
    is not 0, in the search request and in the playlist-page request, and
    under the same conditions on market and playlist id it is the limit of
    the query. *)
Theorem zero_limit_is_replaced
    (env : Env) (w w1 : World) (sid tok : string) :
  getValidAccessToken env sid w = (Return tok, w1) ->
  (forall query encoded ts m,
     includes (toLowerCase query) "audiobook" = false ->
     encodeURIComponent query = Some encoded ->
     fetched (snd (callToolHandler env sid "search" (SearchArgs query ts (Some 0) m) w))
       = fetched w1 ++
         [api_request tok
            ("/search?q=" +:+ encoded
             +:+ "&type=" +:+ join "," (map item_type_name (search_types ts))
             +:+ "&limit=" +:+ "20" +:+ "&market=" +:+ search_market m)
            GET NoBody] /\
     (plain_value (search_market m) = true ->
        url_query ("https://api.spotify.com/v1" +:+ "/search?q=" +:+ encoded
                   +:+ "&type=" +:+ join "," (map item_type_name (search_types ts))
                   +:+ "&limit=" +:+ "20" +:+ "&market=" +:+ search_market m)
          = "q=" +:+ encoded
            +:+ "&type=" +:+ join "," (map item_type_name (search_types ts))
            +:+ "&limit=" +:+ "20" +:+ "&market=" +:+ search_market m)) /\
  (forall p o,
     safe_arg o = true ->
     exists rest,
       fetched (snd (callToolHandler env sid "fetch_tracks"
                       (FetchTracksArgs p o (Some 0)) w))
         = fetched w1 ++
           api_request tok
             ("/playlists/" +:+ p +:+ "/tracks?offset=" +:+ num_to_string (or_num o 0)
              +:+ "&limit=" +:+ "100")
             GET NoBody :: rest /\
       (plain_segment p = true ->
          url_query ("https://api.spotify.com/v1" +:+ "/playlists/" +:+ p
                     +:+ "/tracks?offset=" +:+ num_to_string (or_num o 0)
                     +:+ "&limit=" +:+ "100")
            = "offset=" +:+ num_to_string (or_num o 0) +:+ "&limit=" +:+ "100")) /\
  (forall query encoded ts l m,
     includes (toLowerCase query) "audiobook" = false ->
     encodeURIComponent query = Some encoded ->
     within 50 l = true ->
     safe_arg l = true ->
     exists n, n <> 0 /\ num_to_string n <> "0" /\
       fetched (snd (callToolHandler env sid "search" (SearchArgs query ts l m) w))
         = fetched w1 ++
           [api_request tok
              ("/search?q=" +:+ encoded
               +:+ "&type=" +:+ join "," (map item_type_name (search_types ts))
               +:+ "&limit=" +:+ num_to_string n +:+ "&market=" +:+ search_market m)
              GET NoBody] /\
       (plain_value (search_market m) = true ->
          url_query ("https://api.spotify.com/v1" +:+ "/search?q=" +:+ encoded
                     +:+ "&type=" +:+ join "," (map item_type_name (search_types ts))
                     +:+ "&limit=" +:+ num_to_string n +:+ "&market=" +:+ search_market m)
            = "q=" +:+ encoded
              +:+ "&type=" +:+ join "," (map item_type_name (search_types ts))
              +:+ "&limit=" +:+ num_to_string n +:+ "&market=" +:+ search_market m)) /\
  (forall p o l,
     within 100 l = true ->
     safe_arg l = true ->
     safe_arg o = true ->
     exists n rest, n <> 0 /\ num_to_string n <> "0" /\
       fetched (snd (callToolHandler env sid "fetch_tracks" (FetchTracksArgs p o l) w))
         = fetched w1 ++
           api_request tok
             ("/playlists/" +:+ p +:+ "/tracks?offset=" +:+ num_to_string (or_num o 0)
              +:+ "&limit=" +:+ num_to_string n)
             GET NoBody :: rest /\
       (plain_segment p = true ->
          url_query ("https://api.spotify.com/v1" +:+ "/playlists/" +:+ p
                     +:+ "/tracks?offset=" +:+ num_to_string (or_num o 0)
                     +:+ "&limit=" +:+ num_to_string n)
            = "offset=" +:+ num_to_string (or_num o 0)
              +:+ "&limit=" +:+ num_to_string n)).
Proof.
  intros Htok.
  pose proof (getValidAccessToken_needs_session env w sid tok w1 Htok) as Hs.
  split; [|split; [|split]].
  - intros query encoded ts m Hq He.
    rewrite (callToolHandler_authenticated env w sid _ _ Hs), handleToolCall_search.
    destruct (search_run env w sid query ts (Some 0) m _ tok w1 Hq eq_refl
                (search_endpoint_encoded query encoded ts (Some 0) m He) Htok) as [o Ho].
    split; [rewrite Ho, <- num_to_string_20; reflexivity|].
    intros Hm. rewrite <- num_to_string_20. apply search_url_query; [|exact Hm].
    now apply encodeURIComponent_value with (s := query).
  - intros p o _.
    rewrite (callToolHandler_authenticated env w sid _ _ Hs), handleToolCall_fetch_tracks.
    destruct (fetch_tracks_run env w sid p o (Some 0) tok w1 eq_refl Htok) as [rest Hr].
    exists rest. split.
    + rewrite Hr, <- num_to_string_100. reflexivity.
    + intros Hp. rewrite <- num_to_string_100.
      exact (playlist_page_query p o (Some 0) Hp).
  - intros query encoded ts l m Hq He Hl _.
    rewrite (callToolHandler_authenticated env w sid _ _ Hs), handleToolCall_search.
    destruct (search_run env w sid query ts l m _ tok w1 Hq Hl
                (search_endpoint_encoded query encoded ts l m He) Htok) as [o Ho].
    assert (Hn : search_limit l <> 0) by (apply or_num_nonzero; lia).
    exists (search_limit l). split; [exact Hn|].
    split; [now apply num_to_string_nonzero|]. split; [rewrite Ho; reflexivity|].
    intros Hm. apply search_url_query; [|exact Hm].
    now apply encodeURIComponent_value with (s := query).
  - intros p o l Hl _ _.
    rewrite (callToolHandler_authenticated env w sid _ _ Hs), handleToolCall_fetch_tracks.
    destruct (fetch_tracks_run env w sid p o l tok w1 Hl Htok) as [rest Hr].
    assert (Hn : or_num l 100 <> 0) by (apply or_num_nonzero; lia).
    exists (or_num l 100), rest. split; [exact Hn|].
    split; [now apply num_to_string_nonzero|]. split; [rewrite Hr; reflexivity|].
    intros Hp. exact (playlist_page_query p o l Hp).
Qed.

Lemma zero_limit_is_replaced_witness :
  fetched (snd (callToolHandler (demo_env true) "live" "search"
                  (SearchArgs "daft punk" (Some [track]) (Some 0) (Some "SE")) demo_world))
    = [api_request "live-token"
         "/search?q=daft%20punk&type=track&limit=20&market=SE" GET NoBody] /\
  url_query "https://api.spotify.com/v1/search?q=daft%20punk&type=track&limit=20&market=SE"
    = "q=daft%20punk&type=track&limit=20&market=SE" /\
  exists rest,
    fetched (snd (callToolHandler (demo_env true) "live" "fetch_tracks"
                    (FetchTracksArgs "pl" (Some 40) (Some 0)) demo_world))
      = api_request "live-token" "/playlists/pl/tracks?offset=40&limit=100" GET NoBody
        :: rest /\
    url_query "https://api.spotify.com/v1/playlists/pl/tracks?offset=40&limit=100"
      = "offset=40&limit=100".
Proof.
  pose proof (zero_limit_is_replaced (demo_env true) demo_world
    (after_check demo_world) "live" "live-token" ltac:(vm_compute; reflexivity))
    as (Hsearch & Hfetch & _).
  destruct (Hsearch "daft punk" "daft%20punk" (Some [track]) (Some "SE")
              ltac:(vm_compute; reflexivity) ltac:(vm_compute; reflexivity))
    as [Hsent Hquery].
  split; [exact Hsent|]. split; [exact (Hquery ltac:(vm_compute; reflexivity))|].
  destruct (Hfetch "pl" (Some 40) ltac:(vm_compute; reflexivity)) as [rest [Hrest Hq]].
  exists rest. split.
  - rewrite Hrest. vm_compute. reflexivity.
  - exact (Hq ltac:(vm_compute; reflexivity)).
Defined.

(** C4.  When fetch_tracks succeeds (through the worker's switch, or
    through the server's handler for a caller that has a session), the
    playlist-page call returned some [items], the saved-status call was made
    for their ids and returned [savedStatus], and the projected [tracks]
    have the length of [items]; the track at position [i] is the projection
    of item [i] and its [is_saved] is [savedStatus[i]], the element at
    position [i] when the saved-status response is an array. *)
Theorem fetch_tracks_zips_saved_status
    (env : Env) (w w' : World) (sid : string) (args : ToolArgs) (r : ToolResult) :
  handleToolCall env sid "fetch_tracks" args w = (Return r, w') \/
  (is_Some (authSessions w !! sid) /\
   callToolHandler env sid "fetch_tracks" args w = (Return r, w')) ->
  exists playlistId offset limit items total w1 ids savedStatus tracks,
    args = FetchTracksArgs playlistId offset limit /\
    spotifyApiRequest env sid (playlist_page_endpoint playlistId offset limit) GET NoBody w
      = (Return (Some (JPage items total)), w1) /\
    track_ids items = Return ids /\
    spotifyApiRequest env sid (saved_status_endpoint ids) GET NoBody w1
      = (Return savedStatus, w') /\
    structuredContent r = Some (PlaylistTracks playlistId tracks total) /\
    length tracks = length items /\
    (forall i v, tracks !! i = Some v ->
       exists t, items !! i = Some (Some t) /\
                 v = playlist_track_view t (is_saved v) /\
                 saved_at savedStatus i = Return (is_saved v)) /\
    (forall flags, savedStatus = Some (JSaved flags) ->
       forall i v, tracks !! i = Some v -> is_saved v = flags !! i).
Proof.
  intros H.
  assert (Hrun : fetch_tracks env sid args w = (Return r, w')).
  { destruct H as [H|[Hs H]].
    - now rewrite handleToolCall_fetch_tracks in H.
    - now rewrite (callToolHandler_authenticated env w sid _ _ Hs),
        handleToolCall_fetch_tracks in H. }
  clear H. unfold fetch_tracks, bind, lift in Hrun.
  destruct args as [|t i|p o l|q ts l m]; cbn [fetchTracksParser] in Hrun;
    try discriminate.
  destruct (within 100 l); [|discriminate].
  destruct (spotifyApiRequest env sid (playlist_page_endpoint p o l) GET NoBody w)
    as [[[[a rt e|items total|flags|sr]|]|e] w1] eqn:Hpage; try discriminate.
  destruct (track_ids items) as [ids|e] eqn:Hids; [|discriminate].
  destruct (spotifyApiRequest env sid (saved_status_endpoint ids) GET NoBody w1)
    as [[saved|e] w2] eqn:Hsaved; [|discriminate].
  destruct (project_items saved 0 items) as [tracks|e] eqn:Hproj; [|discriminate].
  unfold ret in Hrun. inversion Hrun; subst r w'. clear Hrun.
  destruct (project_items_spec saved items 0 tracks Hproj) as [Hlen Hall].
  exists p, o, l, items, total, w1, ids, saved, tracks.
  split; [reflexivity|]. split; [exact Hpage|]. split; [exact Hids|].
  split; [exact Hsaved|]. split; [reflexivity|]. split; [exact Hlen|].
  split.
  - intros i v Hv. exact (Hall i v Hv).
  - intros flags -> i v Hv. destruct (Hall i v Hv) as (t & _ & _ & Hsv).
    simpl in Hsv. now inversion Hsv.
Qed.

Lemma fetch_tracks_zips_saved_status_witness :
  exists r w',
    handleToolCall (demo_env true) "live" "fetch_tracks"
      (FetchTracksArgs "pl" None None) demo_world = (Return r, w') /\
    exists tracks total,
      structuredContent r = Some (PlaylistTracks "pl" tracks total) /\
      length tracks = 2%nat /\
      (forall i v, tracks !! i = Some v -> is_saved v = [true; false] !! i).
Proof.
  destruct (handleToolCall (demo_env true) "live" "fetch_tracks"
              (FetchTracksArgs "pl" None None) demo_world) as [[r|e] w'] eqn:Hrun;
    [|vm_compute in Hrun; discriminate].
  exists r, w'. split; [reflexivity|].
  destruct (fetch_tracks_zips_saved_status (demo_env true) demo_world w' "live"
              (FetchTracksArgs "pl" None None) r (or_introl Hrun))
    as (p & o & l & items & total & w1 & ids & saved & tracks
        & Hargs & Hpage & Hids & Hsaved & Hsc & Hlen & Hall & Hflags).
  inversion Hargs; subst p o l.
  exists tracks, total. split; [exact Hsc|].
  vm_compute in Hrun. inversion Hrun; subst r w'.
  cbn [structuredContent] in Hsc. inversion Hsc; subst tracks total.
  split; [reflexivity|].
  intros i v Hv.
  destruct i as [|[|i]]; simpl in Hv; [ | | rewrite lookup_nil in Hv ];
    inversion Hv; subst; reflexivity.
Defined.

(** *** The OAuth callback *)

Section Callback.

Context (env : Env).

Lemma handleAuthCallback_error w code state error e :
  present error = Some e ->
  handleAuthCallback env code state error w =
    (Return (mkHttpReply 400 (AuthenticationFailedPage e)), w).
Proof. intros He. unfold handleAuthCallback. now rewrite He. Qed.

Lemma handleAuthCallback_missing w code state error :
  present error = None ->
  present code = None \/ present state = None ->
  handleAuthCallback env code state error w =
    (Return (mkHttpReply 400 (PlainText "Missing code or state parameter")), w).
Proof.
  intros He [H|H]; unfold handleAuthCallback; rewrite He, H; [reflexivity|].
  now destruct (present code).
Qed.

Lemma handleAuthCallback_invalid w code state error c s :
  present error = None -> present code = Some c -> present state = Some s ->
  pendingAuthStates w !! s = None ->
  handleAuthCallback env code state error w =
    (Return (mkHttpReply 400 (PlainText "Invalid or expired state parameter")), w).
Proof.
  intros He Hc Hst Hp. unfold handleAuthCallback. rewrite He, Hc, Hst.
  unfold bind, get_pending. now rewrite Hp.
Qed.

(** Past the three checks the pending store is swept, and the matched
    state is deleted too when the exchange succeeds. *)
Lemma handleAuthCallback_accepted w code state error c s p :
  present error = None -> present code = Some c -> present state = Some s ->
  pendingAuthStates w !! s = Some p ->
  let swept := sweep (clock env (clock_reads w)) (pendingAuthStates w) in
  let after := pendingAuthStates (snd (handleAuthCallback env code state error w)) in
  after = swept \/ after = delete s swept.
Proof.
  intros He Hc Hst Hp swept after. subst after.
  destruct (handleAuthCallback env code state error w) as [o w'] eqn:Hrun.
  cbn [snd]. unfold handleAuthCallback in Hrun. rewrite He, Hc, Hst in Hrun.
  unfold bind, get_pending in Hrun. rewrite Hp in Hrun.
  unfold try_catch, exchangeCodeForToken, bind, fetch, Date_now, set_pending in Hrun.
  cbn [pendingAuthStates authSessions clock_reads random_draws fetched] in Hrun.
  destruct (negb (response_ok _)) in Hrun.
  { inversion Hrun; subst. left. reflexivity. }
  unfold response_json in Hrun.
  destruct (body_json _) as [[a r e|items total|flags|sr]|] in Hrun;
    inversion Hrun; subst; try (left; reflexivity).
  right. reflexivity.
Qed.

(** A granted exchange stores the session under the originating session
    identifier and consumes the state. *)
Lemma handleAuthCallback_granted w code state error c s p a r e :
  present error = None -> present code = Some c -> present state = Some s ->
  pendingAuthStates w !! s = Some p ->
  response_ok (upstream env (length (fetched w)) (exchange_request env c)) = true ->
  body_json (upstream env (length (fetched w)) (exchange_request env c))
    = Some (JToken a r e) ->
  handleAuthCallback env code state error w =
    (Return (mkHttpReply 200 ConnectedPage),
     mkWorld
       (<[sessionId p := mkSession a r (clock env (S (clock_reads w)) + e * 1000)]>
          (authSessions w))
       (delete s (sweep (clock env (clock_reads w)) (pendingAuthStates w)))
       (S (S (clock_reads w))) (random_draws w)
       (fetched w ++ [exchange_request env c])).
Proof.
  intros He Hc Hst Hp Hok Hj.
  unfold handleAuthCallback. rewrite He, Hc, Hst.
  unfold bind, get_pending. rewrite Hp.
  unfold try_catch, exchangeCodeForToken, bind, fetch, Date_now, set_pending.
  cbn [pendingAuthStates authSessions clock_reads random_draws fetched].
  rewrite Hok. cbn [negb]. unfold response_json. rewrite Hj. reflexivity.
Qed.

(** The same callback replayed on the resulting world is an invalid state. *)
Lemma handleAuthCallback_replay w code state error c s p a r e :
  present error = None -> present code = Some c -> present state = Some s ->
  pendingAuthStates w !! s = Some p ->
  response_ok (upstream env (length (fetched w)) (exchange_request env c)) = true ->
  body_json (upstream env (length (fetched w)) (exchange_request env c))
    = Some (JToken a r e) ->
  fst (handleAuthCallback env code state error
         (snd (handleAuthCallback env code state error w)))
    = Return (mkHttpReply 400 (PlainText "Invalid or expired state parameter")).
Proof.
  intros He Hc Hst Hp Hok Hj.
  rewrite (handleAuthCallback_granted w code state error c s p a r e He Hc Hst Hp Hok Hj).
  cbn [snd].
  rewrite (handleAuthCallback_invalid _ code state error c s He Hc Hst); [reflexivity|].
  cbn [pendingAuthStates]. apply lookup_delete_eq.
Qed.

Lemma sweep_lookup_Some now m k q :
  sweep now m !! k = Some q <-> m !! k = Some q /\ stale now q = false.
Proof. unfold sweep. apply map_lookup_filter_Some. Qed.

Lemma stale_spec now q :
  stale now q = true <-> now - createdAt q > 10 * 60 * 1000.
Proof. unfold stale, TEN_MINUTES. rewrite Z.gtb_ltb, Z.ltb_lt. lia. Qed.

End Callback.

(** C6, as stated, fails: a callback that carries an [error] parameter
    and no [code] (what the authorization server sends when the user
    declines) is answered with the authentication-failed page, not with the
    missing-parameter error. *)
Lemma callback_error_parameter_first :
  handleAuthCallback (demo_env true) None (Some "new-state") (Some "access_denied")
      demo_world
    = (Return (mkHttpReply 400 (AuthenticationFailedPage "access_denied")), demo_world) /\
  fst (handleAuthCallback (demo_env true) None (Some "new-state") (Some "access_denied")
         demo_world)
    <> Return (mkHttpReply 400 (PlainText "Missing code or state parameter")).
Proof.
  split; [vm_compute; reflexivity|]. vm_compute. intros H. inversion H.
Qed.

(** C6, amended.  A callback with a (non-empty) [error] parameter is
    answered with the authentication-failed page.  Without one: if [code]
    or [state] is absent or empty the answer is the missing-parameter error;
    if both are there and [state] is not a key of [pendingAuthStates] the
    answer is the invalid-state error.  In all three cases the world is
    returned as it was: no request was sent to the token endpoint and the
    session store is unchanged. *)
Theorem callback_rejections
    (env : Env) (w : World) (code state error : option string) :
  (forall e, present error = Some e ->
     handleAuthCallback env code state error w
       = (Return (mkHttpReply 400 (AuthenticationFailedPage e)), w)) /\
  (present error = None ->
   present code = None \/ present state = None ->
     handleAuthCallback env code state error w
       = (Return (mkHttpReply 400 (PlainText "Missing code or state parameter")), w)) /\
  (forall c s,
     present error = None -> present code = Some c -> present state = Some s ->
     pendingAuthStates w !! s = None ->
     handleAuthCallback env code state error w
       = (Return (mkHttpReply 400 (PlainText "Invalid or expired state parameter")), w)).
Proof.
  split; [|split].
  - intros e He. now apply handleAuthCallback_error.
  - intros He H. now apply handleAuthCallback_missing.
  - intros c s He Hc Hs Hp. now apply handleAuthCallback_invalid with (c := c) (s := s).
Qed.

Lemma callback_rejections_witness :
  handleAuthCallback (demo_env true) None (Some "new-state") None demo_world
    = (Return (mkHttpReply 400 (PlainText "Missing code or state parameter")), demo_world) /\
  handleAuthCallback (demo_env true) (Some "code") (Some "never-issued") None demo_world
    = (Return (mkHttpReply 400 (PlainText "Invalid or expired state parameter")), demo_world) /\
  handleAuthCallback (demo_env true) None None (Some "access_denied") demo_world
    = (Return (mkHttpReply 400 (AuthenticationFailedPage "access_denied")), demo_world).
Proof.
  split; [|split].
  - refine (proj1 (proj2 (callback_rejections (demo_env true) demo_world
      None (Some "new-state") None)) _ _).
    + reflexivity.
    + left; reflexivity.
  - refine (proj2 (proj2 (callback_rejections (demo_env true) demo_world
      (Some "code") (Some "never-issued") None)) "code" "never-issued" _ _ _ _).
    + reflexivity.
    + reflexivity.
    + reflexivity.
    + vm_compute; reflexivity.
  - refine (proj1 (callback_rejections (demo_env true) demo_world
      None None (Some "access_denied")) "access_denied" _).
    reflexivity.
Defined.

(** C7, as stated, fails: a callback for a state that was never issued is
    rejected before the sweep, so a pending authorization created more than
    ten minutes before the clock reading is still in the store afterwards. *)
Lemma rejected_callback_keeps_stale_entry :
  clock (demo_env true) (clock_reads demo_world) - 0 > 10 * 60 * 1000 /\
  pendingAuthStates
    (snd (handleAuthCallback (demo_env true) (Some "code") (Some "never-issued") None
            demo_world)) !! "old-state"
    = Some (mkPendingAuth "elsewhere" 0).
Proof. split; vm_compute; reflexivity. Qed.

(** C7, amended.  After a callback that passes the checks (no [error]
    parameter, [code] and [state] present, [state] a key of
    [pendingAuthStates]), whether the token exchange then succeeds or not,
    every pending authorization created more than ten minutes before the
    clock reading of the sweep is absent from the store, and what is left
    was there before and is at most ten minutes old. *)
Theorem accepted_callback_sweeps_stale
    (env : Env) (w : World) (code state error : option string)
    (c s : string) (p : PendingAuth) :
  present error = None -> present code = Some c -> present state = Some s ->
  pendingAuthStates w !! s = Some p ->
  let now := clock env (clock_reads w) in
  let after := pendingAuthStates (snd (handleAuthCallback env code state error w)) in
  (forall k q, pendingAuthStates w !! k = Some q ->
               now - createdAt q > 10 * 60 * 1000 -> after !! k = None) /\
  (forall k q, after !! k = Some q ->
               pendingAuthStates w !! k = Some q /\ now - createdAt q <= 10 * 60 * 1000).
Proof.
  intros He Hc Hst Hp now after.
  assert (Hleft : forall k q, after !! k = Some q ->
            pendingAuthStates w !! k = Some q /\ stale now q = false).
  { intros k q Hk.
    destruct (handleAuthCallback_accepted env w code state error c s p He Hc Hst Hp)
      as [H|H]; fold after in H; fold now in H; rewrite H in Hk.
    - now apply sweep_lookup_Some.
    - apply lookup_delete_Some in Hk as [_ Hk]. now apply sweep_lookup_Some. }
  split.
  - intros k q Hk Hold. destruct (after !! k) as [q'|] eqn:Hafter; [|reflexivity].
    destruct (Hleft k q' Hafter) as [Hk' Hfresh].
    rewrite Hk in Hk'. inversion Hk'; subst q'.
    apply stale_spec in Hold. congruence.
  - intros k q Hk. destruct (Hleft k q Hk) as [Hk' Hfresh]. split; [exact Hk'|].
    destruct (Z_gt_le_dec (now - createdAt q) (10 * 60 * 1000)) as [Hgt|Hle]; [|exact Hle].
    apply stale_spec in Hgt. congruence.
Qed.

Lemma accepted_callback_sweeps_stale_witness :
  pendingAuthStates
    (snd (handleAuthCallback (demo_env true) (Some "code") (Some "new-state") None
            demo_world)) !! "old-state" = None.
Proof.
  refine (proj1 (accepted_callback_sweeps_stale (demo_env true) demo_world
    (Some "code") (Some "new-state") None "code" "new-state"
    (mkPendingAuth "visitor" 999000) _ _ _ _) "old-state" (mkPendingAuth "elsewhere" 0) _ _).
  - reflexivity.
  - reflexivity.
  - reflexivity.
  - vm_compute; reflexivity.
  - vm_compute; reflexivity.
  - vm_compute; reflexivity.
Defined.

(** ** Further properties of the code *)

(** *** The token refresher and the store *)

Section RefresherStore.

Context (env : Env).

(** Every run of [getValidAccessToken] is one of four. *)
Lemma getValidAccessToken_cases w sid :
  (authSessions w !! sid = None /\
   getValidAccessToken env sid w =
     (Throw (Error_ "Not authenticated. Please authenticate with Spotify first."), w)) \/
  (exists s, authSessions w !! sid = Some s /\
     clock env (clock_reads w) < expiresAt s /\
     getValidAccessToken env sid w = (Return (accessToken s), after_check w)) \/
  (exists s a e, authSessions w !! sid = Some s /\
     expiresAt s <= clock env (clock_reads w) /\
     getValidAccessToken env sid w = (Return a, after_refresh env w sid s a e)) \/
  (exists s err, authSessions w !! sid = Some s /\
     expiresAt s <= clock env (clock_reads w) /\
     getValidAccessToken env sid w = (Throw err, after_failed_refresh env w s)).
Proof.
  destruct (authSessions w !! sid) as [s|] eqn:Hs.
  - right. destruct (Z.lt_ge_cases (clock env (clock_reads w)) (expiresAt s)) as [Hlt|Hge].
    + left. exists s. split; [reflexivity|]. split; [exact Hlt|].
      now apply getValidAccessToken_fresh.
    + right.
      destruct (response_ok (refresh_reply env w s)) eqn:Hok.
      * destruct (body_json (refresh_reply env w s)) as [[a rt e|items total|flags|r]|] eqn:Hj.
        { left. exists s, a, e. split; [reflexivity|]. split; [exact Hge|].
          now apply getValidAccessToken_refreshed with (rt := rt). }
        all: right; exists s; eexists; split; [reflexivity|]; split; [exact Hge|];
          unfold getValidAccessToken, bind, get_session; rewrite Hs; simpl;
          destruct (Z.geb_spec (clock env (clock_reads w)) (expiresAt s)) as [_|Hlt];
            [|lia];
          unfold refreshAccessToken, bind, fetch; simpl; fold (refresh_reply env w s);
          rewrite Hok; simpl; unfold response_json; rewrite Hj; reflexivity.
      * right. exists s. eexists. split; [reflexivity|]. split; [exact Hge|].
        now apply getValidAccessToken_refused.
  - left. split; [reflexivity|].
    unfold getValidAccessToken, bind, get_session. now rewrite Hs.
Qed.

End RefresherStore.

(** X1.  [getValidAccessToken] never touches the pending
    authorizations nor the session of anybody else; when it returns a token,
    that token is the access token stored under [sid] afterwards and the
    refresh token stored there is the one that was there before; when it
    throws, the session store is as it was. *)
Theorem getValidAccessToken_store (env : Env) (w : World) (sid : string) :
  pendingAuthStates (snd (getValidAccessToken env sid w)) = pendingAuthStates w /\
  (forall k, k <> sid ->
     authSessions (snd (getValidAccessToken env sid w)) !! k = authSessions w !! k) /\
  (forall tok, fst (getValidAccessToken env sid w) = Return tok ->
     exists s s',
       authSessions w !! sid = Some s /\
       authSessions (snd (getValidAccessToken env sid w)) !! sid = Some s' /\
       accessToken s' = tok /\ refreshToken s' = refreshToken s) /\
  (forall e, fst (getValidAccessToken env sid w) = Throw e ->
     authSessions (snd (getValidAccessToken env sid w)) = authSessions w).
Proof.
  destruct (getValidAccessToken_cases env w sid)
    as [[Hs H]|[(s & Hs & Hlt & H)|[(s & a & e & Hs & Hge & H)|(s & err & Hs & Hge & H)]]];
    rewrite H; cbn [fst snd after_check after_refresh after_failed_refresh
                    pendingAuthStates authSessions].
  - repeat split; try reflexivity. intros tok Htok. discriminate.
  - split; [reflexivity|]. split; [reflexivity|]. split; [|reflexivity].
    intros tok Htok. inversion Htok; subst. exists s, s. now repeat split.
  - split; [reflexivity|]. split; [intros k Hk; now apply lookup_insert_ne|].
    split; [|intros e' He'; discriminate].
    intros tok Htok. inversion Htok; subst. eexists s, _.
    split; [exact Hs|]. split; [apply lookup_insert_eq|]. split; reflexivity.
  - split; [reflexivity|]. split; [reflexivity|]. split; [|reflexivity].
    intros tok Htok. discriminate.
Qed.

(** *** Invariants of runs *)

Section Steps.

Context (R : World -> World -> Prop).
Hypothesis R_refl : forall w, R w w.
Hypothesis R_trans : forall a b c, R a b -> R b c -> R a c.

Lemma run_ret {A} (a : A) w : R w (snd (ret a w)).
Proof. apply R_refl. Qed.

Lemma run_throw {A} (e : Error) w : R w (snd (@throw A e w)).
Proof. apply R_refl. Qed.

Lemma run_lift {A} (o : Outcome A) w : R w (snd (lift o w)).
Proof. apply R_refl. Qed.

Lemma run_get_session k w : R w (snd (get_session k w)).
Proof. apply R_refl. Qed.

Lemma run_get_pending k w : R w (snd (get_pending k w)).
Proof. apply R_refl. Qed.

Lemma run_bind {A B} (m : Async A) (k : A -> Async B) :
  (forall w, R w (snd (m w))) ->
  (forall a w, R w (snd (k a w))) ->
  forall w, R w (snd (bind m k w)).
Proof.
  intros Hm Hk w. unfold bind. specialize (Hm w).
  destruct (m w) as [[a|e] w1]; cbn [snd] in *.
  - eapply R_trans; [exact Hm | apply Hk].
  - exact Hm.
Qed.

Lemma run_try_catch {A} (m : Async A) (h : Error -> Async A) :
  (forall w, R w (snd (m w))) ->
  (forall e w, R w (snd (h e w))) ->
  forall w, R w (snd (try_catch m h w)).
Proof.
  intros Hm Hh w. unfold try_catch. specialize (Hm w).
  destruct (m w) as [[a|e] w1]; cbn [snd] in *.
  - exact Hm.
  - eapply R_trans; [exact Hm | apply Hh].
Qed.

End Steps.

Lemma sessions_kept_refl w : sessions_kept w w.
Proof. intros k H. exact H. Qed.

Lemma sessions_kept_trans a b c :
  sessions_kept a b -> sessions_kept b c -> sessions_kept a c.
Proof. intros H1 H2 k H. auto. Qed.

Lemma sends_only_refl P w : sends_only P w w.
Proof. exists []. now rewrite app_nil_r. Qed.

Lemma sends_only_trans P a b c :
  sends_only P a b -> sends_only P b c -> sends_only P a c.
Proof.
  intros (r1 & H1 & P1) (r2 & H2 & P2). exists (r1 ++ r2). split.
  - now rewrite H2, H1, app_assoc.
  - rewrite forallb_app. now rewrite P1, P2.
Qed.

Lemma orderly_refl P w : orderly P w w.
Proof. split; [apply sessions_kept_refl | apply sends_only_refl]. Qed.

Lemma orderly_trans P a b c : orderly P a b -> orderly P b c -> orderly P a c.
Proof.
  intros [S1 L1] [S2 L2]. split;
    [eapply sessions_kept_trans | eapply sends_only_trans]; eassumption.
Qed.

Lemma isolated_refl sid w : isolated sid w w.
Proof. split; [reflexivity | intros; reflexivity]. Qed.

Lemma isolated_trans sid a b c : isolated sid a b -> isolated sid b c -> isolated sid a c.
Proof.
  intros [P1 S1] [P2 S2]. split; [congruence|].
  intros k Hk. rewrite (S2 k Hk). now apply S1.
Qed.

Lemma is_api_request_api_request tok path method body :
  is_api_request (api_request tok ("/" +:+ path) method body) = true.
Proof.
  unfold is_api_request, api_request. cbn [req_url req_authorization].
  replace (SPOTIFY_API_BASE +:+ "/" +:+ path) with ((SPOTIFY_API_BASE +:+ "/") +:+ path)
    by reflexivity.
  now rewrite prefix_append.
Qed.

Lemma is_token_request_token_request env form :
  is_token_request env (token_request env form) = true.
Proof.
  unfold is_token_request, token_request. cbn [req_url req_method req_authorization].
  now rewrite !String.eqb_refl.
Qed.

Create HintDb runs.

Section OrderlyRuns.

Context (env : Env) (P : Request -> bool).

Lemma orderly_same w w' :
  authSessions w' = authSessions w -> fetched w' = fetched w -> orderly P w w'.
Proof.
  intros Hs Hf. split.
  - intros k Hk. now rewrite Hs.
  - exists []. now rewrite app_nil_r.
Qed.

Lemma orderly_Date_now w : orderly P w (snd (Date_now env w)).
Proof. now apply orderly_same. Qed.

Lemma orderly_randomBytes w : orderly P w (snd (randomBytes16_hex env w)).
Proof. now apply orderly_same. Qed.

Lemma orderly_set_pending f w : orderly P w (snd (set_pending f w)).
Proof. now apply orderly_same. Qed.

Lemma orderly_set_sessions k v w : orderly P w (snd (set_sessions (insert k v) w)).
Proof.
  split.
  - intros j Hj. cbn [snd set_sessions authSessions].
    destruct (decide (k = j)) as [->|Hne].
    + rewrite lookup_insert_eq. eauto.
    + now rewrite lookup_insert_ne.
  - exists []. cbn [snd set_sessions fetched]. now rewrite app_nil_r.
Qed.

Lemma orderly_fetch r w : P r = true -> orderly P w (snd (fetch env r w)).
Proof.
  intros Hr. split.
  - intros k Hk. exact Hk.
  - exists [r]. split; [reflexivity|]. cbn. now rewrite Hr.
Qed.

Lemma orderly_response_json r w : orderly P w (snd (response_json r w)).
Proof. unfold response_json. destruct (body_json r); apply orderly_refl. Qed.

End OrderlyRuns.

#[local] Hint Resolve orderly_Date_now orderly_randomBytes orderly_set_pending
  orderly_set_sessions orderly_fetch orderly_response_json
  is_token_request_token_request is_api_request_api_request : runs.

(** Steps through a run for the relation with reflexivity [Rr] and
    transitivity [Rt]. *)
Ltac run_with Rr Rt :=
  repeat (intros;
    first
      [ apply (run_ret _ Rr) | apply (run_throw _ Rr) | apply (run_lift _ Rr)
      | apply (run_get_session _ Rr) | apply (run_get_pending _ Rr)
      | solve [eauto with runs]
      | apply (run_bind _ Rt) | apply (run_try_catch _ Rt)
      | match goal with
        | |- context [match search_endpoint ?q ?t ?l ?m with _ => _ end] =>
            unfold search_endpoint; destruct (encodeURIComponent q); cbv beta iota
        end
      | match goal with
        | |- context [if ?b then _ else _] => destruct b
        | |- context [match ?x with _ => _ end] => destruct x
        end ]).

Section OrderlyProgram.

Context (env : Env) (P : Request -> bool).
Hypothesis P_token : forall r, is_token_request env r = true -> P r = true.

Lemma orderly_getValidAccessToken sid w :
  orderly P w (snd (getValidAccessToken env sid w)).
Proof.
  revert w. unfold getValidAccessToken, refreshAccessToken, refresh_request.
  run_with (orderly_refl P) (orderly_trans P).
Qed.

End OrderlyProgram.

Lemma is_api_request_slash tok path method body :
  is_api_request (api_request tok (String "/" path) method body) = true.
Proof. exact (is_api_request_api_request tok path method body). Qed.

Lemma is_api_get_slash tok path body :
  is_api_get (api_request tok (String "/" path) GET body) = true.
Proof. unfold is_api_get. now rewrite is_api_request_slash. Qed.

Lemma bind_lift_Return {A B} (a : A) (k : A -> Async B) w :
  bind (lift (Return a)) k w = k a w.
Proof. reflexivity. Qed.

Lemma bind_lift_Throw {A B} (e : Error) (k : A -> Async B) w :
  bind (lift (Throw e)) k w = (Throw e, w).
Proof. reflexivity. Qed.

#[local] Hint Resolve is_api_request_slash is_api_get_slash : runs.

Section OrderlyTools.

Context (env : Env) (P : Request -> bool).
Hypothesis P_token : forall r, is_token_request env r = true -> P r = true.

Lemma orderly_spotifyApiRequest sid endpoint method body w :
  (forall tok, P (api_request tok endpoint method body) = true) ->
  orderly P w (snd (spotifyApiRequest env sid endpoint method body w)).
Proof.
  intros Hr. revert w. unfold spotifyApiRequest.
  pose proof (orderly_getValidAccessToken env P P_token sid) as Htok.
  run_with (orderly_refl P) (orderly_trans P).
Qed.

(** The read-only tools need [P] on GET requests to the API only. *)
Lemma orderly_fetch_tracks sid args w :
  (forall r, is_api_get r = true -> P r = true) ->
  orderly P w (snd (fetch_tracks env sid args w)).
Proof.
  intros Hget. revert w. unfold fetch_tracks.
  assert (Hreq : forall path w, orderly P w
            (snd (spotifyApiRequest env sid (String "/" path) GET NoBody w))).
  { intros path w. apply orderly_spotifyApiRequest. intros tok. apply Hget.
    apply is_api_get_slash. }
  unfold playlist_page_endpoint, saved_status_endpoint.
  run_with (orderly_refl P) (orderly_trans P).
Qed.

Lemma orderly_search sid args w :
  (forall r, is_api_get r = true -> P r = true) ->
  orderly P w (snd (search env sid args w)).
Proof.
  intros Hget. revert w. unfold search.
  assert (Hreq : forall path w, orderly P w
            (snd (spotifyApiRequest env sid (String "/" path) GET NoBody w))).
  { intros path w. apply orderly_spotifyApiRequest. intros tok. apply Hget.
    apply is_api_get_slash. }
  run_with (orderly_refl P) (orderly_trans P).
Qed.

Lemma orderly_library_request sid t method body w :
  (forall r, is_api_request r = true -> P r = true) ->
  orderly P w
    (snd (bind (lift (library_endpoint t))
               (fun endpoint => spotifyApiRequest env sid endpoint method body) w)).
Proof.
  intros Hapi.
  destruct t; cbn [library_endpoint];
    rewrite ?bind_lift_Return, ?bind_lift_Throw; try apply orderly_refl;
    apply orderly_spotifyApiRequest; intros tok; apply Hapi;
    apply is_api_request_slash.
Qed.

Lemma orderly_add_to_library sid args w :
  (forall r, is_api_request r = true -> P r = true) ->
  orderly P w (snd (add_to_library env sid args w)).
Proof.
  intros Hapi. unfold add_to_library.
  destruct args as [|t i|p o l|q ts l m]; cbn [addToLibraryParser];
    rewrite ?bind_lift_Return, ?bind_lift_Throw; try apply orderly_refl.
  cbn [fst snd].
  pose proof (orderly_library_request sid t PUT (JsonIds [i]) w Hapi) as H.
  unfold bind in *. cbn [fst snd] in *.
  destruct (lift (library_endpoint t) w) as [[ep|e] w1]; cbn [snd] in *; [|exact H].
  destruct (spotifyApiRequest env sid ep PUT (JsonIds [i]) w1) as [[j|e] w2];
    exact H.
Qed.

Lemma orderly_remove_from_library sid args w :
  (forall r, is_api_request r = true -> P r = true) ->
  orderly P w (snd (remove_from_library env sid args w)).
Proof.
  intros Hapi. unfold remove_from_library.
  destruct args as [|t i|p o l|q ts l m]; cbn [removeFromLibraryParser];
    rewrite ?bind_lift_Return, ?bind_lift_Throw; try apply orderly_refl.
  cbn [fst snd].
  pose proof (orderly_library_request sid t DELETE (JsonIds [i]) w Hapi) as H.
  unfold bind in *. cbn [fst snd] in *.
  destruct (lift (library_endpoint t) w) as [[ep|e] w1]; cbn [snd] in *; [|exact H].
  destruct (spotifyApiRequest env sid ep DELETE (JsonIds [i]) w1) as [[j|e] w2];
    exact H.
Qed.

End OrderlyTools.

Section OrderlyEntryPoints.

Context (env : Env).

Lemma known_token r : is_token_request env r = true -> known_request env r = true.
Proof. unfold known_request. now intros ->. Qed.

Lemma known_api r : is_api_request r = true -> known_request env r = true.
Proof. unfold known_request. intros ->. apply orb_true_r. Qed.

Lemma reading_token r : is_token_request env r = true -> reading_request env r = true.
Proof. unfold reading_request. now intros ->. Qed.

Lemma reading_get r : is_api_get r = true -> reading_request env r = true.
Proof. unfold reading_request. intros ->. apply orb_true_r. Qed.

Lemma known_get r : is_api_get r = true -> known_request env r = true.
Proof.
  unfold is_api_get. intros H. apply andb_true_iff in H as [H _]. now apply known_api.
Qed.

Lemma orderly_handleToolCall sid toolName args w :
  orderly (known_request env) w (snd (handleToolCall env sid toolName args w)).
Proof.
  unfold handleToolCall.
  destruct (String.eqb toolName "add_to_library");
    [apply orderly_add_to_library; [exact known_token | exact known_api]|].
  destruct (String.eqb toolName "remove_from_library");
    [apply orderly_remove_from_library; [exact known_token | exact known_api]|].
  destruct (String.eqb toolName "fetch_tracks");
    [apply orderly_fetch_tracks; [exact known_token | exact known_get]|].
  destruct (String.eqb toolName "search");
    [apply orderly_search; [exact known_token | exact known_get]|].
  apply orderly_refl.
Qed.

Lemma orderly_callToolHandler sid toolName args w :
  orderly (known_request env) w (snd (callToolHandler env sid toolName args w)).
Proof.
  revert w. unfold callToolHandler.
  pose proof (orderly_handleToolCall sid toolName args) as Hsw.
  run_with (orderly_refl (known_request env)) (orderly_trans (known_request env)).
Qed.

Lemma orderly_handleAuthCallback code state error w :
  orderly (known_request env) w (snd (handleAuthCallback env code state error w)).
Proof.
  revert w. unfold handleAuthCallback, exchangeCodeForToken, exchange_request.
  pose proof known_token as Htok.
  run_with (orderly_refl (known_request env)) (orderly_trans (known_request env)).
Qed.

Lemma orderly_worker_fetch html http_method pathname body w :
  orderly (known_request env) w (snd (worker_fetch env html http_method pathname body w)).
Proof.
  revert w. unfold worker_fetch, rpc, resources_read.
  pose proof (fun u t a => orderly_handleToolCall u t a) as Hsw.
  run_with (orderly_refl (known_request env)) (orderly_trans (known_request env)).
Qed.

End OrderlyEntryPoints.

Section IsolatedRuns.

Context (env : Env) (sid : string).

Lemma isolated_same w w' :
  authSessions w' = authSessions w -> pendingAuthStates w' = pendingAuthStates w ->
  isolated sid w w'.
Proof. intros Hs Hp. split; [exact Hp|]. intros k _. now rewrite Hs. Qed.

Lemma isolated_Date_now w : isolated sid w (snd (Date_now env w)).
Proof. now apply isolated_same. Qed.

Lemma isolated_fetch r w : isolated sid w (snd (fetch env r w)).
Proof. now apply isolated_same. Qed.

Lemma isolated_response_json r w : isolated sid w (snd (response_json r w)).
Proof. unfold response_json. destruct (body_json r); apply isolated_refl. Qed.

Lemma isolated_set_sessions v w : isolated sid w (snd (set_sessions (insert sid v) w)).
Proof.
  split; [reflexivity|]. intros k Hk. cbn [snd set_sessions authSessions].
  now apply lookup_insert_ne.
Qed.

End IsolatedRuns.

#[local] Hint Resolve isolated_Date_now isolated_fetch isolated_response_json
  isolated_set_sessions : runs.

Section IsolatedTools.

Context (env : Env) (sid : string).

Lemma isolated_getValidAccessToken w :
  isolated sid w (snd (getValidAccessToken env sid w)).
Proof.
  revert w. unfold getValidAccessToken, refreshAccessToken.
  run_with (isolated_refl sid) (isolated_trans sid).
Qed.

Lemma isolated_spotifyApiRequest endpoint method body w :
  isolated sid w (snd (spotifyApiRequest env sid endpoint method body w)).
Proof.
  revert w. unfold spotifyApiRequest.
  pose proof isolated_getValidAccessToken as Htok.
  run_with (isolated_refl sid) (isolated_trans sid).
Qed.

Lemma isolated_handleToolCall toolName args w :
  isolated sid w (snd (handleToolCall env sid toolName args w)).
Proof.
  revert w.
  unfold handleToolCall, add_to_library, remove_from_library, fetch_tracks, search.
  pose proof isolated_spotifyApiRequest as Hreq.
  run_with (isolated_refl sid) (isolated_trans sid).
Qed.

End IsolatedTools.

(** X3.  Whatever the entry point (the server's tool handler,
    the worker's switch and [fetch] handler, the OAuth callback) and
    whatever its input, every request it sends is either a POST to the token
    endpoint carrying the client credentials, or a request to a path under
    the API base carrying a bearer token: the client secret never goes to
    the API and a bearer token never goes to the token endpoint. *)
Theorem requests_confined (env : Env) :
  (forall sid toolName args w,
     sends_only (known_request env) w (snd (callToolHandler env sid toolName args w))) /\
  (forall sid toolName args w,
     sends_only (known_request env) w (snd (handleToolCall env sid toolName args w))) /\
  (forall code state error w,
     sends_only (known_request env) w (snd (handleAuthCallback env code state error w))) /\
  (forall html http_method pathname body w,
     sends_only (known_request env) w
       (snd (worker_fetch env html http_method pathname body w))).
Proof.
  split; [|split; [|split]]; intros.
  - apply orderly_callToolHandler.
  - apply orderly_handleToolCall.
  - apply orderly_handleAuthCallback.
  - apply orderly_worker_fetch.
Qed.

(** X4.  No entry point ever removes a session: a session
    identifier that has a session before a tool call, a callback or a worker
    request still has one afterwards. *)
Theorem sessions_never_removed (env : Env) :
  (forall sid toolName args w,
     sessions_kept w (snd (callToolHandler env sid toolName args w))) /\
  (forall sid toolName args w,
     sessions_kept w (snd (handleToolCall env sid toolName args w))) /\
  (forall code state error w,
     sessions_kept w (snd (handleAuthCallback env code state error w))) /\
  (forall html http_method pathname body w,
     sessions_kept w (snd (worker_fetch env html http_method pathname body w))).
Proof.
  split; [|split; [|split]]; intros.
  - apply orderly_callToolHandler.
  - apply orderly_handleToolCall.
  - apply orderly_handleAuthCallback.
  - apply orderly_worker_fetch.
Qed.

(** X5.  Running a tool for [sid], through the worker's switch
    or through the server's handler when [sid] has a session, leaves the
    pending authorizations and every other caller's session exactly as they
    were. *)
Theorem tool_call_isolated (env : Env) (sid toolName : string) (args : ToolArgs)
    (w : World) :
  isolated sid w (snd (handleToolCall env sid toolName args w)) /\
  (is_Some (authSessions w !! sid) ->
   isolated sid w (snd (callToolHandler env sid toolName args w))).
Proof.
  split; [apply isolated_handleToolCall|].
  intros Hs. rewrite (callToolHandler_authenticated env w sid _ _ Hs).
  apply isolated_handleToolCall.
Qed.

Lemma tool_call_isolated_witness :
  authSessions
    (snd (callToolHandler (demo_env true) "late" "fetch_tracks"
            (FetchTracksArgs "pl" None None) demo_world)) !! "live"
    = Some (mkSession "live-token" "live-refresh" 5000000).
Proof.
  refine (eq_trans
    (proj2 (proj2 (tool_call_isolated (demo_env true) "late" "fetch_tracks"
       (FetchTracksArgs "pl" None None) demo_world) _) "live" _) _).
  - vm_compute; eauto.
  - discriminate.
  - vm_compute; reflexivity.
Defined.

(** *** Tools and their requests *)

Section ToolRuns.

Context (env : Env).

(** With a token in hand the outcome is read off the reply to the one
    request. *)
Lemma spotifyApiRequest_outcome w sid endpoint method body tok w1 :
  getValidAccessToken env sid w = (Return tok, w1) ->
  spotifyApiRequest env sid endpoint method body w =
    (api_outcome (upstream env (length (fetched w1))
                    (api_request tok endpoint method body)),
     after_fetch w1 (api_request tok endpoint method body)).
Proof.
  intros Htok. unfold spotifyApiRequest, bind. rewrite Htok. unfold fetch, api_outcome.
  fold (after_fetch w1 (api_request tok endpoint method body)).
  destruct (negb (response_ok _)); [reflexivity|].
  destruct (status _ =? 204)%Z; [reflexivity|].
  unfold response_json. now destruct (body_json _).
Qed.

Lemma getValidAccessToken_no_session w sid :
  authSessions w !! sid = None ->
  getValidAccessToken env sid w = (Throw not_authenticated, w).
Proof.
  intros Hs. unfold getValidAccessToken, bind, get_session. now rewrite Hs.
Qed.

Lemma orderly_gate P sid toolName args :
  (forall w, orderly P w (snd (handleToolCall env sid toolName args w))) ->
  forall w, orderly P w (snd (callToolHandler env sid toolName args w)).
Proof.
  intros Hsw. unfold callToolHandler.
  run_with (orderly_refl P) (orderly_trans P).
Qed.

Lemma track_ids_null items : In None items -> track_ids items = Throw TypeError.
Proof.
  induction items as [|[t|] rest IH]; intros Hin; simpl.
  - destruct Hin.
  - destruct Hin as [Hin|Hin]; [discriminate|]. now rewrite (IH Hin).
  - reflexivity.
Qed.

Lemma project_items_ids saved items :
  forall index ids views,
    track_ids items = Return ids ->
    project_items saved index items = Return views ->
    map ptv_id views = ids.
Proof.
  induction items as [|[t|] rest IH]; intros index ids views Hids Hv; simpl in *.
  - inversion Hids; inversion Hv; reflexivity.
  - destruct (track_ids rest) as [ids'|] eqn:Hrest; [|discriminate].
    destruct (saved_at saved index) as [sv|]; [|discriminate].
    destruct (project_items saved (S index) rest) as [vs|] eqn:Hvs; [|discriminate].
    inversion Hids; inversion Hv; subst. simpl. f_equal. eapply IH; eauto.
  - discriminate.
Qed.

End ToolRuns.

(** X6.  A declared tool whose [readOnlyHint] is set sends
    nothing but GET requests to the API, apart from the refresh of the
    token. *)
Theorem read_only_tools_only_get
    (env : Env) (d : ToolDecl) (sid : string) (args : ToolArgs) (w : World) :
  In d tools -> readOnlyHint d = true ->
  sends_only (reading_request env) w
    (snd (handleToolCall env sid (tool_name d) args w)) /\
  sends_only (reading_request env) w
    (snd (callToolHandler env sid (tool_name d) args w)).
Proof.
  intros Hd Hro.
  assert (Hsw : forall w, orderly (reading_request env) w
                  (snd (handleToolCall env sid (tool_name d) args w))).
  { intros w0. simpl in Hd.
    destruct Hd as [<-|[<-|[<-|[<-|[]]]]]; try discriminate; cbn [tool_name].
    - rewrite handleToolCall_fetch_tracks.
      apply orderly_fetch_tracks; [apply reading_token | apply reading_get].
    - rewrite handleToolCall_search.
      apply orderly_search; [apply reading_token | apply reading_get]. }
  split; [apply Hsw | now apply orderly_gate].
Qed.

Lemma read_only_tools_only_get_witness :
  sends_only (reading_request (demo_env true)) demo_world
    (snd (callToolHandler (demo_env true) "late" "fetch_tracks"
            (FetchTracksArgs "pl" None None) demo_world)).
Proof.
  refine (proj2 (read_only_tools_only_get (demo_env true)
    (mkToolDecl "fetch_tracks" true false false true) "late"
    (FetchTracksArgs "pl" None None) demo_world _ _)).
  - simpl; auto.
  - reflexivity.
Defined.

(** X7.  A tool name that is not declared is answered with
    "Unknown tool: name" by the worker's switch, and by the server's handler
    when the caller has a session; nothing is sent and nothing changes. *)
Theorem unknown_tool_rejected
    (env : Env) (sid name : string) (args : ToolArgs) (w : World) :
  (forall d, In d tools -> tool_name d <> name) ->
  handleToolCall env sid name args w = (Throw (Error_ ("Unknown tool: " +:+ name)), w) /\
  (is_Some (authSessions w !! sid) ->
   callToolHandler env sid name args w = (Throw (Error_ ("Unknown tool: " +:+ name)), w)).
Proof.
  intros Hname.
  assert (Hsw : handleToolCall env sid name args w
                = (Throw (Error_ ("Unknown tool: " +:+ name)), w)).
  { unfold handleToolCall.
    destruct (String.eqb_spec name "add_to_library") as [->|_];
      [exfalso; apply (Hname (mkToolDecl "add_to_library" true false false false));
         simpl; auto|].
    destruct (String.eqb_spec name "remove_from_library") as [->|_];
      [exfalso; apply (Hname (mkToolDecl "remove_from_library" true true false false));
         simpl; auto|].
    destruct (String.eqb_spec name "fetch_tracks") as [->|_];
      [exfalso; apply (Hname (mkToolDecl "fetch_tracks" true false false true));
         simpl; auto|].
    destruct (String.eqb_spec name "search") as [->|_];
      [exfalso; apply (Hname (mkToolDecl "search" true false false true));
         simpl; auto|].
    reflexivity. }
  split; [exact Hsw|].
  intros Hs. now rewrite (callToolHandler_authenticated env w sid _ _ Hs).
Qed.

Lemma unknown_tool_rejected_witness :
  handleToolCall (demo_env true) "live" "create_playlist" NoArgs demo_world
    = (Throw (Error_ "Unknown tool: create_playlist"), demo_world).
Proof.
  refine (proj1 (unknown_tool_rejected (demo_env true) "live" "create_playlist"
    NoArgs demo_world _)).
  intros d Hd. simpl in Hd.
  destruct Hd as [<-|[<-|[<-|[<-|[]]]]]; discriminate.
Defined.

(** X8.  The worker's switch has no authentication
    gate: for a user without a stored token every tool that needs the API
    throws "Not authenticated. Please authenticate with Spotify first."
    without sending anything.  A search is examined first: an audiobook
    query is still answered with the refusal text, and a query that
    [encodeURIComponent] does not accept throws its [URIError] while the
    request is being written, before the token is looked up. *)
Theorem worker_requires_token (env : Env) (userId : string) (w : World) :
  authSessions w !! userId = None ->
  (forall t i endpoint, library_endpoint t = Return endpoint ->
     handleToolCall env userId "add_to_library" (LibraryArgs t i) w
       = (Throw not_authenticated, w) /\
     handleToolCall env userId "remove_from_library" (LibraryArgs t i) w
       = (Throw not_authenticated, w)) /\
  (forall p o l, within 100 l = true ->
     handleToolCall env userId "fetch_tracks" (FetchTracksArgs p o l) w
       = (Throw not_authenticated, w)) /\
  (forall q ts l m, within 50 l = true ->
     handleToolCall env userId "search" (SearchArgs q ts l m) w
       = (if includes (toLowerCase q) "audiobook"
          then Return (text_result refusal_text)
          else match encodeURIComponent q with
               | Some _ => Throw not_authenticated
               | None => Throw URIError
               end, w)).
Proof.
  intros Hs.
  pose proof (getValidAccessToken_no_session env w userId Hs) as Htok.
  split; [|split].
  - intros t i endpoint Hep. split.
    + rewrite handleToolCall_add. now apply add_to_library_no_token with (endpoint := endpoint).
    + rewrite handleToolCall_remove.
      now apply remove_from_library_no_token with (endpoint := endpoint).
  - intros p o l Hl. rewrite handleToolCall_fetch_tracks.
    unfold fetch_tracks, bind, lift. cbn [fetchTracksParser]. rewrite Hl.
    now rewrite (spotifyApiRequest_no_token env w userId _ GET NoBody _ w Htok).
  - intros q ts l m Hl. rewrite handleToolCall_search.
    unfold search, bind, lift. cbn [searchParser]. rewrite Hl.
    destruct (includes (toLowerCase q) "audiobook"); [reflexivity|].
    unfold search_endpoint. destruct (encodeURIComponent q) as [e|]; [|reflexivity].
    now rewrite (spotifyApiRequest_no_token env w userId _ GET NoBody _ w Htok).
Qed.

Lemma worker_requires_token_witness :
  handleToolCall (demo_env true) "stranger" "fetch_tracks"
      (FetchTracksArgs "pl" None (Some 100)) demo_world
    = (Throw not_authenticated, demo_world) /\
  handleToolCall (demo_env true) "stranger" "search"
      (SearchArgs ("AUDIOBOO" +:+ kelvin_sign) None None None) demo_world
    = (Return (text_result refusal_text), demo_world) /\
  handleToolCall (demo_env true) "stranger" "search"
      (SearchArgs ("abba " +:+ lone_D800) None None None) demo_world
    = (Throw URIError, demo_world) /\
  handleToolCall (demo_env true) "stranger" "search"
      (SearchArgs "abba" None None None) demo_world
    = (Throw not_authenticated, demo_world).
Proof.
  pose proof (worker_requires_token (demo_env true) "stranger" demo_world
    ltac:(vm_compute; reflexivity)) as (_ & Hfetch & Hsearch).
  split; [exact (Hfetch "pl" None (Some 100) eq_refl)|].
  split; [exact (Hsearch ("AUDIOBOO" +:+ kelvin_sign) None None None eq_refl)|].
  split; [exact (Hsearch ("abba " +:+ lone_D800) None None None eq_refl)|].
  exact (Hsearch "abba" None None None eq_refl).
Defined.

(** X9.  For a supported item type and a caller whose
    token [tok] was obtained, add_to_library sends one PUT (and
    remove_from_library one DELETE) to the endpoint of the type with body
    [ids = [itemId]], and answers by the reply: the "Spotify API error"
    with status and body on a non-2xx reply; the success message on a 204
    or on a 2xx reply with a JSON body; a [SyntaxError] on any other 2xx
    reply, although the request went out. *)
Theorem library_call_outcome
    (env : Env) (sid : string) (t : ItemType) (i endpoint tok : string)
    (w w1 : World) :
  library_endpoint t = Return endpoint ->
  getValidAccessToken env sid w = (Return tok, w1) ->
  handleToolCall env sid "add_to_library" (LibraryArgs t i) w =
    (match api_outcome (upstream env (length (fetched w1))
                          (api_request tok endpoint PUT (JsonIds [i]))) with
     | Return _ => Return (text_result ("Successfully added " +:+ item_type_name t
                                        +:+ " to your library."))
     | Throw e => Throw e
     end,
     after_fetch w1 (api_request tok endpoint PUT (JsonIds [i]))) /\
  handleToolCall env sid "remove_from_library" (LibraryArgs t i) w =
    (match api_outcome (upstream env (length (fetched w1))
                          (api_request tok endpoint DELETE (JsonIds [i]))) with
     | Return _ => Return (text_result ("Successfully removed " +:+ item_type_name t
                                        +:+ " from your library."))
     | Throw e => Throw e
     end,
     after_fetch w1 (api_request tok endpoint DELETE (JsonIds [i]))) /\
  (forall reply,
     api_outcome reply = Throw SyntaxError <->
     response_ok reply = true /\ status reply <> 204 /\ body_json reply = None).
Proof.
  intros Hep Htok. split; [|split].
  - rewrite handleToolCall_add. unfold add_to_library, bind, lift.
    cbn [addToLibraryParser fst snd]. rewrite Hep.
    rewrite (spotifyApiRequest_outcome env w sid endpoint PUT (JsonIds [i]) tok w1 Htok).
    now destruct (api_outcome _).
  - rewrite handleToolCall_remove. unfold remove_from_library, bind, lift.
    cbn [removeFromLibraryParser fst snd]. rewrite Hep.
    rewrite (spotifyApiRequest_outcome env w sid endpoint DELETE (JsonIds [i]) tok w1 Htok).
    now destruct (api_outcome _).
  - intros reply. unfold api_outcome.
    destruct (response_ok reply); cbn [negb].
    + destruct (Z.eqb_spec (status reply) 204) as [H204|H204].
      * split; [discriminate | intros (_ & H & _); contradiction].
      * destruct (body_json reply); split; try discriminate; intros H; easy.
    + split; [discriminate | intros (H & _); discriminate].
Qed.

Lemma library_call_outcome_witness :
  handleToolCall (demo_env true) "live" "add_to_library" (LibraryArgs track "t1")
      demo_world
    = (Return (text_result "Successfully added track to your library."),
       after_fetch (after_check demo_world)
         (api_request "live-token" "/me/tracks" PUT (JsonIds ["t1"]))).
Proof.
  refine (eq_trans (proj1 (library_call_outcome (demo_env true) "live" track "t1"
    "/me/tracks" "live-token" demo_world (after_check demo_world) _ _)) _).
  - reflexivity.
  - vm_compute; reflexivity.
  - vm_compute; reflexivity.
Defined.

(** X10.  fetch_tracks with a [limit] above 100 is refused
    before anything is sent.  An accepted call with safe-integer [offset]
    and [limit] and a token obtained asks first for the playlist page, at
    [/playlists/<playlistId>/tracks] with the playlist id written as it
    is.  When the id holds neither [?] nor [#], the query of that request
    is [offset=..&limit=..], with [offset] 0 when absent and the given
    number otherwise, and a [limit] that is 100 when absent or 0, the given
    number otherwise, and never above 100. *)
Theorem fetch_tracks_page_request
    (env : Env) (sid p : string) (o l : option Z) (w : World) :
  (within 100 l = false ->
     handleToolCall env sid "fetch_tracks" (FetchTracksArgs p o l) w
       = (Throw ZodError, w)) /\
  (within 100 l = true -> safe_arg o = true -> safe_arg l = true ->
     forall tok w1, getValidAccessToken env sid w = (Return tok, w1) ->
     exists rest,
       fetched (snd (handleToolCall env sid "fetch_tracks" (FetchTracksArgs p o l) w))
         = fetched w1 ++
           api_request tok
             ("/playlists/" +:+ p +:+ "/tracks?offset=" +:+ num_to_string (or_num o 0)
              +:+ "&limit=" +:+ num_to_string (or_num l 100))
             GET NoBody :: rest /\
       (plain_segment p = true ->
          url_query ("https://api.spotify.com/v1" +:+ "/playlists/" +:+ p
                     +:+ "/tracks?offset=" +:+ num_to_string (or_num o 0)
                     +:+ "&limit=" +:+ num_to_string (or_num l 100))
            = "offset=" +:+ num_to_string (or_num o 0)
              +:+ "&limit=" +:+ num_to_string (or_num l 100))) /\
  (within 100 l = true -> or_num l 100 <= 100) /\
  (o = None -> or_num o 0 = 0) /\
  (forall n, o = Some n -> or_num o 0 = n) /\
  (l = None \/ l = Some 0 -> or_num l 100 = 100) /\
  (forall n, l = Some n -> n <> 0 -> or_num l 100 = n).
Proof.
  split; [|split; [|split; [|split; [|split; [|split]]]]].
  - intros Hl. rewrite handleToolCall_fetch_tracks. unfold fetch_tracks, bind, lift.
    cbn [fetchTracksParser]. now rewrite Hl.
  - intros Hl _ _ tok w1 Htok. rewrite handleToolCall_fetch_tracks.
    destruct (fetch_tracks_run env w sid p o l tok w1 Hl Htok) as [rest Hr].
    exists rest. split; [exact Hr|].
    intros Hp. exact (playlist_page_query p o l Hp).
  - destruct l as [z|]; simpl; [|lia]. intros H. apply Z.leb_le in H.
    destruct (Z.eqb_spec z 0); lia.
  - now intros ->.
  - intros n ->. unfold or_num. now destruct (Z.eqb_spec n 0) as [->|].
  - now intros [-> | ->].
  - intros n -> Hn. unfold or_num. destruct (Z.eqb_spec n 0); [contradiction | reflexivity].
Qed.

Lemma fetch_tracks_page_request_witness :
  handleToolCall (demo_env true) "live" "fetch_tracks"
      (FetchTracksArgs "pl" None (Some 101)) demo_world
    = (Throw ZodError, demo_world) /\
  exists rest,
    fetched (snd (handleToolCall (demo_env true) "live" "fetch_tracks"
                    (FetchTracksArgs "pl" (Some 200) (Some 50)) demo_world))
      = api_request "live-token" "/playlists/pl/tracks?offset=200&limit=50" GET NoBody
        :: rest /\
    url_query "https://api.spotify.com/v1/playlists/pl/tracks?offset=200&limit=50"
      = "offset=200&limit=50".
Proof.
  split.
  - refine (proj1 (fetch_tracks_page_request (demo_env true) "live" "pl" None (Some 101)
      demo_world) _).
    reflexivity.
  - destruct (proj1 (proj2 (fetch_tracks_page_request (demo_env true) "live" "pl"
      (Some 200) (Some 50) demo_world)) eq_refl eq_refl eq_refl
      "live-token" (after_check demo_world) ltac:(vm_compute; reflexivity))
      as [rest [Hrest Hquery]].
    exists rest. split.
    + rewrite Hrest. vm_compute. reflexivity.
    + exact (Hquery ltac:(vm_compute; reflexivity)).
Defined.

Lemma num_to_string_0 : num_to_string 0 = "0".
Proof. vm_compute. reflexivity. Qed.

(** X11.  When the playlist page holds an item whose [track]
    is [null], fetch_tracks throws a [TypeError] right after the page
    request: the saved-status request is never sent. *)
Theorem fetch_tracks_null_track
    (env : Env) (sid p tok : string) (o l : option Z) (w w1 : World)
    (items : list (option Track)) (total : Z) :
  within 100 l = true ->
  getValidAccessToken env sid w = (Return tok, w1) ->
  api_outcome (upstream env (length (fetched w1))
                 (api_request tok (playlist_page_endpoint p o l) GET NoBody))
    = Return (Some (JPage items total)) ->
  In None items ->
  handleToolCall env sid "fetch_tracks" (FetchTracksArgs p o l) w
    = (Throw TypeError,
       after_fetch w1 (api_request tok (playlist_page_endpoint p o l) GET NoBody)).
Proof.
  intros Hl Htok Hpage Hnull. rewrite handleToolCall_fetch_tracks.
  unfold fetch_tracks, bind, lift. cbn [fetchTracksParser]. rewrite Hl.
  rewrite (spotifyApiRequest_outcome env w sid _ GET NoBody tok w1 Htok), Hpage.
  now rewrite (track_ids_null items Hnull).
Qed.

Lemma fetch_tracks_null_track_witness :
  handleToolCall (page_env [Some (sample_track "a"); None] 2) "live" "fetch_tracks"
      (FetchTracksArgs "pl" None None) demo_world
    = (Throw TypeError,
       after_fetch (after_check demo_world)
         (api_request "live-token" (playlist_page_endpoint "pl" None None) GET NoBody)).
Proof.
  refine (fetch_tracks_null_track (page_env [Some (sample_track "a"); None] 2)
    "live" "pl" "live-token" None None demo_world (after_check demo_world)
    [Some (sample_track "a"); None] 2 _ _ _ _).
  - reflexivity.
  - vm_compute; reflexivity.
  - vm_compute; reflexivity.
  - simpl; auto.
Defined.

(** X12.  When fetch_tracks succeeds, the saved-status request
    was made for exactly the ids of the tracks it returns, in their order,
    and the text counts those tracks. *)
Theorem fetch_tracks_asks_returned_ids
    (env : Env) (sid : string) (args : ToolArgs) (w w' : World) (r : ToolResult) :
  handleToolCall env sid "fetch_tracks" args w = (Return r, w') ->
  exists p tracks total w1 saved,
    r = mkToolResult
          ("Loaded " +:+ num_to_string (Z.of_nat (length tracks))
           +:+ " tracks from playlist.")
          (Some (PlaylistTracks p tracks total)) false /\
    spotifyApiRequest env sid
      ("/me/tracks/contains?ids=" +:+ join "," (map ptv_id tracks)) GET NoBody w1
      = (Return saved, w').
Proof.
  rewrite handleToolCall_fetch_tracks. intros Hrun.
  unfold fetch_tracks, bind, lift in Hrun.
  destruct args as [|t i|p o l|q ts l m]; cbn [fetchTracksParser] in Hrun;
    try discriminate.
  destruct (within 100 l); [|discriminate].
  destruct (spotifyApiRequest env sid (playlist_page_endpoint p o l) GET NoBody w)
    as [[[[a rt e|items total|flags|sr]|]|e] w1] eqn:Hpage; try discriminate.
  destruct (track_ids items) as [ids|e] eqn:Hids; [|discriminate].
  destruct (spotifyApiRequest env sid (saved_status_endpoint ids) GET NoBody w1)
    as [[saved|e] w2] eqn:Hsaved; [|discriminate].
  destruct (project_items saved 0 items) as [tracks|e] eqn:Hproj; [|discriminate].
  unfold ret in Hrun. inversion Hrun; subst r w'. clear Hrun.
  exists p, tracks, total, w1, saved. split; [reflexivity|].
  rewrite (project_items_ids saved items 0 ids tracks Hids Hproj). exact Hsaved.
Qed.

Lemma fetch_tracks_asks_returned_ids_witness :
  exists r w',
    handleToolCall (demo_env true) "live" "fetch_tracks"
      (FetchTracksArgs "pl" None None) demo_world = (Return r, w') /\
    content_text r = "Loaded 2 tracks from playlist.".
Proof.
  destruct (handleToolCall (demo_env true) "live" "fetch_tracks"
              (FetchTracksArgs "pl" None None) demo_world) as [[r|e] w'] eqn:Hrun;
    [|vm_compute in Hrun; discriminate].
  exists r, w'. split; [reflexivity|].
  destruct (fetch_tracks_asks_returned_ids (demo_env true) "live"
              (FetchTracksArgs "pl" None None) demo_world w' r Hrun)
    as (p & tracks & total & w1 & saved & Hr & _).
  vm_compute in Hrun. inversion Hrun; subst r. reflexivity.
Defined.

(** X13.  When the playlist page has no items, fetch_tracks
    still asks for the saved status, with an empty list of ids; if that call
    returns, whatever it returns, the result is the empty track list with
    "Loaded 0 tracks from playlist.", and if it throws, so does the tool. *)
Theorem fetch_tracks_empty_page
    (env : Env) (sid p : string) (o l : option Z) (w w1 : World) (total : Z) :
  within 100 l = true ->
  spotifyApiRequest env sid (playlist_page_endpoint p o l) GET NoBody w
    = (Return (Some (JPage [] total)), w1) ->
  handleToolCall env sid "fetch_tracks" (FetchTracksArgs p o l) w =
    (match fst (spotifyApiRequest env sid "/me/tracks/contains?ids=" GET NoBody w1) with
     | Return _ => Return (mkToolResult "Loaded 0 tracks from playlist."
                             (Some (PlaylistTracks p [] total)) false)
     | Throw e => Throw e
     end,
     snd (spotifyApiRequest env sid "/me/tracks/contains?ids=" GET NoBody w1)).
Proof.
  intros Hl Hpage. rewrite handleToolCall_fetch_tracks.
  unfold fetch_tracks, bind, lift. cbn [fetchTracksParser]. rewrite Hl, Hpage.
  cbn [track_ids]. change (saved_status_endpoint []) with "/me/tracks/contains?ids=".
  destruct (spotifyApiRequest env sid "/me/tracks/contains?ids=" GET NoBody w1)
    as [[saved|e] w2]; cbn [fst snd project_items]; [|reflexivity].
  unfold ret.
  replace (num_to_string (Z.of_nat (length (@nil PlaylistTrackView)))) with "0"
    by exact (eq_sym num_to_string_0).
  reflexivity.
Qed.

Lemma fetch_tracks_empty_page_witness :
  fst (handleToolCall (page_env [] 0) "live" "fetch_tracks"
         (FetchTracksArgs "pl" None None) demo_world)
    = Return (mkToolResult "Loaded 0 tracks from playlist."
                (Some (PlaylistTracks "pl" [] 0)) false).
Proof.
  rewrite (fetch_tracks_empty_page (page_env [] 0) "live" "pl" None None demo_world
    (after_fetch (after_check demo_world)
       (api_request "live-token" (playlist_page_endpoint "pl" None None) GET NoBody)) 0).
  - vm_compute; reflexivity.
  - reflexivity.
  - vm_compute; reflexivity.
Defined.

(** X14.  When the upstream answers a validated
    non-audiobook search (safe-integer [limit], a query that
    [encodeURIComponent] accepts, so that the request is written) with a
    search document, the tool returns the query and a projection that keeps
    each facet the document has, with its items in order (same ids),
    together with the widget metadata; the text counts the items of the
    tracks, albums, artists and playlists facets. *)
Theorem search_result_projection
    (env : Env) (sid q endpoint tok : string) (ts : option (list ItemType))
    (l : option Z) (m : option string) (w w1 : World) (sr : SearchResults) :
  within 50 l = true ->
  safe_arg l = true ->
  includes (toLowerCase q) "audiobook" = false ->
  search_endpoint q ts l m = Some endpoint ->
  getValidAccessToken env sid w = (Return tok, w1) ->
  api_outcome (upstream env (length (fetched w1))
                 (api_request tok endpoint GET NoBody))
    = Return (Some (JSearch sr)) ->
  exists view,
    handleToolCall env sid "search" (SearchArgs q ts l m) w
      = (Return (mkToolResult
                   ("Found "
                    +:+ num_to_string
                          (Z.of_nat (facet_size (sr_tracks sr) + facet_size (sr_albums sr)
                                     + facet_size (sr_artists sr)
                                     + facet_size (sr_playlists sr)))
                    +:+ " results for " +:+ dquote +:+ q +:+ dquote +:+ ".")
                   (Some (SearchOutcome q view)) true),
         after_fetch w1 (api_request tok endpoint GET NoBody)) /\
    (map th_id <$> sv_tracks view) = (map track_id <$> sr_tracks sr) /\
    (map ah_id <$> sv_albums view) = (map album_id <$> sr_albums sr) /\
    (map arh_id <$> sv_artists view) = (map artist_id <$> sr_artists sr) /\
    (map ph_id <$> sv_playlists view) = (map playlist_id <$> sr_playlists sr).
Proof.
  intros Hl _ Hq He Htok Hreply. exists (search_view sr).
  assert (Hcount : result_count (search_view sr)
                   = (facet_size (sr_tracks sr) + facet_size (sr_albums sr)
                      + facet_size (sr_artists sr) + facet_size (sr_playlists sr))%nat).
  { unfold result_count, search_view. cbn [sv_tracks sv_albums sv_artists sv_playlists].
    destruct (sr_tracks sr), (sr_albums sr), (sr_artists sr), (sr_playlists sr);
      cbn [fmap option_fmap option_map facet_size]; now rewrite ?length_map. }
  split.
  - rewrite handleToolCall_search. unfold search, bind, lift. cbn [searchParser].
    rewrite Hl, Hq, He.
    rewrite (spotifyApiRequest_outcome env w sid _ GET NoBody tok w1 Htok), Hreply.
    cbn [facets]. unfold ret. now rewrite Hcount.
  - unfold search_view. cbn [sv_tracks sv_albums sv_artists sv_playlists].
    destruct (sr_tracks sr), (sr_albums sr), (sr_artists sr), (sr_playlists sr);
      cbn [fmap option_fmap option_map]; rewrite ?map_map; repeat split; reflexivity.
Qed.

Lemma search_result_projection_witness :
  exists view,
    fst (handleToolCall (demo_env true) "live" "search"
           (SearchArgs "daft punk" None None None) demo_world)
      = Return (mkToolResult
                  ("Found 0 results for " +:+ dquote +:+ "daft punk" +:+ dquote +:+ ".")
                  (Some (SearchOutcome "daft punk" view)) true).
Proof.
  destruct (search_result_projection (demo_env true) "live" "daft punk"
    "/search?q=daft%20punk&type=track,album,artist,playlist&limit=20&market=US"
    "live-token" None None None demo_world (after_check demo_world)
    (mkSearchResults (Some []) None None None)) as (view & Hrun & _).
  - reflexivity.
  - reflexivity.
  - vm_compute; reflexivity.
  - vm_compute; reflexivity.
  - vm_compute; reflexivity.
  - vm_compute; reflexivity.
  - exists view. rewrite Hrun. vm_compute. reflexivity.
Defined.

(** *** The OAuth flow *)

Section CallbackRuns.

Context (env : Env).

(** A refused exchange: the error page, the sweep done, no session stored. *)
Lemma handleAuthCallback_refused w code state error c s p :
  present error = None -> present code = Some c -> present state = Some s ->
  pendingAuthStates w !! s = Some p ->
  response_ok (upstream env (length (fetched w)) (exchange_request env c)) = false ->
  handleAuthCallback env code state error w =
    (Return (mkHttpReply 500
       (AuthenticationErrorPage
          ("Failed to exchange code for token: "
           +:+ statusText (upstream env (length (fetched w)) (exchange_request env c))))),
     mkWorld (authSessions w)
       (sweep (clock env (clock_reads w)) (pendingAuthStates w))
       (S (clock_reads w)) (random_draws w)
       (fetched w ++ [exchange_request env c])).
Proof.
  intros He Hc Hst Hp Hok.
  unfold handleAuthCallback. rewrite He, Hc, Hst.
  unfold bind, get_pending. rewrite Hp.
  unfold try_catch, exchangeCodeForToken, bind, fetch, Date_now, set_pending.
  cbn [pendingAuthStates authSessions clock_reads random_draws fetched].
  rewrite Hok. reflexivity.
Qed.

End CallbackRuns.

(** X15.  A callback whose state is stored (however old
    the pending authorization is) and whose code the token endpoint accepts
    sends exactly one request, the exchange; stores under the session
    identifier that asked the session made of the returned tokens, expiring
    [expires_in] seconds after the clock reading that follows the reply;
    deletes the state and the stale pending authorizations; and answers 200. *)
Theorem callback_stores_session
    (env : Env) (w : World) (code state error : option string) (c s : string)
    (p : PendingAuth) (a r : string) (e : Z) :
  present error = None -> present code = Some c -> present state = Some s ->
  pendingAuthStates w !! s = Some p ->
  response_ok (upstream env (length (fetched w)) (exchange_request env c)) = true ->
  body_json (upstream env (length (fetched w)) (exchange_request env c))
    = Some (JToken a r e) ->
  fst (handleAuthCallback env code state error w) = Return (mkHttpReply 200 ConnectedPage) /\
  authSessions (snd (handleAuthCallback env code state error w))
    = <[sessionId p := mkSession a r (clock env (S (clock_reads w)) + e * 1000)]>
        (authSessions w) /\
  pendingAuthStates (snd (handleAuthCallback env code state error w))
    = delete s (sweep (clock env (clock_reads w)) (pendingAuthStates w)) /\
  fetched (snd (handleAuthCallback env code state error w))
    = fetched w ++ [exchange_request env c].
Proof.
  intros He Hc Hst Hp Hok Hj.
  rewrite (handleAuthCallback_granted env w code state error c s p a r e
             He Hc Hst Hp Hok Hj).
  repeat split; reflexivity.
Qed.

Lemma callback_stores_session_witness :
  authSessions
    (snd (handleAuthCallback (demo_env true) (Some "code") (Some "old-state") None
            demo_world)) !! "elsewhere"
    = Some (mkSession "fresh-token" "refresh-2" (1000001 + 3600 * 1000)).
Proof.
  pose proof (callback_stores_session (demo_env true) demo_world
    (Some "code") (Some "old-state") None "code" "old-state"
    (mkPendingAuth "elsewhere" 0) "fresh-token" "refresh-2" 3600
    eq_refl eq_refl eq_refl ltac:(vm_compute; reflexivity)
    ltac:(vm_compute; reflexivity) ltac:(vm_compute; reflexivity)) as (_ & H & _).
  rewrite H. vm_compute. reflexivity.
Defined.

(** X16.  After a granted callback its state is consumed:
    the same callback once more is answered with the invalid-state error and
    changes nothing, whatever the token endpoint would say. *)
Theorem callback_state_is_one_time
    (env : Env) (w : World) (code state error : option string) (c s : string)
    (p : PendingAuth) (a r : string) (e : Z) :
  present error = None -> present code = Some c -> present state = Some s ->
  pendingAuthStates w !! s = Some p ->
  response_ok (upstream env (length (fetched w)) (exchange_request env c)) = true ->
  body_json (upstream env (length (fetched w)) (exchange_request env c))
    = Some (JToken a r e) ->
  handleAuthCallback env code state error
    (snd (handleAuthCallback env code state error w))
  = (Return (mkHttpReply 400 (PlainText "Invalid or expired state parameter")),
     snd (handleAuthCallback env code state error w)).
Proof.
  intros He Hc Hst Hp Hok Hj.
  rewrite (handleAuthCallback_granted env w code state error c s p a r e
             He Hc Hst Hp Hok Hj).
  cbn [snd].
  apply (handleAuthCallback_invalid env _ code state error c s He Hc Hst).
  cbn [pendingAuthStates]. apply lookup_delete_eq.
Qed.

Lemma callback_state_is_one_time_witness :
  fst (handleAuthCallback (demo_env true) (Some "code") (Some "new-state") None
         (snd (handleAuthCallback (demo_env true) (Some "code") (Some "new-state") None
                 demo_world)))
    = Return (mkHttpReply 400 (PlainText "Invalid or expired state parameter")).
Proof.
  pose proof (callback_state_is_one_time (demo_env true) demo_world
    (Some "code") (Some "new-state") None "code" "new-state"
    (mkPendingAuth "visitor" 999000) "fresh-token" "refresh-2" 3600
    eq_refl eq_refl eq_refl ltac:(vm_compute; reflexivity)
    ltac:(vm_compute; reflexivity) ltac:(vm_compute; reflexivity)) as H.
  rewrite H. reflexivity.
Defined.

(** X17.  When the token endpoint refuses the code, the
    callback answers 500 with "Failed to exchange code for token: " and the
    status text, stores no session, and keeps the state pending unless it is
    more than ten minutes old, so that the authorization can be tried
    again. *)
Theorem callback_exchange_refused
    (env : Env) (w : World) (code state error : option string) (c s : string)
    (p : PendingAuth) :
  present error = None -> present code = Some c -> present state = Some s ->
  pendingAuthStates w !! s = Some p ->
  response_ok (upstream env (length (fetched w)) (exchange_request env c)) = false ->
  fst (handleAuthCallback env code state error w)
    = Return (mkHttpReply 500
        (AuthenticationErrorPage
           ("Failed to exchange code for token: "
            +:+ statusText (upstream env (length (fetched w)) (exchange_request env c))))) /\
  authSessions (snd (handleAuthCallback env code state error w)) = authSessions w /\
  fetched (snd (handleAuthCallback env code state error w))
    = fetched w ++ [exchange_request env c] /\
  (clock env (clock_reads w) - createdAt p <= 10 * 60 * 1000 ->
   pendingAuthStates (snd (handleAuthCallback env code state error w)) !! s = Some p).
Proof.
  intros He Hc Hst Hp Hok.
  rewrite (handleAuthCallback_refused env w code state error c s p He Hc Hst Hp Hok).
  cbn [fst snd authSessions pendingAuthStates fetched].
  split; [reflexivity|]. split; [reflexivity|]. split; [reflexivity|].
  intros Hage. apply sweep_lookup_Some. split; [exact Hp|].
  destruct (stale (clock env (clock_reads w)) p) eqn:Hst'; [|reflexivity].
  apply stale_spec in Hst'. lia.
Qed.

Lemma callback_exchange_refused_witness :
  fst (handleAuthCallback (demo_env false) (Some "code") (Some "new-state") None
         demo_world)
    = Return (mkHttpReply 500
        (AuthenticationErrorPage "Failed to exchange code for token: Bad Request")) /\
  pendingAuthStates
    (snd (handleAuthCallback (demo_env false) (Some "code") (Some "new-state") None
            demo_world)) !! "new-state"
    = Some (mkPendingAuth "visitor" 999000).
Proof.
  pose proof (callback_exchange_refused (demo_env false) demo_world
    (Some "code") (Some "new-state") None "code" "new-state"
    (mkPendingAuth "visitor" 999000) eq_refl eq_refl eq_refl
    ltac:(vm_compute; reflexivity) ltac:(vm_compute; reflexivity)) as (H1 & _ & _ & H4).
  split.
  - rewrite H1. vm_compute. reflexivity.
  - apply H4. vm_compute. discriminate.
Defined.

(** X18.  The authorization prompt and the callback fit
    together: after an unauthenticated tool call for [sid], a callback that
    carries the state of the prompt and a code the token endpoint accepts
    stores a session under [sid], removes the state, and every later tool
    call for [sid] passes the gate and runs the switch. *)
Theorem oauth_round_trip
    (env : Env) (w : World) (sid toolName c a r : string) (args : ToolArgs) (e : Z) :
  authSessions w !! sid = None ->
  random_hex env (random_draws w) <> "" -> c <> "" ->
  response_ok (upstream env (length (fetched w)) (exchange_request env c)) = true ->
  body_json (upstream env (length (fetched w)) (exchange_request env c))
    = Some (JToken a r e) ->
  let prompted := snd (callToolHandler env sid toolName args w) in
  let state := random_hex env (random_draws w) in
  let connected := snd (handleAuthCallback env (Some c) (Some state) None prompted) in
  fst (handleAuthCallback env (Some c) (Some state) None prompted)
    = Return (mkHttpReply 200 ConnectedPage) /\
  authSessions connected !! sid
    = Some (mkSession a r (clock env (S (S (clock_reads w))) + e * 1000)) /\
  pendingAuthStates connected !! state = None /\
  (forall toolName' args',
     callToolHandler env sid toolName' args' connected
       = handleToolCall env sid toolName' args' connected).
Proof.
  intros Hs Hstate Hc Hok Hj prompted state connected.
  assert (Hprompted : prompted =
    mkWorld (authSessions w)
      (<[state := mkPendingAuth sid (clock env (clock_reads w))]> (pendingAuthStates w))
      (S (clock_reads w)) (S (random_draws w)) (fetched w)).
  { subst prompted. unfold callToolHandler, bind, get_session. now rewrite Hs. }
  assert (Hpc : present (Some c) = Some c).
  { simpl. destruct (String.eqb_spec c ""); [contradiction|reflexivity]. }
  assert (Hps : present (Some state) = Some state).
  { simpl. destruct (String.eqb_spec state ""); [contradiction|reflexivity]. }
  assert (Hrun := handleAuthCallback_granted env prompted (Some c) (Some state) None
                    c state (mkPendingAuth sid (clock env (clock_reads w))) a r e
                    eq_refl Hpc Hps).
  rewrite Hprompted in Hrun. cbn [pendingAuthStates fetched] in Hrun.
  specialize (Hrun (lookup_insert_eq _ _ _) Hok Hj).
  rewrite <- Hprompted in Hrun. subst connected. rewrite Hrun.
  cbn [fst snd authSessions pendingAuthStates sessionId].
  rewrite Hprompted. cbn [clock_reads authSessions].
  split; [reflexivity|]. split; [apply lookup_insert_eq|].
  split; [apply lookup_delete_eq|].
  intros toolName' args'. apply callToolHandler_authenticated.
  cbn [authSessions]. rewrite lookup_insert_eq. eauto.
Qed.

Lemma oauth_round_trip_witness :
  authSessions
    (snd (handleAuthCallback (demo_env true) (Some "code")
            (Some "00112233445566778899aabbccddeeff") None
            (snd (callToolHandler (demo_env true) "nobody" "search"
                    (SearchArgs "x" None None None) demo_world)))) !! "nobody"
    = Some (mkSession "fresh-token" "refresh-2" (1000002 + 3600 * 1000)).
Proof.
  refine (proj1 (proj2 (oauth_round_trip (demo_env true) demo_world "nobody" "search"
    "code" "fresh-token" "refresh-2" (SearchArgs "x" None None None) 3600 _ _ _ _ _))).
  - vm_compute; reflexivity.
  - discriminate.
  - discriminate.
  - vm_compute; reflexivity.
  - vm_compute; reflexivity.
Defined.

(** *** The authorization URL *)

Lemma url_safe_kept (c : ascii) :
  (is_alnum c || mem_ascii c "*-._")%bool = true -> url_safe c = true.
Proof.
  destruct c as [[] [] [] [] [] [] [] []]; vm_compute; intros H;
    first [reflexivity | discriminate].
Qed.

Lemma url_safe_percent_byte (c : ascii) :
  forallb url_safe (list_ascii_of_string (percent_byte c)) = true.
Proof. destruct c as [[] [] [] [] [] [] [] []]; vm_compute; reflexivity. Qed.

Lemma form_encode_url_safe (s : string) :
  forallb url_safe (list_ascii_of_string (form_encode s)) = true.
Proof.
  induction s as [|c s IH]; [reflexivity|].
  cbn [form_encode]. rewrite list_ascii_of_string_append, forallb_app, IH, andb_true_r.
  destruct (is_alnum c || mem_ascii c "*-._")%bool eqn:Hkeep.
  - cbn. now rewrite (url_safe_kept c Hkeep).
  - destruct (Ascii.eqb c " "); [reflexivity | apply url_safe_percent_byte].
Qed.

Lemma form_encode_alnum (s : string) :
  forallb is_alnum (list_ascii_of_string s) = true -> form_encode s = s.
Proof.
  induction s as [|c s IH]; [reflexivity|].
  cbn [list_ascii_of_string forallb form_encode]. intros H.
  apply andb_true_iff in H as [Hc Hs]. rewrite Hc, (IH Hs). reflexivity.
Qed.

(** X19.  The URL has the six parameters in the
    printed order; the values of [client_id], [redirect_uri] and [state] are
    form-encoded, so they are made of letters, digits and [*-._+%] only and
    cannot add or cut a parameter; a state made of letters and digits (the
    random hex token) appears unchanged. *)
Theorem generateAuthUrl_parameters (env : Env) (state : string) :
  generateAuthUrl env state
    = "https://accounts.spotify.com/authorize?client_id="
      +:+ form_encode (SPOTIFY_CLIENT_ID env)
      +:+ "&response_type=code&redirect_uri=" +:+ form_encode (SPOTIFY_REDIRECT_URI env)
      +:+ "&state=" +:+ form_encode state
      +:+ "&scope=user-library-read+user-library-modify+user-follow-read+user-follow-modify+playlist-read-private+playlist-read-collaborative+playlist-modify-public+playlist-modify-private+user-read-private+user-read-email+user-top-read+user-read-recently-played&show_dialog=true" /\
  forallb url_safe (list_ascii_of_string (form_encode (SPOTIFY_CLIENT_ID env))) = true /\
  forallb url_safe (list_ascii_of_string (form_encode (SPOTIFY_REDIRECT_URI env))) = true /\
  forallb url_safe (list_ascii_of_string (form_encode state)) = true /\
  (forallb is_alnum (list_ascii_of_string state) = true -> form_encode state = state).
Proof.
  split; [reflexivity|]. split; [apply form_encode_url_safe|].
  split; [apply form_encode_url_safe|]. split; [apply form_encode_url_safe|].
  apply form_encode_alnum.
Qed.

Lemma generateAuthUrl_parameters_witness :
  form_encode "00112233445566778899aabbccddeeff" = "00112233445566778899aabbccddeeff".
Proof.
  refine (proj2 (proj2 (proj2 (proj2 (generateAuthUrl_parameters (demo_env true)
    "00112233445566778899aabbccddeeff")))) _).
  reflexivity.
Defined.

(** *** The worker's entry point *)

(** X20.  A request without [userId], or with an empty one,
    is served exactly as a request of the user "default": all such callers
    share that user's token. *)
Theorem worker_default_user
    (env : Env) (html http_method pathname : string) (b : RpcBody) (w : World) :
  rpc_userId b = None \/ rpc_userId b = Some "" ->
  worker_fetch env html http_method pathname (JsonObject b) w
    = worker_fetch env html http_method pathname
        (JsonObject (mkRpcBody (rpc_method b) (Some "default") (rpc_params b))) w.
Proof.
  intros Hu. unfold worker_fetch, rpc. cbn [rpc_userId rpc_method rpc_params].
  destruct Hu as [-> | ->]; reflexivity.
Qed.

Lemma worker_default_user_witness :
  worker_fetch (demo_env true) "<html>" "POST" "/mcp"
    (JsonObject (mkRpcBody (Some "tools/call") None
       (Some (mkRpcParams (Some "fetch_tracks") (FetchTracksArgs "pl" None None) None))))
    demo_world
  = worker_fetch (demo_env true) "<html>" "POST" "/mcp"
      (JsonObject (mkRpcBody (Some "tools/call") (Some "default")
         (Some (mkRpcParams (Some "fetch_tracks") (FetchTracksArgs "pl" None None) None))))
      demo_world.
Proof.
  refine (worker_default_user (demo_env true) "<html>" "POST" "/mcp"
    (mkRpcBody (Some "tools/call") None
       (Some (mkRpcParams (Some "fetch_tracks") (FetchTracksArgs "pl" None None) None)))
    demo_world _).
  left; reflexivity.
Defined.

(** X21.  A [tools/call] posted to [/mcp] runs the switch for
    the named tool: its result comes back with status 200, and whatever it
    throws comes back as a 500 carrying the error; the world is the one the
    switch left.  No request at all makes the handler throw. *)
Theorem worker_tools_call
    (env : Env) (html : string) (b : RpcBody) (params : RpcParams) (w : World) :
  rpc_method b = Some "tools/call" -> rpc_params b = Some params ->
  worker_fetch env html "POST" "/mcp" (JsonObject b) w
    = (match fst (handleToolCall env (or_str (rpc_userId b) "default")
                    (default "undefined" (p_name params)) (p_arguments params) w) with
       | Return r => Return (mkWorkerReply 200 (ToolOutcome r))
       | Throw e => Return (mkWorkerReply 500 (ThrownError e))
       end,
       snd (handleToolCall env (or_str (rpc_userId b) "default")
              (default "undefined" (p_name params)) (p_arguments params) w)) /\
  (forall http_method pathname body w0,
     exists reply,
       fst (worker_fetch env html http_method pathname body w0) = Return reply).
Proof.
  intros Hm Hp. split.
  - unfold worker_fetch, rpc. rewrite Hm, Hp. cbn.
    unfold try_catch, bind.
    destruct (handleToolCall env (or_str (rpc_userId b) "default")
                (default "undefined" (p_name params)) (p_arguments params) w)
      as [[r|e] w1]; reflexivity.
  - intros http_method pathname body w0. unfold worker_fetch.
    destruct (String.eqb http_method "OPTIONS"); [eexists; reflexivity|].
    destruct (String.eqb pathname "/mcp" && String.eqb http_method "POST")%bool;
      [|eexists; reflexivity].
    unfold try_catch. destruct (rpc env html body w0) as [[r|e] w1];
      eexists; reflexivity.
Qed.

Lemma worker_tools_call_witness :
  worker_fetch (demo_env true) "<html>" "POST" "/mcp"
    (JsonObject (mkRpcBody (Some "tools/call") (Some "stranger")
       (Some (mkRpcParams (Some "add_to_library") (LibraryArgs track "t1") None))))
    demo_world
  = (Return (mkWorkerReply 500 (ThrownError not_authenticated)), demo_world).
Proof.
  refine (eq_trans (proj1 (worker_tools_call (demo_env true) "<html>"
    (mkRpcBody (Some "tools/call") (Some "stranger")
       (Some (mkRpcParams (Some "add_to_library") (LibraryArgs track "t1") None)))
    (mkRpcParams (Some "add_to_library") (LibraryArgs track "t1") None)
    demo_world _ _)) _).
  - reflexivity.
  - reflexivity.
  - vm_compute; reflexivity.
Defined.

(** X22.  Only a [tools/call] posted to [/mcp] can send a
    request upstream or change a store: every other request to the worker
    leaves the world as it was. *)
Theorem worker_other_requests_change_nothing
    (env : Env) (html http_method pathname : string) (body : RequestJson) (w : World) :
  ~ (http_method = "POST" /\ pathname = "/mcp" /\
     exists b, body = JsonObject b /\ rpc_method b = Some "tools/call") ->
  snd (worker_fetch env html http_method pathname body w) = w.
Proof.
  intros Hnot. unfold worker_fetch.
  destruct (String.eqb http_method "OPTIONS"); [reflexivity|].
  destruct (String.eqb_spec pathname "/mcp") as [Hp|Hp]; [|reflexivity].
  destruct (String.eqb_spec http_method "POST") as [Hm|Hm]; [|reflexivity].
  cbn [andb]. unfold try_catch, rpc.
  destruct body as [| |b]; try reflexivity.
  destruct (rpc_method b) as [m|] eqn:Hmeth; [|reflexivity].
  change (default "undefined" (Some m)) with m.
  destruct (String.eqb m "tools/list"); [reflexivity|].
  destruct (String.eqb m "resources/list"); [reflexivity|].
  destruct (String.eqb m "resources/read").
  { unfold resources_read.
    destruct (UI_COMPONENTS html _) as [h| | |], (rpc_params b ≫= p_uri);
      try reflexivity.
    destruct (String.eqb h ""); reflexivity. }
  destruct (String.eqb_spec m "tools/call") as [->|_]; [|reflexivity].
  exfalso. apply Hnot. repeat split; try assumption. exists b. now split.
Qed.

Lemma worker_other_requests_change_nothing_witness :
  snd (worker_fetch (demo_env true) "<html>" "GET" "/mcp"
         (JsonObject (mkRpcBody (Some "tools/call") None None)) demo_world)
    = demo_world.
Proof.
  refine (worker_other_requests_change_nothing (demo_env true) "<html>" "GET" "/mcp"
    (JsonObject (mkRpcBody (Some "tools/call") None None)) demo_world _).
  intros (H & _). discriminate.
Defined.

(** X23.  Every resource that [resources/list] advertises can be
    read: [resources/read] on its uri answers 200 with that uri and the
    widget markup, provided the markup is not empty; with an empty markup
    the same request is a 404. *)
Theorem worker_advertised_resources_readable
    (env : Env) (html uri : string) (w : World) (uris : list string)
    (user user' : option string) (params : option RpcParams)
    (name : option string) (args : ToolArgs) :
  fst (worker_fetch env html "POST" "/mcp"
         (JsonObject (mkRpcBody (Some "resources/list") user params)) w)
    = Return (mkWorkerReply 200 (ResourcesList uris)) ->
  In uri uris ->
  worker_fetch env html "POST" "/mcp"
    (JsonObject (mkRpcBody (Some "resources/read") user'
       (Some (mkRpcParams name args (Some uri))))) w
  = (Return (if String.eqb html ""
             then mkWorkerReply 404 (ErrorObject "Resource not found")
             else mkWorkerReply 200 (ResourceContents uri (TextHtml html))), w).
Proof.
  intros Hlist Huri. cbn in Hlist. inversion Hlist; subst uris.
  destruct Huri as [<-|[]].
  unfold worker_fetch, rpc, try_catch, resources_read. cbn.
  destruct (String.eqb html ""); reflexivity.
Qed.

Lemma worker_advertised_resources_readable_witness :
  worker_fetch (demo_env true) "<html>" "POST" "/mcp"
    (JsonObject (mkRpcBody (Some "resources/read") None
       (Some (mkRpcParams None NoArgs (Some "ui://widget/spotify-search.html")))))
    demo_world
  = (Return (mkWorkerReply 200
       (ResourceContents "ui://widget/spotify-search.html" (TextHtml "<html>"))),
     demo_world).
Proof.
  refine (worker_advertised_resources_readable (demo_env true) "<html>"
    "ui://widget/spotify-search.html" demo_world ["ui://widget/spotify-search.html"]
    None None None None NoArgs _ _).
  - reflexivity.
  - simpl; auto.
Defined.

(** *** [readWidgetHtml] *)

Lemma units_leb_refl (a : list N) : units_leb a a = true.
Proof.
  induction a as [|x a IH]; [reflexivity|]. cbn [units_leb].
  now rewrite N.ltb_irrefl.
Qed.

Lemma units_leb_total (a : list N) :
  forall b, units_leb a b = true \/ units_leb b a = true.
Proof.
  induction a as [|x a IH]; intros [|y b]; cbn [units_leb]; auto.
  destruct (N.ltb_spec x y), (N.ltb_spec y x); auto; lia.
Qed.

Lemma units_leb_trans (a : list N) :
  forall b c, units_leb a b = true -> units_leb b c = true -> units_leb a c = true.
Proof.
  induction a as [|x a IH]; intros [|y b] [|z c]; cbn [units_leb]; try easy.
  destruct (N.ltb_spec x y), (N.ltb_spec y x), (N.ltb_spec y z), (N.ltb_spec z y),
    (N.ltb_spec x z), (N.ltb_spec z x); try easy; try lia.
  apply IH.
Qed.

Lemma code_unit_leb_trans (a b c : string) :
  code_unit_leb a b = true -> code_unit_leb b c = true -> code_unit_leb a c = true.
Proof. unfold code_unit_leb. apply units_leb_trans. Qed.

Lemma code_unit_leb_refl (a : string) : code_unit_leb a a = true.
Proof. unfold code_unit_leb. apply units_leb_refl. Qed.

Lemma code_unit_leb_total (a b : string) :
  code_unit_leb a b = true \/ code_unit_leb b a = true.
Proof. unfold code_unit_leb. apply units_leb_total. Qed.

Lemma sort_insert_In x l y : In y (sort_insert x l) <-> y = x \/ In y l.
Proof.
  induction l as [|z l IH]; cbn [sort_insert In]; [intuition|].
  destruct (code_unit_leb x z); cbn [In]; [intuition|]. rewrite IH. intuition.
Qed.

Lemma js_sort_In l y : In y (js_sort l) <-> In y l.
Proof.
  induction l as [|x l IH]; cbn [js_sort In]; [reflexivity|].
  rewrite sort_insert_In, IH. intuition.
Qed.

Lemma sort_insert_sorted x l :
  Sorted.StronglySorted (fun a b => code_unit_leb a b = true) l ->
  Sorted.StronglySorted (fun a b => code_unit_leb a b = true) (sort_insert x l).
Proof.
  induction 1 as [|z l Hs IH Hall]; cbn [sort_insert].
  - constructor; constructor.
  - destruct (code_unit_leb x z) eqn:Hxz.
    + constructor; [now constructor|]. constructor; [exact Hxz|].
      eapply List.Forall_impl; [|exact Hall]. intros b Hb. eapply code_unit_leb_trans; eassumption.
    + constructor; [exact IH|].
      apply List.Forall_forall. intros y Hy. apply sort_insert_In in Hy as [-> |Hy].
      * destruct (code_unit_leb_total z x) as [H|H]; [exact H | congruence].
      * rewrite List.Forall_forall in Hall. now apply Hall.
Qed.

Lemma js_sort_sorted l :
  Sorted.StronglySorted (fun a b => code_unit_leb a b = true) (js_sort l).
Proof.
  induction l as [|x l IH]; cbn [js_sort]; [constructor | now apply sort_insert_sorted].
Qed.

Lemma last_of_sorted (l : list string) (f : string) :
  Sorted.StronglySorted (fun a b => code_unit_leb a b = true) l ->
  last l = Some f ->
  In f l /\ forall g, In g l -> code_unit_leb g f = true.
Proof.
  induction 1 as [|z l Hs IH Hall]; [discriminate|].
  destruct l as [|y l'].
  - simpl. intros H. inversion H; subst. split; [now left|].
    intros g [->|[]]. apply code_unit_leb_refl.
  - change (last (z :: y :: l')) with (last (y :: l')). intros Hlast.
    destruct (IH Hlast) as [Hin Hmax]. split; [now right|].
    intros g [->|Hg]; [|now apply Hmax].
    rewrite List.Forall_forall in Hall. now apply Hall.
Qed.

(** The last of the sorted candidates is a candidate and no candidate is
    greater. *)
Lemma widget_candidates_last name names f :
  last (widget_candidates name names) = Some f ->
  (In f names /\ String.prefix (name +:+ "-") f = true /\ endsWith f ".html" = true) /\
  forall g, In g names -> String.prefix (name +:+ "-") g = true ->
            endsWith g ".html" = true -> code_unit_leb g f = true.
Proof.
  unfold widget_candidates. intros Hlast.
  destruct (last_of_sorted _ f (js_sort_sorted _) Hlast) as [Hin Hmax].
  apply js_sort_In, filter_In in Hin as [Hin Hf].
  apply andb_true_iff in Hf as [Hp He]. split; [now repeat split|].
  intros g Hg Hgp Hge. apply Hmax. apply js_sort_In, filter_In.
  split; [exact Hg|]. now rewrite Hgp, Hge.
Qed.

Lemma last_None_nil {A} (l : list A) : last l = None -> l = [].
Proof.
  induction l as [|x [|y l] IH]; [reflexivity|discriminate|].
  intros H. specialize (IH H). discriminate.
Qed.

(** X24.  When the assets directory holds
    [name.html], that file alone decides: its contents are returned, or the
    not-found error is thrown when it is empty, whatever versioned or nested
    files exist; without the assets directory the call throws at once. *)
Theorem readWidgetHtml_direct_file (fs : Assets) (name contents : string) :
  (assets_exist fs = false -> readWidgetHtml fs name = Throw (assets_not_found fs)) /\
  (assets_exist fs = true ->
   read_file (name +:+ ".html") (assets_files fs) = Some contents ->
   readWidgetHtml fs name
     = if String.eqb contents "" then Throw (widget_not_found fs name)
       else Return contents) /\
  (forall html, readWidgetHtml fs name = Return html -> html <> "").
Proof.
  split; [|split].
  - intros He. unfold readWidgetHtml. now rewrite He.
  - intros He Hd. unfold readWidgetHtml. now rewrite He, Hd.
  - intros html. unfold readWidgetHtml.
    destruct (negb (assets_exist fs)); [discriminate|].
    destruct (match read_file (name +:+ ".html") (assets_files fs) with
              | Some c => Some c
              | None => _
              end) as [c|]; [|discriminate].
    destruct (String.eqb_spec c ""); [discriminate|].
    intros H. now inversion H; subst.
Qed.

Lemma readWidgetHtml_direct_file_witness :
  readWidgetHtml
    (mkAssets true "/app/assets"
       [("spotify-search.html", ""); ("spotify-search-abc.html", "<html>v2</html>")] [])
    "spotify-search"
  = Throw (widget_not_found
             (mkAssets true "/app/assets"
                [("spotify-search.html", "");
                 ("spotify-search-abc.html", "<html>v2</html>")] [])
             "spotify-search").
Proof.
  refine (proj1 (proj2 (readWidgetHtml_direct_file
    (mkAssets true "/app/assets"
       [("spotify-search.html", ""); ("spotify-search-abc.html", "<html>v2</html>")] [])
    "spotify-search" "")) _ _).
  - reflexivity.
  - reflexivity.
Defined.

(** X25.  Without [name.html] in an existing assets
    directory, the file read is the versioned file [name-*.html] whose name
    is the greatest in the order of [sort()], the order of the UTF-16 code
    units (for ASCII names, the order of the bytes): it is one of the
    directory's files, no other versioned file has a greater name, and the
    nested file is not consulted; only when there is no versioned file at
    all does the nested [name.html] decide. *)
Theorem readWidgetHtml_latest_version (fs : Assets) (name : string) :
  assets_exist fs = true ->
  read_file (name +:+ ".html") (assets_files fs) = None ->
  (exists fallback,
     In fallback (map fst (assets_files fs)) /\
     String.prefix (name +:+ "-") fallback = true /\
     endsWith fallback ".html" = true /\
     (forall g, In g (map fst (assets_files fs)) ->
                String.prefix (name +:+ "-") g = true ->
                endsWith g ".html" = true -> code_unit_leb g fallback = true) /\
     readWidgetHtml fs name
       = match read_file fallback (assets_files fs) with
         | Some contents =>
             if String.eqb contents "" then Throw (widget_not_found fs name)
             else Return contents
         | None => Throw (widget_not_found fs name)
         end) \/
  ((forall g, In g (map fst (assets_files fs)) ->
              String.prefix (name +:+ "-") g = true -> endsWith g ".html" = false) /\
   readWidgetHtml fs name
     = match read_file (name +:+ ".html") (assets_nested fs) with
       | Some contents =>
           if String.eqb contents "" then Throw (widget_not_found fs name)
           else Return contents
       | None => Throw (widget_not_found fs name)
       end).
Proof.
  intros He Hd. unfold readWidgetHtml. rewrite He, Hd. cbn [negb].
  destruct (last (widget_candidates name (map fst (assets_files fs))))
    as [fallback|] eqn:Hlast.
  - left. exists fallback.
    destruct (widget_candidates_last name _ fallback Hlast) as [(Hin & Hp & Hx) Hmax].
    repeat (split; [assumption|]). reflexivity.
  - right. split; [|reflexivity].
    apply last_None_nil in Hlast. unfold widget_candidates in Hlast.
    intros g Hg Hp. destruct (endsWith g ".html") eqn:Hx; [|reflexivity].
    assert (Hin : In g (js_sort (List.filter
              (fun file => String.prefix (name +:+ "-") file && endsWith file ".html")
              (map fst (assets_files fs))))).
    { apply js_sort_In, filter_In. split; [exact Hg|]. now rewrite Hp, Hx. }
    rewrite Hlast in Hin. destruct Hin.
Qed.

Lemma readWidgetHtml_latest_version_witness :
  readWidgetHtml
    (mkAssets true "/app/assets"
       [("spotify-search-2b.html", "<html>new</html>");
        ("spotify-search-1a.html", "<html>old</html>"); ("other.html", "x")]
       [("spotify-search.html", "<html>nested</html>")])
    "spotify-search"
  = Return "<html>new</html>" /\
  readWidgetHtml
    (mkAssets true "/app/assets"
       [("w-" +:+ private_use_E000 +:+ ".html", "<html>private use</html>");
        ("w-" +:+ emoji_1F600 +:+ ".html", "<html>emoji</html>")] [])
    "w"
  = Return "<html>private use</html>".
Proof.
  split.
  - destruct (readWidgetHtml_latest_version
      (mkAssets true "/app/assets"
         [("spotify-search-2b.html", "<html>new</html>");
          ("spotify-search-1a.html", "<html>old</html>"); ("other.html", "x")]
         [("spotify-search.html", "<html>nested</html>")])
      "spotify-search" eq_refl eq_refl) as [(f & Hin & Hp & _ & Hmax & H)|[Hnone _]].
    + rewrite H. destruct Hin as [<-|[<-|[<-|[]]]].
      * reflexivity.
      * specialize (Hmax "spotify-search-2b.html" (or_introl eq_refl) eq_refl eq_refl).
        vm_compute in Hmax. discriminate.
      * vm_compute in Hp. discriminate.
    + specialize (Hnone "spotify-search-2b.html" (or_introl eq_refl) eq_refl).
      vm_compute in Hnone. discriminate.
  - destruct (readWidgetHtml_latest_version
      (mkAssets true "/app/assets"
         [("w-" +:+ private_use_E000 +:+ ".html", "<html>private use</html>");
          ("w-" +:+ emoji_1F600 +:+ ".html", "<html>emoji</html>")] [])
      "w" eq_refl eq_refl) as [(f & Hin & _ & _ & Hmax & H)|[Hnone _]].
    + rewrite H. destruct Hin as [<-|[<-|[]]].
      * reflexivity.
      * specialize (Hmax ("w-" +:+ private_use_E000 +:+ ".html")
                      (or_introl eq_refl) eq_refl eq_refl).
        vm_compute in Hmax. discriminate.
    + specialize (Hnone ("w-" +:+ private_use_E000 +:+ ".html")
                    (or_introl eq_refl) eq_refl).
      vm_compute in Hnone. discriminate.
Defined.

(** *** The widget script *)

Lemma two_digits :
  forallb (fun n => (String.length (padStart2 (num_to_string (Z.of_nat n))) =? 2)%nat)
          (seq 0 60) = true.
Proof. vm_compute. reflexivity. Qed.

Lemma padStart2_seconds (s : Z) :
  0 <= s < 60 -> String.length (padStart2 (num_to_string s)) = 2%nat.
Proof.
  intros Hs. pose proof two_digits as H. rewrite forallb_forall in H.
  specialize (H (Z.to_nat s)). rewrite Z2Nat.id in H by lia.
  apply Nat.eqb_eq, H, in_seq. lia.
Qed.

(** X26.  For a duration of [ms >= 0] milliseconds the text is
    the whole minutes, a colon, and the remaining whole seconds, which are
    below 60 and always printed with two characters. *)
Theorem format_duration_minutes_seconds (ms : Z) :
  0 <= ms ->
  exists minutes seconds,
    0 <= minutes /\ 0 <= seconds < 60 /\
    minutes * 60000 + seconds * 1000 <= ms < minutes * 60000 + seconds * 1000 + 1000 /\
    format_duration ms
      = num_to_string minutes +:+ ":" +:+ padStart2 (num_to_string seconds) /\
    String.length (padStart2 (num_to_string seconds)) = 2%nat.
Proof.
  intros Hms. exists (ms / 60000), (Z.rem ms 60000 / 1000).
  rewrite Z.rem_mod_nonneg by lia.
  pose proof (Z.mod_pos_bound ms 60000 ltac:(lia)) as Hmod.
  pose proof (Z.div_mod ms 60000 ltac:(lia)) as Hdm.
  pose proof (Z.div_mod (ms mod 60000) 1000 ltac:(lia)) as Hdm2.
  pose proof (Z.mod_pos_bound (ms mod 60000) 1000 ltac:(lia)) as Hmod2.
  assert (Hsec : 0 <= ms mod 60000 / 1000 < 60).
  { split; [apply Z.div_pos; lia|]. apply Z.div_lt_upper_bound; lia. }
  split; [apply Z.div_pos; lia|]. split; [exact Hsec|]. split; [lia|].
  split.
  - unfold format_duration. now rewrite Z.rem_mod_nonneg by lia.
  - now apply padStart2_seconds.
Qed.

Lemma format_duration_minutes_seconds_witness :
  exists minutes seconds,
    format_duration 185999
      = num_to_string minutes +:+ ":" +:+ padStart2 (num_to_string seconds) /\
    minutes = 3 /\ seconds = 5.
Proof.
  destruct (format_duration_minutes_seconds 185999 ltac:(lia))
    as (m & s & Hm & Hs & Hb & Hf & _).
  exists m, s. split; [exact Hf|]. lia.
Defined.

(** X27.  When the results hold at least one track, the block
    after the header is the songs section with one row per track for the
    first ten tracks, in order, and no more; the header still counts every
    track. *)
Theorem render_songs_first_ten
    (props : WidgetProps) (view : SearchView) (t : TrackHit) (ts : list TrackHit) :
  props_results props = Some view ->
  sv_tracks view = Some (t :: ts) ->
  exists rest,
    render (Some props)
      = HeaderBlock (default "" (props_query props)) (result_count view)
        :: SongsSection (map track_row (take 10 (t :: ts))) :: rest /\
    length (map track_row (take 10 (t :: ts))) = Nat.min 10 (length (t :: ts)) /\
    (length (t :: ts) <= result_count view)%nat /\
    (forall rows, ~ In (SongsSection rows) rest).
Proof.
  intros Hr Ht. unfold render. cbn [mbind option_bind]. rewrite Hr.
  change (default (mkSearchView None None None None) (Some view)) with view.
  rewrite Ht. cbn [section app].
  eexists. split; [reflexivity|]. split; [now rewrite length_map, length_take|].
  split.
  - unfold result_count. rewrite Ht. cbn [facet_size]. lia.
  - intros rows Hin.
    repeat (apply in_app_or in Hin as [Hin|Hin]);
      unfold section in Hin;
      repeat match type of Hin with
             | In _ (match ?f with _ => _ end) => destruct f
             end;
      simpl in Hin; intuition discriminate.
Qed.

Lemma render_songs_first_ten_witness :
  exists rows rest,
    render (Some (mkWidgetProps (Some "q")
      (Some (mkSearchView
               (Some (repeat (mkTrackHit "id" "n" "a" "al" 61000 true "u" "e" None) 12))
               None None None))))
      = HeaderBlock "q" 12 :: SongsSection rows :: rest /\
    length rows = 10%nat.
Proof.
  destruct (render_songs_first_ten
    (mkWidgetProps (Some "q")
      (Some (mkSearchView
               (Some (repeat (mkTrackHit "id" "n" "a" "al" 61000 true "u" "e" None) 12))
               None None None)))
    (mkSearchView
       (Some (repeat (mkTrackHit "id" "n" "a" "al" 61000 true "u" "e" None) 12))
       None None None)
    (mkTrackHit "id" "n" "a" "al" 61000 true "u" "e" None)
    (repeat (mkTrackHit "id" "n" "a" "al" 61000 true "u" "e" None) 11)
    eq_refl eq_refl) as (rest & Hrender & Hlen & _).
  eexists. exists rest. split; [exact Hrender | exact Hlen].
Defined.

(** X28.  The widget shows the empty-state block exactly when
    it shows no section: with no item in any facet (a facet that is absent
    or an empty array alike) it renders the header with count 0 followed by
    the empty state and nothing else; with at least one item the empty state
    is absent and at least one section follows the header. *)
Theorem render_empty_state (props : option WidgetProps) :
  let results := default (mkSearchView None None None None) (props ≫= props_results) in
  let query := default "" (props ≫= props_query) in
  (result_count results = 0%nat ->
     render props = [HeaderBlock query 0; EmptyState]) /\
  (result_count results <> 0%nat ->
     ~ In EmptyState (render props) /\
     exists s rest, render props = HeaderBlock query (result_count results) :: s :: rest).
Proof.
  intros results query. unfold render. fold results. fold query.
  unfold result_count.
  destruct (sv_tracks results) as [[|t ts]|], (sv_artists results) as [[|a ars]|],
           (sv_albums results) as [[|al als]|], (sv_playlists results) as [[|p ps]|];
    cbn [facet_size section app length Nat.add Nat.eqb];
    (split; [intros H; try discriminate H; reflexivity|]);
    intros H; try (exfalso; apply H; reflexivity);
    (split; [simpl; intuition discriminate | eexists; eexists; reflexivity]).
Qed.

Lemma render_empty_state_witness :
  render (Some (mkWidgetProps (Some "zzz")
                  (Some (mkSearchView (Some []) None (Some []) None))))
    = [HeaderBlock "zzz" 0; EmptyState].
Proof.
  refine (proj1 (render_empty_state (Some (mkWidgetProps (Some "zzz")
    (Some (mkSearchView (Some []) None (Some []) None))))) _).
  reflexivity.
Defined.

(** *** More on the token refresher *)

(** X2.  After a granted refresh, a further call made while
    the clock is still before the new expiry returns the refreshed token
    without another request. *)
Theorem refreshed_token_is_reused
    (env : Env) (w : World) (sid : string) (s : Session) (access rt : string)
    (expires_in : Z) :
  authSessions w !! sid = Some s ->
  expiresAt s <= clock env (clock_reads w) ->
  response_ok (refresh_reply env w s) = true ->
  body_json (refresh_reply env w s) = Some (JToken access rt expires_in) ->
  clock env (S (S (clock_reads w))) < clock env (S (clock_reads w)) + expires_in * 1000 ->
  getValidAccessToken env sid (snd (getValidAccessToken env sid w))
    = (Return access, after_check (after_refresh env w sid s access expires_in)) /\
  fetched (after_check (after_refresh env w sid s access expires_in))
    = fetched w ++ [refresh_request env (refreshToken s)].
Proof.
  intros Hs Hle Hok Hj Hclock.
  rewrite (getValidAccessToken_refreshed env w sid s access rt expires_in Hs Hle Hok Hj).
  cbn [snd]. split; [|reflexivity].
  apply (getValidAccessToken_fresh env _ sid
           (mkSession access (refreshToken s)
              (clock env (S (clock_reads w)) + expires_in * 1000))).
  - cbn [after_refresh authSessions]. apply lookup_insert_eq.
  - cbn [after_refresh clock_reads expiresAt]. exact Hclock.
Qed.

Lemma refreshed_token_is_reused_witness :
  fst (getValidAccessToken (demo_env true) "late"
         (snd (getValidAccessToken (demo_env true) "late" demo_world)))
    = Return "fresh-token".
Proof.
  pose proof (refreshed_token_is_reused (demo_env true) demo_world "late"
    (mkSession "late-token" "late-refresh" 500) "fresh-token" "refresh-2" 3600
    ltac:(vm_compute; reflexivity) ltac:(vm_compute; discriminate)
    ltac:(vm_compute; reflexivity) ltac:(vm_compute; reflexivity)
    ltac:(vm_compute; reflexivity)) as [H _].
  rewrite H. reflexivity.
Defined.

Lemma getValidAccessToken_store_witness :
  exists s',
    authSessions (snd (getValidAccessToken (demo_env true) "late" demo_world)) !! "late"
      = Some s' /\
    accessToken s' = "fresh-token" /\ refreshToken s' = "late-refresh".
Proof.
  destruct (proj1 (proj2 (proj2 (getValidAccessToken_store (demo_env true) demo_world
    "late"))) "fresh-token" ltac:(vm_compute; reflexivity))
    as (s & s' & Hs & Hs' & Ha & Hr).
  exists s'. split; [exact Hs'|]. split; [exact Ha|].
  rewrite Hr. vm_compute in Hs. now inversion Hs.
Defined.

Lemma sessions_never_removed_witness :
  is_Some (authSessions
             (snd (handleAuthCallback (demo_env true) (Some "code") (Some "new-state")
                     None demo_world)) !! "live").
Proof.
  refine (proj1 (proj2 (proj2 (sessions_never_removed (demo_env true))))
            (Some "code") (Some "new-state") None demo_world "live" _).
  vm_compute; eauto.
Defined.

Lemma requests_confined_witness :
  sends_only (known_request (demo_env true)) demo_world
    (snd (callToolHandler (demo_env true) "late" "add_to_library"
            (LibraryArgs artist "X") demo_world)).
Proof.
  exact (proj1 (requests_confined (demo_env true)) "late" "add_to_library"
           (LibraryArgs artist "X") demo_world).
Defined.
